(** * SuperBoot: a shallow embedding of the loader core

    The development follows the C sources of the repository:

    - [util/string.c]      narrow and wide string helpers
    - [boot/loader.h]      Linux boot-protocol records and their packed layout
    - [boot/linux.c]       EFI memory map to E820, the two hand-off paths
    - [fs/ext4.c]          the read-only extent-tree filesystem driver
    - [fs/vfs.c]           the mount table and device open
    - [config/limine.c]    the section (Limine-style) configuration parser

    Machine integers are [Z] with the wrap-around of their width written
    out; C strings are lists of character codes read up to the first NUL;
    firmware services are fields of explicit records. *)

From Stdlib Require Import ZArith List String Ascii Bool Lia.
From stdpp Require Import base list.
Import ListNotations.

Local Open Scope Z_scope.

(* ===================================================================== *)
(** * Machine integers                                                     *)
(* ===================================================================== *)

Definition wrap8  (z : Z) : Z := z mod 2^8.
Definition wrap16 (z : Z) : Z := z mod 2^16.
Definition wrap32 (z : Z) : Z := z mod 2^32.
Definition wrap64 (z : Z) : Z := z mod 2^64.

(** A memory region seen from its base pointer: the byte at each offset. *)
Definition memory := Z -> Z.

(** Little-endian load of [n] bytes at offset [off]. *)
Fixpoint load_le (n : nat) (m : memory) (off : Z) : Z :=
  match n with
  | O => 0
  | S n' => wrap8 (m off) + 256 * load_le n' m (off + 1)
  end.

Definition load8  := load_le 1.
Definition load16 := load_le 2.
Definition load32 := load_le 4.
Definition load64 := load_le 8.

(** Byte [i] of the little-endian image of [v]. *)
Definition byte_of (v : Z) (i : Z) : Z := (v / 2 ^ (8 * i)) mod 256.

(** Little-endian store of the [n] low bytes of [v] at offset [off]. *)
Definition store_le (n : Z) (m : memory) (off v : Z) : memory :=
  fun j => if (off <=? j) && (j <? off + n) then byte_of v (j - off) else m j.

(** CopyMem(dst + doff, src + soff, n). *)
Definition CopyMem (dst : memory) (doff : Z) (src : memory) (soff n : Z) : memory :=
  fun j => if (doff <=? j) && (j <? doff + n)
           then wrap8 (src (soff + (j - doff))) else dst j.

(** Functional update of an array seen as a map from indices. *)
Definition upd {A} (a : Z -> A) (i : Z) (v : A) : Z -> A :=
  fun j => if j =? i then v else a j.

(** The first [n] cells of an array. *)
Definition prefix {A} (a : Z -> A) (n : Z) : list A :=
  map (fun i => a (Z.of_nat i)) (seq 0 (Z.to_nat n)).

(* ===================================================================== *)
(** * Packed records                                                       *)
(* ===================================================================== *)

(** A record under [#pragma pack(1)]: its members in order, each with its
    size in bytes. *)
Definition layout := list (string * Z).

Definition sizeof (l : layout) : Z :=
  fold_right (fun f acc => snd f + acc) 0 l.

(** Under pack(1) a member starts where the members before it end. *)
Fixpoint offsetof (name : string) (l : layout) : Z :=
  match l with
  | [] => 0
  | (n, sz) :: rest => if String.eqb n name then 0 else sz + offsetof name rest
  end.

Fixpoint member_size (name : string) (l : layout) : Z :=
  match l with
  | [] => 0
  | (n, sz) :: rest => if String.eqb n name then sz else member_size name rest
  end.

(** [((T * )(m + base))->name] for an integer member of a packed record. *)
Definition member (l : layout) (m : memory) (base : Z) (name : string) : Z :=
  load_le (Z.to_nat (member_size name l)) m (base + offsetof name l).

(* ===================================================================== *)
(** * util/string.c                                                        *)
(* ===================================================================== *)

Module Util.

(** A C string behind a pointer is the list of the characters from the
    pointer on; the end of the list reads as the terminating NUL, and so
    does a 0 inside it. *)
Definition cstring := list Z.

(** [*p] *)
Definition deref (p : cstring) : Z :=
  match p with [] => 0 | c :: _ => c end.

(** [p[i]], for a string used as an array. *)
Definition at_ (p : cstring) : Z -> Z :=
  fun i => if i <? 0 then 0 else nth (Z.to_nat i) p 0.

Fixpoint sb_strcmp8 (a b : cstring) : Z :=
  match a, b with
  | ca :: a', cb :: b' =>
      if negb (ca =? 0) && negb (cb =? 0) && (ca =? cb)
      then sb_strcmp8 a' b'
      else ca - cb
  | _, _ => deref a - deref b
  end.

(** The [for] loop of sb_strncmp8 from index [i], [n] more rounds. *)
Fixpoint strncmp_from (a b : Z -> Z) (i : Z) (n : nat) : Z :=
  match n with
  | O => 0
  | S n' =>
      if negb (a i =? b i) || (a i =? 0) then a i - b i
      else strncmp_from a b (i + 1) n'
  end.

Definition sb_strncmp8 (a b : Z -> Z) (n : Z) : Z :=
  strncmp_from a b 0 (Z.to_nat n).

Fixpoint sb_strlen8 (a : cstring) : Z :=
  match a with
  | [] => 0
  | c :: a' => if c =? 0 then 0 else 1 + sb_strlen8 a'
  end.

(** The scan of sb_strstr8; [None] is the NULL result. *)
Fixpoint strstr_scan (haystack needle : cstring) (nlen : Z) : option cstring :=
  match haystack with
  | [] => None
  | c :: rest =>
      if c =? 0 then None
      else if sb_strncmp8 (at_ haystack) (at_ needle) nlen =? 0
           then Some haystack
           else strstr_scan rest needle nlen
  end.

Definition sb_strstr8 (haystack needle : cstring) : option cstring :=
  if deref needle =? 0 then Some haystack
  else strstr_scan haystack needle (sb_strlen8 needle).

(** The copy loops return the string left in [dst]. *)
Fixpoint strcpy_loop (f : Z -> Z) (src : list Z) (i max : Z) : list Z :=
  match src with
  | [] => []
  | c :: src' =>
      if (i + 1 <? max) && negb (c =? 0)
      then f c :: strcpy_loop f src' (i + 1) max
      else []
  end.

Definition sb_strcpy8 (src : cstring) (max : Z) : cstring :=
  strcpy_loop (fun c => c) src 0 max.

(** dst[i] = (CHAR16)(UINT8)src[i] *)
Definition sb_str8to16 (src : cstring) (max : Z) : list Z :=
  strcpy_loop (fun c => wrap8 c) src 0 max.

(** dst[i] = (src[i] < 0x80) ? (CHAR8)src[i] : '?' *)
Definition sb_str16to8 (src : list Z) (max : Z) : cstring :=
  strcpy_loop (fun c => if c <? 0x80 then c else 63) src 0 max.

Fixpoint sb_skip_whitespace (p : cstring) : cstring :=
  match p with
  | c :: p' => if (c =? 32) || (c =? 9) then sb_skip_whitespace p' else p
  | [] => []
  end.

Fixpoint sb_next_line (p : cstring) : cstring :=
  match p with
  | [] => []
  | c :: p' =>
      if c =? 0 then p
      else if c =? 10 then p'
      else sb_next_line p'
  end.

(** Character codes of a literal. *)
Definition str (s : string) : cstring :=
  map (fun a => Z.of_N (N_of_ascii a)) (list_ascii_of_string s).

(** [while ( *prefix) { if ( *s != *prefix) return FALSE; s++; prefix++; }] *)
Fixpoint sb_starts_with8 (s prefix_ : cstring) : bool :=
  match prefix_ with
  | [] => true
  | c :: prefix' =>
      if c =? 0 then true
      else if deref s =? c then sb_starts_with8 (tl s) prefix'
      else false
  end.

(** The characters of a string: what lies before its terminating NUL. *)
Fixpoint chars (p : cstring) : list Z :=
  match p with
  | [] => []
  | c :: p' => if c =? 0 then [] else c :: chars p'
  end.

End Util.

(* ===================================================================== *)
(** * boot/linux.c: EFI memory map to E820                                 *)
(* ===================================================================== *)

Module E820.

(** EFI_MEMORY_TYPE, as the UEFI headers that the sources include
    ([<efi.h>]) number it. *)
Definition EfiReservedMemoryType  : Z := 0.
Definition EfiLoaderCode          : Z := 1.
Definition EfiLoaderData          : Z := 2.
Definition EfiBootServicesCode    : Z := 3.
Definition EfiBootServicesData    : Z := 4.
Definition EfiRuntimeServicesCode : Z := 5.
Definition EfiRuntimeServicesData : Z := 6.
Definition EfiConventionalMemory  : Z := 7.
Definition EfiUnusableMemory      : Z := 8.
Definition EfiACPIReclaimMemory   : Z := 9.
Definition EfiACPIMemoryNVS       : Z := 10.

(** The fields of EFI_MEMORY_DESCRIPTOR that the conversion reads. *)
Record EFI_MEMORY_DESCRIPTOR := mkDesc {
  Type_         : Z;   (* UINT32 *)
  PhysicalStart : Z;   (* UINT64 *)
  NumberOfPages : Z    (* UINT64 *)
}.

(** loader.h: E820Entry. *)
Record E820Entry := mkE820 {
  addr  : Z;   (* UINT64 *)
  size  : Z;   (* UINT64 *)
  type  : Z    (* UINT32 *)
}.

Definition efi_mem_to_e820_type (efi_type : Z) : Z :=
  if (efi_type =? EfiLoaderCode) || (efi_type =? EfiLoaderData)
     || (efi_type =? EfiBootServicesCode) || (efi_type =? EfiBootServicesData)
     || (efi_type =? EfiConventionalMemory)
  then 1
  else if efi_type =? EfiACPIReclaimMemory then 3
  else if efi_type =? EfiACPIMemoryNVS then 4
  else 2.

(** The test of the [if] inside the loop: merge into [e820[count-1]]. *)
Definition merges (e820 : Z -> E820Entry) (count : Z) (type_ addr_ : Z) : bool :=
  (0 <? count)
  && (type (e820 (count - 1)) =? type_)
  && (wrap64 (addr (e820 (count - 1)) + size (e820 (count - 1))) =? addr_).

(** One pass of the [while] body.  [mmap p] is the descriptor the firmware
    stored at byte offset [p] of the map buffer. *)
Definition e820_body (mmap : Z -> EFI_MEMORY_DESCRIPTOR) (desc_size : Z)
    (st : Z * Z * (Z -> E820Entry)) : Z * Z * (Z -> E820Entry) :=
  let '(p, count, e820) := st in
  let md    := mmap p in
  let type_ := efi_mem_to_e820_type (Type_ md) in
  let addr_ := PhysicalStart md in
  let size_ := wrap64 (NumberOfPages md * 4096) in
  if merges e820 count type_ addr_ then
    let prev := e820 (count - 1) in
    (p + desc_size, count,
     upd e820 (count - 1)
         (mkE820 (addr prev) (wrap64 (size prev + size_)) (type prev)))
  else
    (p + desc_size, count + 1, upd e820 count (mkE820 addr_ size_ type_)).

(** [while (p < end && count < max_entries)], with the pointers taken as
    offsets from [mmap]. *)
Fixpoint e820_loop (fuel : nat) (mmap : Z -> EFI_MEMORY_DESCRIPTOR)
    (mmap_size desc_size max_entries : Z)
    (st : Z * Z * (Z -> E820Entry)) : option (Z * (Z -> E820Entry)) :=
  let '(p, count, e820) := st in
  if (p <? mmap_size) && (count <? max_entries) then
    match fuel with
    | O => None
    | S fuel' =>
        e820_loop fuel' mmap mmap_size desc_size max_entries
                  (e820_body mmap desc_size st)
    end
  else Some (count, e820).

(** sb_efi_memmap_to_e820: returns [count] and the output array.  The fuel
    covers every walk that ends: with a positive stride the cursor passes
    [end] within [mmap_size] passes, and with stride 0 the loop can only
    end on [count], within [max_entries] passes that append.  [None] is
    left for the walk that never ends (stride 0, every pass merging). *)
Definition sb_efi_memmap_to_e820 (mmap : Z -> EFI_MEMORY_DESCRIPTOR)
    (mmap_size desc_size : Z) (e820 : Z -> E820Entry) (max_entries : Z)
    : option (Z * (Z -> E820Entry)) :=
  e820_loop (Z.to_nat mmap_size + Z.to_nat max_entries) mmap mmap_size
            desc_size max_entries (0, 0, e820).

(** The entries the caller reads back: [e820[0 .. count)]. *)
Definition emitted (r : option (Z * (Z -> E820Entry))) : option (list E820Entry) :=
  match r with
  | Some (count, e820) => Some (prefix e820 count)
  | None => None
  end.

(** ** The conversion as the specification words it

    The descriptors visited by a walk with stride [desc_size] ... *)
Definition visited_count (mmap_size desc_size : Z) : nat :=
  Z.to_nat ((mmap_size + desc_size - 1) / desc_size).

Definition stride_descs (mmap : Z -> EFI_MEMORY_DESCRIPTOR)
    (mmap_size desc_size : Z) : list EFI_MEMORY_DESCRIPTOR :=
  map (fun k => mmap (Z.of_nat k * desc_size))
      (seq 0 (visited_count mmap_size desc_size)).

(** ... are folded into the output: a descriptor joins the previous entry
    when the mapped types are equal and the ranges abut, is appended
    otherwise, and nothing is read once [cap] entries exist. *)
Fixpoint coalesce_spec (cap : Z) (descs : list EFI_MEMORY_DESCRIPTOR)
    (out : list E820Entry) : list E820Entry :=
  match descs with
  | [] => out
  | d :: ds =>
      if Z.of_nat (length out) <? cap then
        let kind := efi_mem_to_e820_type (Type_ d) in
        let sz   := wrap64 (NumberOfPages d * 4096) in
        match last out with
        | Some prev =>
            if (type prev =? kind)
               && (wrap64 (addr prev + size prev) =? PhysicalStart d)
            then coalesce_spec cap ds
                   (removelast out
                    ++ [mkE820 (addr prev) (wrap64 (size prev + sz)) (type prev)])
            else coalesce_spec cap ds (out ++ [mkE820 (PhysicalStart d) sz kind])
        | None => coalesce_spec cap ds (out ++ [mkE820 (PhysicalStart d) sz kind])
        end
      else out
  end.

(** The map of scenario 6, with the 40-byte stride of the UEFI record. *)
Definition scenario6_map (p : Z) : EFI_MEMORY_DESCRIPTOR :=
  if p =? 0 then mkDesc EfiLoaderCode 0x0 1
  else if p =? 40 then mkDesc EfiLoaderData 0x1000 2
  else if p =? 80 then mkDesc EfiACPIReclaimMemory 0x4000 1
  else mkDesc 0 0 0.

End E820.

(* ===================================================================== *)
(** * UEFI status codes (from the firmware headers)                        *)
(* ===================================================================== *)

Definition EFI_STATUS := Z.
Definition EFIERR (n : Z) : EFI_STATUS := 2^63 + n.
Definition EFI_SUCCESS           : EFI_STATUS := 0.
Definition EFI_LOAD_ERROR        : EFI_STATUS := EFIERR 1.
Definition EFI_INVALID_PARAMETER : EFI_STATUS := EFIERR 2.
Definition EFI_UNSUPPORTED       : EFI_STATUS := EFIERR 3.
Definition EFI_BUFFER_TOO_SMALL  : EFI_STATUS := EFIERR 5.
Definition EFI_OUT_OF_RESOURCES  : EFI_STATUS := EFIERR 9.
Definition EFI_VOLUME_CORRUPTED  : EFI_STATUS := EFIERR 10.
Definition EFI_NOT_FOUND         : EFI_STATUS := EFIERR 14.

(** EFI_ERROR(s): the high bit of the status word. *)
Definition EFI_ERROR (s : EFI_STATUS) : bool := 2^63 <=? s.

(* ===================================================================== *)
(** * boot/loader.h: packed records of the Linux boot protocol             *)
(* ===================================================================== *)

Module Loader.

Local Open Scope string_scope.
Local Open Scope list_scope.
Local Open Scope Z_scope.

Definition LinuxSetupHeader : layout :=
  [ ("setup_sects", 1); ("root_flags", 2); ("syssize", 4); ("ram_size", 2);
    ("vid_mode", 2); ("root_dev", 2); ("boot_flag", 2);
    ("jump", 2); ("header", 4); ("version", 2); ("realmode_swtch", 4);
    ("start_sys_seg", 2); ("kernel_version", 2); ("type_of_loader", 1);
    ("loadflags", 1); ("setup_move_size", 2); ("code32_start", 4);
    ("ramdisk_image", 4); ("ramdisk_size", 4); ("bootsect_kludge", 4);
    ("heap_end_ptr", 2); ("ext_loader_ver", 1); ("ext_loader_type", 1);
    ("cmd_line_ptr", 4); ("initrd_addr_max", 4); ("kernel_alignment", 4);
    ("relocatable_kernel", 1); ("min_alignment", 1); ("xloadflags", 2);
    ("cmdline_size", 4); ("hardware_subarch", 4);
    ("hardware_subarch_data", 8); ("payload_offset", 4);
    ("payload_length", 4); ("setup_data", 8); ("pref_address", 8);
    ("init_size", 4); ("handover_offset", 4) ]%Z.

Definition LinuxBootParams : layout :=
  [ ("screen_info", 64);
    ("_pad1", 0x1C0 - 64);
    ("e820_entries", 1);
    ("_pad2", 0x1F1 - 0x1E9);
    ("hdr", sizeof LinuxSetupHeader);
    ("_pad3", 4096 - 0x1F1 - sizeof LinuxSetupHeader) ]%Z.

Definition E820Entry : layout := [ ("addr", 8); ("size", 8); ("type", 4) ]%Z.

(** The condition of the header's [_Static_assert]. *)
Definition static_assert_boot_params : bool :=
  (sizeof LinuxBootParams =? 4096)%Z.

Definition LINUX_BOOT_HDR_MAGIC : Z := 0x53726448.
Definition LINUX_CAN_USE_HEAP   : Z := 0x80.
Definition SUPERBOOT_LOADER_ID  : Z := 0xFF.

(** The offsets the boot protocol (and the member comments of the header)
    give: count at 0x1E8, setup header at 0x1F1, E820 table at 0x2D0. *)
Definition PROTO_E820_ENTRIES : Z := 0x1E8.
Definition PROTO_SETUP_HEADER : Z := 0x1F1.
Definition PROTO_E820_TABLE   : Z := 0x2D0.

(** [hdr->f] with [hdr = kernel_buf + 0x1F1]: a member of the setup header
    read from the kernel image. *)
Definition hdr_field (kernel : memory) (f : string) : Z :=
  member LinuxSetupHeader kernel 0x1F1 f.

(** [bp->hdr.f]: where the member lies in the zero page. *)
Definition bp_hdr (f : string) : Z :=
  (offsetof "hdr" LinuxBootParams + offsetof f LinuxSetupHeader)%Z.

(** The byte image of an array of E820Entry (packed, 20 bytes each). *)
Definition e820_bytes (e820 : Z -> E820.E820Entry) : memory :=
  fun j =>
    let e := e820 (j / 20) in
    let r := j mod 20 in
    if r <? 8 then byte_of (E820.addr e) r
    else if r <? 16 then byte_of (E820.size e) (r - 8)
    else byte_of (E820.type e) (r - 16).

(** The preparation of the zero page that both hand-off paths share:
    AllocateZeroPool, CopyMem of the setup header, loader identity. *)
Definition bp_init (kernel : memory) : memory :=
  let bp := (fun _ => 0) : memory in
  let bp := CopyMem bp (offsetof "hdr" LinuxBootParams)
                    kernel 0x1F1 (sizeof LinuxSetupHeader) in
  let bp := store_le 1 bp (bp_hdr "type_of_loader") SUPERBOOT_LOADER_ID in
  let bp := store_le 1 bp (bp_hdr "loadflags")
                     (Z.lor (load8 bp (bp_hdr "loadflags")) LINUX_CAN_USE_HEAP) in
  store_le 2 bp (bp_hdr "heap_end_ptr") 0xFE00.

(** The command-line pointer (kept when AllocatePool returned NULL) and
    the initrd fields. *)
Definition bp_cmdline_initrd (bp : memory) (cmdline : option Z)
    (initrd_addr initrd_size : Z) : memory :=
  let bp := match cmdline with
            | Some ptr => store_le 4 bp (bp_hdr "cmd_line_ptr") (wrap32 ptr)
            | None => bp
            end in
  let bp := store_le 4 bp (bp_hdr "ramdisk_image") (wrap32 initrd_addr) in
  store_le 4 bp (bp_hdr "ramdisk_size") (wrap32 initrd_size).

End Loader.

(* ===================================================================== *)
(** * boot/linux.c: the two hand-off paths                                 *)
(* ===================================================================== *)

Module Linux.

Import Loader.
Local Open Scope string_scope.
Local Open Scope list_scope.
Local Open Scope Z_scope.

Inductive EFI_ALLOCATE_TYPE :=
  AllocateAnyPages | AllocateMaxAddress | AllocateAddress.

(** What GetMemoryMap leaves in its out-parameters and in the buffer. *)
Record memmap_reply := mkReply {
  gm_status    : EFI_STATUS;
  gm_size      : Z;                                   (* *MemoryMapSize  *)
  gm_key       : Z;                                   (* *MapKey         *)
  gm_desc_size : Z;                                   (* *DescriptorSize *)
  gm_descs     : Z -> E820.EFI_MEMORY_DESCRIPTOR      (* buffer contents *)
}.

(** The loader's dealings with the firmware, and the jump that ends them. *)
Inductive event :=
| EvAllocateZeroPool (size : Z) (ret : option Z)
| EvAllocatePool (size : Z) (ret : option Z)
| EvAllocatePages (ty : EFI_ALLOCATE_TYPE) (pages addr : Z)
                  (status : EFI_STATUS) (addr' : Z)
| EvGetMemoryMap (size : Z) (buf : option Z) (reply : memmap_reply)
| EvExitBootServices (map_key : Z) (status : EFI_STATUS)
| EvHandover (entry : Z) (bp : memory)
| EvEntry64 (entry : Z) (bp : memory).

(** Boot services: each answer may depend on everything that happened
    before (the trace so far) and on the arguments. *)
Record Firmware := {
  fw_AllocateZeroPool : list event -> Z -> option Z;
  fw_AllocatePool     : list event -> Z -> option Z;
  fw_AllocatePages    : list event -> EFI_ALLOCATE_TYPE -> Z -> Z -> EFI_STATUS * Z;
  fw_GetMemoryMap     : list event -> Z -> option Z -> memmap_reply;
  fw_ExitBootServices : list event -> Z -> EFI_STATUS
}.

(** Computations that extend the trace. *)
Definition M (A : Type) : Type := list event -> list event * A.
Definition ret {A} (a : A) : M A := fun t => (t, a).
Definition bind {A B} (c : M A) (k : A -> M B) : M B :=
  fun t => let '(t', a) := c t in k a t'.
Definition emit (e : event) : M unit := fun t => (t ++ [e], tt).

Notation "x <- c ;; k" := (bind c (fun x => k))
  (at level 100, c at next level, right associativity).
Notation "c ;;; k" := (bind c (fun _ => k))
  (at level 100, right associativity).

Section Services.
Variable fw : Firmware.

Definition AllocateZeroPool (size : Z) : M (option Z) :=
  fun t => let r := fw_AllocateZeroPool fw t size in
           (t ++ [EvAllocateZeroPool size r], r).
Definition AllocatePool (size : Z) : M (option Z) :=
  fun t => let r := fw_AllocatePool fw t size in
           (t ++ [EvAllocatePool size r], r).
Definition AllocatePages (ty : EFI_ALLOCATE_TYPE) (pages addr : Z)
    : M (EFI_STATUS * Z) :=
  fun t => let r := fw_AllocatePages fw t ty pages addr in
           (t ++ [EvAllocatePages ty pages addr (fst r) (snd r)], r).
Definition GetMemoryMap (size : Z) (buf : option Z) : M memmap_reply :=
  fun t => let r := fw_GetMemoryMap fw t size buf in
           (t ++ [EvGetMemoryMap size buf r], r).
Definition ExitBootServices (map_key : Z) : M EFI_STATUS :=
  fun t => let r := fw_ExitBootServices fw t map_key in
           (t ++ [EvExitBootServices map_key r], r).

(** [if (setup_sects == 0) setup_sects = 4; setup_size = (setup_sects + 1) * 512] *)
Definition setup_size_of (kernel : memory) : Z :=
  let setup_sects := hdr_field kernel "setup_sects" in
  let setup_sects := if setup_sects =? 0 then 4 else setup_sects in
  wrap64 ((setup_sects + 1) * 512).

(** boot_efi_handover.  The value is what the function returns; the call
    through the handover pointer is the event [EvHandover], and the
    status after it is the one returned should the kernel come back.
    (The SB_LOG line before the call only prints.) *)
Definition boot_efi_handover (kernel : memory) (kernel_buf kernel_size : Z)
    (cmdline : Util.cstring) (initrd_addr initrd_size : Z) : M EFI_STATUS :=
  if hdr_field kernel "handover_offset" =? 0 then ret EFI_UNSUPPORTED
  else
    let setup_size := setup_size_of kernel in
    bp_ptr <- AllocateZeroPool (sizeof LinuxBootParams) ;;
    match bp_ptr with
    | None => ret EFI_OUT_OF_RESOURCES
    | Some _ =>
        let bp := bp_init kernel in
        let cmdline_len := Util.sb_strlen8 cmdline in
        cl <- AllocatePool (wrap64 (cmdline_len + 1)) ;;
        let bp := bp_cmdline_initrd bp cl initrd_addr initrd_size in
        let kernel_base := wrap64 (kernel_buf + setup_size) in
        let handover :=
          wrap64 (kernel_base + hdr_field kernel "handover_offset" + 512) in
        emit (EvHandover handover bp) ;;;
        ret EFI_LOAD_ERROR
    end.

(** The retry block after a failed ExitBootServices. *)
Definition exit_retry (mmap : Z) : M EFI_STATUS :=
  r3 <- GetMemoryMap 0 None ;;
  let mmap_size := wrap64 (gm_size r3 + gm_desc_size r3 * 4) in
  r4 <- GetMemoryMap mmap_size (Some mmap) ;;
  if negb (EFI_ERROR (gm_status r4))
  then ExitBootServices (gm_key r4)
  else ret (gm_status r4).

(** From the first GetMemoryMap to the jump.  [None]: the E820
    conversion does not come back (a zero descriptor size). *)
Definition exit_and_jump (bp : memory) (kernel_addr : Z)
    (e820_stack : Z -> E820.E820Entry) : M (option EFI_STATUS) :=
  r1 <- GetMemoryMap 0 None ;;
  let mmap_size := wrap64 (gm_size r1 + gm_desc_size r1 * 4) in
  mmap <- AllocatePool mmap_size ;;
  match mmap with
  | None => ret (Some EFI_OUT_OF_RESOURCES)
  | Some mmap =>
      r2 <- GetMemoryMap mmap_size (Some mmap) ;;
      if EFI_ERROR (gm_status r2) then ret (Some (gm_status r2))
      else
        match E820.sb_efi_memmap_to_e820 (gm_descs r2) (gm_size r2)
                (gm_desc_size r2) e820_stack 128 with
        | None => ret None
        | Some (e820_count, e820) =>
            let bp := store_le 1 bp (offsetof "e820_entries" LinuxBootParams)
                               (wrap8 e820_count) in
            let bp := CopyMem bp 0x2D0 (e820_bytes e820) 0
                              (wrap64 (e820_count * sizeof E820Entry)) in
            status <- ExitBootServices (gm_key r2) ;;
            status <- (if EFI_ERROR status then exit_retry mmap
                       else ret status) ;;
            if EFI_ERROR status then ret (Some status)
            else
              emit (EvEntry64 kernel_addr bp) ;;;
              ret (Some EFI_LOAD_ERROR)
        end
  end.

(** boot_legacy_bzimage, from the check of the page allocation on:
    [r] is the status and the address the allocation left. *)
Definition legacy_load_and_exit (kernel : memory) (cmdline : Util.cstring)
    (initrd_addr initrd_size : Z) (e820_stack : Z -> E820.E820Entry)
    (bp : memory) (r : EFI_STATUS * Z) : M (option EFI_STATUS) :=
  if EFI_ERROR (fst r) then ret (Some (fst r))
  else
    let kernel_addr := snd r in
    let bp := store_le 4 bp (bp_hdr "code32_start") (wrap32 kernel_addr) in
    let cmdline_len := Util.sb_strlen8 cmdline in
    cl <- AllocatePool (wrap64 (cmdline_len + 1)) ;;
    let bp := bp_cmdline_initrd bp cl initrd_addr initrd_size in
    exit_and_jump bp kernel_addr e820_stack.

(** boot_legacy_bzimage. *)
Definition boot_legacy_bzimage (kernel : memory) (kernel_buf kernel_size : Z)
    (cmdline : Util.cstring) (initrd_addr initrd_size : Z)
    (e820_stack : Z -> E820.E820Entry) : M (option EFI_STATUS) :=
  let setup_size := setup_size_of kernel in
  let kernel_raw_size := wrap64 (kernel_size - setup_size) in
  bp_ptr <- AllocateZeroPool (sizeof LinuxBootParams) ;;
  match bp_ptr with
  | None => ret (Some EFI_OUT_OF_RESOURCES)
  | Some _ =>
      let bp := bp_init kernel in
      let kernel_addr := hdr_field kernel "pref_address" in
      let kernel_addr := if kernel_addr =? 0 then 0x100000 else kernel_addr in
      let kernel_pages := wrap64 (kernel_raw_size + 4095) / 4096 in
      r <- AllocatePages AllocateAddress kernel_pages kernel_addr ;;
      r <- (if EFI_ERROR (fst r) then
              if negb (hdr_field kernel "relocatable_kernel" =? 0)
              then AllocatePages AllocateAnyPages kernel_pages (snd r)
              else ret r
            else ret r) ;;
      legacy_load_and_exit kernel cmdline initrd_addr initrd_size
                           e820_stack bp r
  end.

End Services.

(** The setup size as the specification gives it. *)
Definition setup_size_spec (setup_sects : Z) : Z :=
  (Z.max setup_sects 4 + 1) * 512.

(** The entry of the last jump recorded in a trace. *)
Definition jump_entry (t : list event) : option Z :=
  match last t with
  | Some (EvHandover entry _) => Some entry
  | Some (EvEntry64 entry _) => Some entry
  | _ => None
  end.

(** The zero page handed over by the last jump of a trace. *)
Definition jump_bp (t : list event) : option memory :=
  match last t with
  | Some (EvHandover _ bp) => Some bp
  | Some (EvEntry64 _ bp) => Some bp
  | _ => None
  end.

(** ** Sample inputs *)

(** A firmware on which every service succeeds at once; its memory map is
    that of scenario 6. *)
Definition fw_ok : Firmware := {|
  fw_AllocateZeroPool := fun _ _ => Some 0x7F000000;
  fw_AllocatePool     := fun t _ => Some (0x7E000000 + 0x10000 * Z.of_nat (length t));
  fw_AllocatePages    := fun _ _ _ addr => (EFI_SUCCESS, addr);
  fw_GetMemoryMap     := fun _ _ buf =>
    match buf with
    | None   => mkReply EFI_BUFFER_TOO_SMALL 120 0 40 E820.scenario6_map
    | Some _ => mkReply EFI_SUCCESS 120 7 40 E820.scenario6_map
    end;
  fw_ExitBootServices := fun _ _ => EFI_SUCCESS
|}.

(** A kernel image header: [setup_sects] sectors, protocol 2.12, the
    given handover offset, preferred address 16 MiB. *)
Definition sample_kernel (setup_sects handover_offset : Z) : memory :=
  let k := (fun _ => 0) : memory in
  let k := store_le 1 k 0x1F1 setup_sects in
  let k := store_le 4 k 0x202 LINUX_BOOT_HDR_MAGIC in
  let k := store_le 2 k 0x206 0x020C in
  let k := store_le 1 k 0x211 0x01 in
  let k := store_le 8 k 0x258 0x1000000 in
  store_le 4 k 0x264 handover_offset.

(** The number of ExitBootServices calls in a trace. *)
Fixpoint exit_calls (t : list event) : nat :=
  match t with
  | [] => O
  | EvExitBootServices _ _ :: t' => S (exit_calls t')
  | _ :: t' => exit_calls t'
  end.

(** Whether an event is a memory allocation. *)
Definition is_allocation (e : event) : bool :=
  match e with
  | EvAllocateZeroPool _ _ | EvAllocatePool _ _ | EvAllocatePages _ _ _ _ _ => true
  | _ => false
  end.

(** The statuses of the ExitBootServices calls of a trace, in order. *)
Fixpoint exit_statuses (t : list event) : list EFI_STATUS :=
  match t with
  | [] => []
  | EvExitBootServices _ st :: t' => st :: exit_statuses t'
  | _ :: t' => exit_statuses t'
  end.

(** The events that follow the first ExitBootServices call. *)
Fixpoint after_first_exit (t : list event) : list event :=
  match t with
  | [] => []
  | EvExitBootServices _ _ :: t' => t'
  | _ :: t' => after_first_exit t'
  end.

(** What a run of the legacy path that reaches ExitBootServices looks
    like: the map buffer [m] is allocated and filled, ExitBootServices is
    called with the key of that map; on success the kernel is entered; on
    failure the size is queried, the map is fetched again into [m], and
    only if that fetch succeeds ExitBootServices is called once more. *)
Definition exit_discipline (kernel_addr : Z) (new : list event)
    (r : option EFI_STATUS) : Prop :=
  exists pre sz0 m r2 st post,
    new = pre ++ [EvAllocatePool sz0 (Some m); EvGetMemoryMap sz0 (Some m) r2;
                  EvExitBootServices (gm_key r2) st] ++ post
    /\ exit_calls pre = O
    /\ ((EFI_ERROR st = false
         /\ exists bp, post = [EvEntry64 kernel_addr bp]
                       /\ r = Some EFI_LOAD_ERROR)
        \/ (EFI_ERROR st = true
            /\ exists r3 sz r4 rest,
                 post = EvGetMemoryMap 0 None r3
                        :: EvGetMemoryMap sz (Some m) r4 :: rest
                 /\ ((EFI_ERROR (gm_status r4) = true
                      /\ rest = [] /\ r = Some (gm_status r4))
                     \/ (EFI_ERROR (gm_status r4) = false
                         /\ exists st2 rest2,
                              rest = EvExitBootServices (gm_key r4) st2 :: rest2
                              /\ ((EFI_ERROR st2 = true
                                   /\ rest2 = [] /\ r = Some st2)
                                  \/ (EFI_ERROR st2 = false
                                      /\ exists bp,
                                           rest2 = [EvEntry64 kernel_addr bp]
                                           /\ r = Some EFI_LOAD_ERROR)))))).

(** A firmware whose ExitBootServices always reports a stale key and whose
    memory map, once ExitBootServices has been called, has grown between
    the size query and the fetch, so that the fetch no longer fits. *)
Definition fw_stale : Firmware := {|
  fw_AllocateZeroPool := fun _ _ => Some 0x7F000000;
  fw_AllocatePool     := fun t _ => Some (0x7E000000 + 0x10000 * Z.of_nat (length t));
  fw_AllocatePages    := fun _ _ _ addr => (EFI_SUCCESS, addr);
  fw_GetMemoryMap     := fun t _ buf =>
    match buf, exit_calls t with
    | None, _     => mkReply EFI_BUFFER_TOO_SMALL 120 0 40 E820.scenario6_map
    | Some _, O   => mkReply EFI_SUCCESS 120 7 40 E820.scenario6_map
    | Some _, S _ => mkReply EFI_BUFFER_TOO_SMALL 400 0 40 E820.scenario6_map
    end;
  fw_ExitBootServices := fun _ _ => EFI_INVALID_PARAMETER
|}.

(** The same, but the second fetch succeeds. *)
Definition fw_stale_once : Firmware := {|
  fw_AllocateZeroPool := fun _ _ => Some 0x7F000000;
  fw_AllocatePool     := fun t _ => Some (0x7E000000 + 0x10000 * Z.of_nat (length t));
  fw_AllocatePages    := fun _ _ _ addr => (EFI_SUCCESS, addr);
  fw_GetMemoryMap     := fun t _ buf =>
    match buf with
    | Some _ => mkReply EFI_SUCCESS 120 (7 + Z.of_nat (exit_calls t)) 40
                        E820.scenario6_map
    | None   => mkReply EFI_BUFFER_TOO_SMALL 120 0 40 E820.scenario6_map
    end;
  fw_ExitBootServices := fun t _ =>
    match exit_calls t with O => EFI_INVALID_PARAMETER | _ => EFI_SUCCESS end
|}.

End Linux.

(* ===================================================================== *)
(** * fs/ext4.c: the read-only extent-tree driver                          *)
(* ===================================================================== *)

Module Ext4.

Local Open Scope string_scope.
Local Open Scope list_scope.
Local Open Scope Z_scope.

Definition EXT4_SUPER_MAGIC       : Z := 0xEF53.
Definition EXT4_SUPERBLOCK_OFFSET : Z := 1024.
Definition EXT4_ROOT_INO          : Z := 2.
Definition EXT4_EXTENTS_FL        : Z := 0x00080000.
Definition SB_MAX_PATH            : Z := 512.

Definition Ext4Superblock : layout :=
  [ ("s_inodes_count", 4); ("s_blocks_count_lo", 4); ("s_r_blocks_count_lo", 4);
    ("s_free_blocks_count_lo", 4); ("s_free_inodes_count", 4);
    ("s_first_data_block", 4); ("s_log_block_size", 4);
    ("s_log_cluster_size", 4); ("s_blocks_per_group", 4);
    ("s_clusters_per_group", 4); ("s_inodes_per_group", 4); ("s_mtime", 4);
    ("s_wtime", 4); ("s_mnt_count", 2); ("s_max_mnt_count", 2);
    ("s_magic", 2); ("s_state", 2); ("s_errors", 2); ("s_minor_rev_level", 2);
    ("s_lastcheck", 4); ("s_checkinterval", 4); ("s_creator_os", 4);
    ("s_rev_level", 4); ("s_def_resuid", 2); ("s_def_resgid", 2);
    ("s_first_ino", 4); ("s_inode_size", 2); ("s_block_group_nr", 2);
    ("s_feature_compat", 4); ("s_feature_incompat", 4);
    ("s_feature_ro_compat", 4); ("s_uuid", 16); ("s_volume_name", 16);
    ("s_last_mounted", 64); ("s_algorithm_usage_bitmap", 4) ].

Definition Ext4GroupDesc : layout :=
  [ ("bg_block_bitmap_lo", 4); ("bg_inode_bitmap_lo", 4);
    ("bg_inode_table_lo", 4); ("bg_free_blocks_count_lo", 2);
    ("bg_free_inodes_count_lo", 2); ("bg_used_dirs_count_lo", 2);
    ("bg_flags", 2); ("bg_exclude_bitmap_lo", 4);
    ("bg_block_bitmap_csum_lo", 2); ("bg_inode_bitmap_csum_lo", 2);
    ("bg_itable_unused_lo", 2); ("bg_checksum", 2) ].

Definition Ext4Inode : layout :=
  [ ("i_mode", 2); ("i_uid", 2); ("i_size_lo", 4); ("i_atime", 4);
    ("i_ctime", 4); ("i_mtime", 4); ("i_dtime", 4); ("i_gid", 2);
    ("i_links_count", 2); ("i_blocks_lo", 4); ("i_flags", 4); ("i_osd1", 4);
    ("i_block", 60); ("i_generation", 4); ("i_file_acl_lo", 4);
    ("i_size_high", 4); ("i_obso_faddr", 4); ("i_osd2", 12);
    ("i_extra_isize", 2); ("i_checksum_hi", 2); ("i_ctime_extra", 4);
    ("i_mtime_extra", 4); ("i_atime_extra", 4); ("i_crtime", 4);
    ("i_crtime_extra", 4); ("i_version_hi", 4); ("i_projid", 4) ].

Definition Ext4ExtentHeader : layout :=
  [ ("eh_magic", 2); ("eh_entries", 2); ("eh_max", 2); ("eh_depth", 2);
    ("eh_generation", 4) ].

Definition Ext4Extent : layout :=
  [ ("ee_block", 4); ("ee_len", 2); ("ee_start_hi", 2); ("ee_start_lo", 4) ].

(** The flexible member [name] adds nothing to the size. *)
Definition Ext4DirEntry2 : layout :=
  [ ("inode", 4); ("rec_len", 2); ("name_len", 1); ("file_type", 1);
    ("name", 0) ].

(** The two firmware protocols a partition may offer.  A read answers with
    a status and, when it succeeds, the data it stores in the buffer. *)
Record EFI_BLOCK_IO_PROTOCOL := mkBlockIo {
  BlockSize  : Z;                                    (* Media->BlockSize *)
  ReadBlocks : Z -> Z -> EFI_STATUS * memory         (* lba, size *)
}.

Record EFI_DISK_IO_PROTOCOL := mkDiskIo {
  ReadDisk : Z -> Z -> EFI_STATUS * memory           (* offset, size *)
}.

(** The pool: whether a request of a given size is granted, and what an
    uninitialised buffer or local variable holds. *)
Record Pool := mkPool {
  pool_ok : Z -> bool;
  uninit  : memory
}.

(** The buffer at [buf + at_] after a read of [size] bytes answered [r]:
    untouched when the read failed. *)
Definition deliver (buf : memory) (at_ size : Z) (r : EFI_STATUS * memory)
    : memory :=
  if EFI_ERROR (fst r) then buf
  else fun j => if (at_ <=? j) && (j <? at_ + size)
                then wrap8 (snd r (j - at_)) else buf j.

Record Ext4Context := mkCtx {
  block_io        : EFI_BLOCK_IO_PROTOCOL;
  disk_io         : option EFI_DISK_IO_PROTOCOL;
  sb              : memory;            (* Ext4Superblock *)
  block_size      : Z;                 (* UINT32 *)
  inode_size      : Z;                 (* UINT32 *)
  group_desc_size : Z                  (* UINT32 *)
}.

(** sizeof(Ext4Context): two pointers, the superblock, three UINT32. *)
Definition sizeof_Ext4Context : Z := 8 + 8 + sizeof Ext4Superblock + 4 + 4 + 4.

Section Driver.
Variable pool : Pool.

(** ext4_read_block into [buf + dst]. *)
Definition ext4_read_block (c : Ext4Context) (block : Z) (buf : memory)
    (dst : Z) : EFI_STATUS * memory :=
  let offset := wrap64 (block * block_size c) in
  match disk_io c with
  | Some d =>
      let r := ReadDisk d offset (block_size c) in
      (fst r, deliver buf dst (block_size c) r)
  | None =>
      let lba := offset / BlockSize (block_io c) in
      let r := ReadBlocks (block_io c) lba (block_size c) in
      (fst r, deliver buf dst (block_size c) r)
  end.

(** ext4_read_bytes into [buf]. *)
Definition ext4_read_bytes (c : Ext4Context) (offset size : Z) (buf : memory)
    : EFI_STATUS * memory :=
  match disk_io c with
  | Some d =>
      let r := ReadDisk d offset size in
      (fst r, deliver buf 0 size r)
  | None =>
      let bs := BlockSize (block_io c) in
      let start_lba := offset / bs in
      let end_lba := wrap64 (offset + size + bs - 1) / bs in
      let total := wrap64 (wrap64 (end_lba - start_lba) * bs) in
      if negb (pool_ok pool total) then (EFI_OUT_OF_RESOURCES, buf)
      else
        let r := ReadBlocks (block_io c) start_lba total in
        let tmp := deliver (uninit pool) 0 total r in
        (fst r,
         if EFI_ERROR (fst r) then buf
         else CopyMem buf 0 tmp (offset mod bs) size)
  end.

(** ext4_read_inode into the record [inode]: the status and the record.
    The function divides by [s_inodes_per_group] before anything else; a
    zero there is a division by zero, on which the processor traps and
    nothing is returned: [None]. *)
Definition ext4_read_inode (c : Ext4Context) (ino : Z) (inode : memory)
    : option (EFI_STATUS * memory) :=
  let ipg := member Ext4Superblock (sb c) 0 "s_inodes_per_group" in
  if ipg =? 0 then None
  else
    let group := wrap32 (ino - 1) / ipg in
    let index := wrap32 (ino - 1) mod ipg in
    let gd_offset :=
      wrap64 (wrap32 (member Ext4Superblock (sb c) 0 "s_first_data_block" + 1)
              * block_size c
              + group * group_desc_size c) in
    let '(s, gd) := ext4_read_bytes c gd_offset (sizeof Ext4GroupDesc)
                                    (uninit pool) in
    if EFI_ERROR s then Some (s, inode)
    else
      let inode_offset :=
        wrap64 (member Ext4GroupDesc gd 0 "bg_inode_table_lo" * block_size c
                + index * inode_size c) in
      Some (ext4_read_bytes c inode_offset (sizeof Ext4Inode) inode).

(** The inner [for] of ext4_read_file_data: [n] more blocks of the
    extent, [b] the next one.  The state is (dst, remaining, buffer);
    [Some s] is the early [return s]. *)
Fixpoint extent_blocks (n : nat) (c : Ext4Context) (phys_block b : Z)
    (st : Z * Z * memory) : option EFI_STATUS * (Z * Z * memory) :=
  match n with
  | O => (None, st)
  | S n' =>
      let '(dst, remaining, buf) := st in
      if 0 <? remaining then
        let to_read := if remaining <? block_size c
                       then remaining else block_size c in
        let '(s, buf') := ext4_read_block c (wrap64 (phys_block + b)) buf dst in
        if EFI_ERROR s then (Some s, (dst, remaining, buf'))
        else extent_blocks n' c phys_block (b + 1)
               (dst + to_read, remaining - to_read, buf')
      else (None, st)
  end.

(** The outer [for]: [n] more extents, [i] the next one.  [ext[i]] lies
    at [i_block + sizeof(header) + i * sizeof(extent)] of the inode. *)
Fixpoint extents (n : nat) (c : Ext4Context) (inode : memory) (i : Z)
    (st : Z * Z * memory) : option EFI_STATUS * (Z * Z * memory) :=
  match n with
  | O => (None, st)
  | S n' =>
      let '(dst, remaining, buf) := st in
      if 0 <? remaining then
        let ext := offsetof "i_block" Ext4Inode + sizeof Ext4ExtentHeader
                   + i * sizeof Ext4Extent in
        let phys_block :=
          Z.lor (Z.shiftl (member Ext4Extent inode ext "ee_start_hi") 32)
                (member Ext4Extent inode ext "ee_start_lo") in
        let len_blocks := member Ext4Extent inode ext "ee_len" in
        let len_blocks := if 32768 <? len_blocks
                          then len_blocks - 32768 else len_blocks in
        match extent_blocks (Z.to_nat len_blocks) c phys_block 0 st with
        | (Some s, st') => (Some s, st')
        | (None, st') => extents n' c inode (i + 1) st'
        end
      else (None, st)
  end.

(** ext4_read_file_data: the status and the buffer afterwards. *)
Definition ext4_read_file_data (c : Ext4Context) (inode : memory)
    (buf : memory) (file_size : Z) : EFI_STATUS * memory :=
  if Z.land (member Ext4Inode inode 0 "i_flags") EXT4_EXTENTS_FL =? 0
  then (EFI_UNSUPPORTED, buf)
  else
    let eh := offsetof "i_block" Ext4Inode in
    if negb (member Ext4ExtentHeader inode eh "eh_magic" =? 0xF30A)
    then (EFI_VOLUME_CORRUPTED, buf)
    else if negb (member Ext4ExtentHeader inode eh "eh_depth" =? 0)
    then (EFI_UNSUPPORTED, buf)
    else
      match extents (Z.to_nat (member Ext4ExtentHeader inode eh "eh_entries"))
                    c inode 0 (0, file_size, buf) with
      | (Some s, (_, _, buf')) => (s, buf')
      | (None, (_, _, buf')) => (EFI_SUCCESS, buf')
      end.

(** The three ways one pass of the directory walk can go. *)
Inductive walk_step :=
| WalkStop                 (* rec_len == 0: break, result stays 0 *)
| WalkFound (inode : Z)    (* the name matches: result = inode, break *)
| WalkNext (p' : Z).       (* p += rec_len *)

(** The body of the [while] of ext4_dir_lookup at cursor [p]. *)
Definition dir_entry_step (dir_data : memory) (name : Util.cstring)
    (name_len : Z) (p : Z) : walk_step :=
  let rec_len := member Ext4DirEntry2 dir_data p "rec_len" in
  if rec_len =? 0 then WalkStop
  else if negb (member Ext4DirEntry2 dir_data p "inode" =? 0)
          && (member Ext4DirEntry2 dir_data p "name_len" =? name_len)
          && (Util.sb_strncmp8
                (fun i => wrap8 (dir_data (p + offsetof "name" Ext4DirEntry2 + i)))
                (Util.at_ name) name_len =? 0)
  then WalkFound (member Ext4DirEntry2 dir_data p "inode")
  else WalkNext (p + rec_len).

(** [while (p + 8 < end)], cursors as offsets from [dir_data];
    [None] when [fuel] passes do not finish the walk. *)
Fixpoint dir_walk (fuel : nat) (dir_data : memory) (dir_size : Z)
    (name : Util.cstring) (name_len : Z) (p : Z) : option Z :=
  if p + 8 <? dir_size then
    match fuel with
    | O => None
    | S fuel' =>
        match dir_entry_step dir_data name name_len p with
        | WalkStop => Some 0
        | WalkFound inode => Some inode
        | WalkNext p' => dir_walk fuel' dir_data dir_size name name_len p'
        end
    end
  else Some 0.

(** The cursors at which the walk reads a record, in order (a ghost of
    [dir_walk]: same loop, same tests). *)
Fixpoint dir_walk_cursors (fuel : nat) (dir_data : memory) (dir_size : Z)
    (name : Util.cstring) (name_len : Z) (p : Z) : list Z :=
  if p + 8 <? dir_size then
    match fuel with
    | O => []
    | S fuel' =>
        p :: match dir_entry_step dir_data name name_len p with
             | WalkNext p' =>
                 dir_walk_cursors fuel' dir_data dir_size name name_len p'
             | _ => []
             end
    end
  else [].

(** ext4_dir_lookup: the inode number found, 0 when there is none. *)
Definition ext4_dir_lookup (c : Ext4Context) (dir_inode : memory)
    (name : Util.cstring) : option Z :=
  let dir_size :=
    Z.lor (Z.shiftl (member Ext4Inode dir_inode 0 "i_size_high") 32)
          (member Ext4Inode dir_inode 0 "i_size_lo") in
  if negb (pool_ok pool dir_size) then Some 0
  else
    let '(s, dir_data) :=
      ext4_read_file_data c dir_inode (uninit pool) dir_size in
    if EFI_ERROR s then Some 0
    else
      let name_len := Util.sb_strlen8 name in
      dir_walk (Z.to_nat dir_size) dir_data dir_size name name_len 0.

(** The inner [while] of ext4_resolve_path: the component copied from
    [p], the pointer after it, and the final [ci]. *)
Fixpoint take_component (p : Util.cstring) (ci : Z)
    : Util.cstring * Util.cstring * Z :=
  match p with
  | [] => ([], [], ci)
  | ch :: p' =>
      if negb (ch =? 0) && negb (ch =? 47) && (ci + 1 <? 256) then
        let '(component, rest, ci') := take_component p' (ci + 1) in
        (ch :: component, rest, ci')
      else ([], p, ci)
  end.

(** [if ( *p == '/') p++] *)
Definition skip_slash (p : Util.cstring) : Util.cstring :=
  match p with
  | ch :: p' => if ch =? 47 then p' else p
  | [] => []
  end.

(** The outer [while ( *p)] of ext4_resolve_path.  [None]: the loop
    does not return (an inode read that traps). *)
Fixpoint resolve_loop (fuel : nat) (c : Ext4Context) (p : Util.cstring)
    (ino : Z) : option Z :=
  if Util.deref p =? 0 then Some ino
  else
    match fuel with
    | O => None
    | S fuel' =>
        let '(component, p1, ci) := take_component p 0 in
        let p2 := skip_slash p1 in
        if ci =? 0 then resolve_loop fuel' c p2 ino
        else
          match ext4_read_inode c ino (uninit pool) with
          | None => None
          | Some (s, dir) =>
              if EFI_ERROR s then Some 0
              else
                match ext4_dir_lookup c dir component with
                | None => None
                | Some ino' =>
                    if ino' =? 0 then Some 0
                    else resolve_loop fuel' c p2 ino'
                end
          end
    end.

(** ext4_resolve_path on a wide path. *)
Definition ext4_resolve_path (c : Ext4Context) (path : list Z) : option Z :=
  let apath := Util.sb_str16to8 path SB_MAX_PATH in
  let apath := map (fun ch => if ch =? 92 then 47 else ch) apath in
  let p := skip_slash apath in
  resolve_loop (length p) c p EXT4_ROOT_INO.

(** The components that the loop of ext4_resolve_path cuts out of a
    narrow path: the pieces between separators, none of them empty (and
    none longer than the 255 characters of the local buffer). *)
Fixpoint components (fuel : nat) (p : Util.cstring) : list Util.cstring :=
  match fuel with
  | O => []
  | S fuel' =>
      if Util.deref p =? 0 then []
      else
        let '(component, p1, ci) := take_component p 0 in
        let p2 := skip_slash p1 in
        if ci =? 0 then components fuel' p2
        else component :: components fuel' p2
  end.

Definition path_components (path : list Z) : list Util.cstring :=
  let apath := Util.sb_str16to8 path SB_MAX_PATH in
  let apath := map (fun ch => if ch =? 92 then 47 else ch) apath in
  let p := skip_slash apath in
  components (length p) p.

(** ** The splitting of a path as the specification words it

    "Translate wide path to narrow, normalize \ to /": the characters the
    resolver works on. *)
Definition narrow_path (path : list Z) : list Z :=
  map (fun ch => if ch =? 92 then 47 else ch)
      (Util.sb_str16to8 path SB_MAX_PATH).

(** "Split on /": the pieces between the separators, in order, the empty
    ones included. *)
Fixpoint split_on_slash (s : list Z) : list (list Z) :=
  match s with
  | [] => [[]]
  | ch :: s' =>
      if ch =? 47 then [] :: split_on_slash s'
      else
        match split_on_slash s' with
        | piece :: pieces => (ch :: piece) :: pieces
        | [] => [[ch]]
        end
  end.

(** "Empty components (doubled separators) are skipped." *)
Definition spec_components (s : list Z) : list (list Z) :=
  filter (fun piece : list Z => piece <> []) (split_on_slash s).

(** The walk over the components, one directory lookup each, from inode
    [ino]; any failure gives inode 0. *)
Fixpoint walk (c : Ext4Context) (comps : list Util.cstring) (ino : Z)
    : option Z :=
  match comps with
  | [] => Some ino
  | component :: rest =>
      match ext4_read_inode c ino (uninit pool) with
      | None => None
      | Some (s, dir) =>
          if EFI_ERROR s then Some 0
          else
            match ext4_dir_lookup c dir component with
            | None => None
            | Some ino' => if ino' =? 0 then Some 0 else walk c rest ino'
            end
      end
  end.

(** ext4_probe.  [sb] is the local superblock it fills. *)
Definition probe_superblock (bio : EFI_BLOCK_IO_PROTOCOL)
    (dio : option EFI_DISK_IO_PROTOCOL) : option (EFI_STATUS * memory) :=
  match dio with
  | Some d =>
      let r := ReadDisk d EXT4_SUPERBLOCK_OFFSET (sizeof Ext4Superblock) in
      Some (fst r, deliver (uninit pool) 0 (sizeof Ext4Superblock) r)
  | None =>
      let bs := BlockSize bio in
      let sz := if bs <? 2048 then 2048 else bs in
      if negb (pool_ok pool sz) then None
      else
        let r := ReadBlocks bio (EXT4_SUPERBLOCK_OFFSET / bs) sz in
        let tmp := deliver (uninit pool) 0 sz r in
        Some (fst r,
              if EFI_ERROR (fst r) then uninit pool
              else CopyMem (uninit pool) 0 tmp
                           (EXT4_SUPERBLOCK_OFFSET mod bs)
                           (sizeof Ext4Superblock))
  end.

Definition ext4_probe (bio : EFI_BLOCK_IO_PROTOCOL)
    (dio : option EFI_DISK_IO_PROTOCOL) : EFI_STATUS :=
  match probe_superblock bio dio with
  | None => EFI_OUT_OF_RESOURCES
  | Some (status, sb_) =>
      if EFI_ERROR status then status
      else if member Ext4Superblock sb_ 0 "s_magic" =? EXT4_SUPER_MAGIC
           then EFI_SUCCESS else EFI_NOT_FOUND
  end.

(** ext4_mount: the status and the context stored in [*fs_context]. *)
Definition ext4_mount (bio : EFI_BLOCK_IO_PROTOCOL)
    (dio : option EFI_DISK_IO_PROTOCOL) : EFI_STATUS * option Ext4Context :=
  if negb (pool_ok pool sizeof_Ext4Context) then (EFI_OUT_OF_RESOURCES, None)
  else
    (* AllocateZeroPool: every member starts as zero *)
    let sb0 := (fun _ => 0) : memory in
    let s := ext4_probe bio dio in
    if EFI_ERROR s then (s, None)
    else
      let sb1 := match dio with
                 | Some d =>
                     deliver sb0 0 (sizeof Ext4Superblock)
                       (ReadDisk d EXT4_SUPERBLOCK_OFFSET (sizeof Ext4Superblock))
                 | None => sb0
                 end in
      let block_size_ :=
        wrap32 (Z.shiftl 1024 (member Ext4Superblock sb1 0 "s_log_block_size")) in
      let inode_size_ :=
        if 1 <=? member Ext4Superblock sb1 0 "s_rev_level"
        then member Ext4Superblock sb1 0 "s_inode_size" else 128 in
      (EFI_SUCCESS, Some (mkCtx bio dio sb1 block_size_ inode_size_ 32)).

End Driver.

(** Two inode records that agree from [i_uid] on, that is, everywhere
    but in [i_mode]. *)
Definition same_but_mode (inode inode' : memory) : Prop :=
  forall j, offsetof "i_uid" Ext4Inode <= j -> inode j = inode' j.

Section File.
Variable pool : Pool.

(** ext4_read_file: the status and what [*buffer] and [*size] hold
    afterwards, [buffer0] and [size0] being what the caller had there.
    A buffer [None] stands for the NULL pointer; the whole result is
    [None] when the call does not return (an inode read that traps). *)
Definition ext4_read_file (c : Ext4Context) (path : list Z)
    (buffer0 : option memory) (size0 : Z)
    : option (EFI_STATUS * option memory * Z) :=
  match ext4_resolve_path pool c path with
  | None => None
  | Some ino =>
      if ino =? 0 then Some (EFI_NOT_FOUND, buffer0, size0)
      else
        match ext4_read_inode pool c ino (uninit pool) with
        | None => None
        | Some (s, inode) =>
            Some
              (if EFI_ERROR s then (s, buffer0, size0)
               else
                 let file_size :=
                   Z.lor (Z.shiftl (member Ext4Inode inode 0 "i_size_high") 32)
                         (member Ext4Inode inode 0 "i_size_lo") in
                 if negb (pool_ok pool (wrap64 (file_size + 1)))
                 then (EFI_OUT_OF_RESOURCES, None, file_size)
                 else
                   let '(s, buf) :=
                     ext4_read_file_data c inode (uninit pool) file_size in
                   if EFI_ERROR s then (s, None, file_size)
                   else (EFI_SUCCESS, Some (store_le 1 buf file_size 0),
                         file_size))
        end
  end.

(** ext4_dir_exists *)
Definition ext4_dir_exists (c : Ext4Context) (path : list Z)
    : option EFI_STATUS :=
  match ext4_resolve_path pool c path with
  | None => None
  | Some ino => Some (if negb (ino =? 0) then EFI_SUCCESS else EFI_NOT_FOUND)
  end.

End File.

(** A device holds the bytes [img] when whatever a read that succeeds
    returns is what [img] has at that place: Disk I/O reads from a byte
    offset, Block I/O from a block number. *)
Definition disk_shows (img : memory) (d : EFI_DISK_IO_PROTOCOL) : Prop :=
  forall offset size j,
    EFI_ERROR (fst (ReadDisk d offset size)) = false -> 0 <= j < size ->
    wrap8 (snd (ReadDisk d offset size) j) = wrap8 (img (offset + j)).

Definition blocks_show (img : memory) (bio : EFI_BLOCK_IO_PROTOCOL) : Prop :=
  forall lba size j,
    EFI_ERROR (fst (ReadBlocks bio lba size)) = false -> 0 <= j < size ->
    wrap8 (snd (ReadBlocks bio lba size) j)
    = wrap8 (img (lba * BlockSize bio + j)).

Definition shows (img : memory) (bio : EFI_BLOCK_IO_PROTOCOL)
    (dio : option EFI_DISK_IO_PROTOCOL) : Prop :=
  blocks_show img bio /\ forall d, dio = Some d -> disk_shows img d.

(** ** Sample devices *)

(** A partition backed by an image of [capacity] bytes: reads inside the
    image succeed, others fail. *)
Definition image_read (img : memory) (capacity : Z) (offset size : Z)
    : EFI_STATUS * memory :=
  if (0 <=? offset) && (0 <=? size) && (offset + size <=? capacity)
  then (EFI_SUCCESS, fun j => img (offset + j))
  else (EFI_INVALID_PARAMETER, fun _ => 0).

Definition image_block_io (img : memory) (capacity bs : Z)
    : EFI_BLOCK_IO_PROTOCOL :=
  mkBlockIo bs (fun lba size => image_read img capacity (lba * bs) size).

Definition image_disk_io (img : memory) (capacity : Z) : EFI_DISK_IO_PROTOCOL :=
  mkDiskIo (image_read img capacity).

(** A pool that grants every request; fresh memory holds 0xAA. *)
Definition sample_pool : Pool := mkPool (fun _ => true) (fun _ => 0xAA).

(** Store a member of a packed record into an image. *)
Definition put (l : layout) (base : Z) (name : string) (v : Z) (img : memory)
    : memory :=
  store_le (member_size name l) img (base + offsetof name l) v.

(** An image whose superblock announces 4096-byte blocks (log 2),
    revision 1 and 256-byte inodes. *)
Definition image_4k : memory :=
  put Ext4Superblock 1024 "s_inode_size" 256
    (put Ext4Superblock 1024 "s_rev_level" 1
       (put Ext4Superblock 1024 "s_magic" EXT4_SUPER_MAGIC
          (put Ext4Superblock 1024 "s_inodes_per_group" 8192
             (put Ext4Superblock 1024 "s_log_block_size" 2 (fun _ => 0))))).

(** Store a string, one byte per character. *)
Fixpoint put_bytes (at_ : Z) (l : list Z) (img : memory) : memory :=
  match l with
  | [] => img
  | b :: l' => put_bytes (at_ + 1) l' (store_le 1 img at_ b)
  end.

(** A directory record at [at_]. *)
Definition put_dirent (at_ ino rec_len file_type : Z) (name : string)
    (img : memory) : memory :=
  put_bytes (at_ + offsetof "name" Ext4DirEntry2) (Util.str name)
    (put Ext4DirEntry2 at_ "file_type" file_type
       (put Ext4DirEntry2 at_ "name_len" (Z.of_nat (String.length name))
          (put Ext4DirEntry2 at_ "rec_len" rec_len
             (put Ext4DirEntry2 at_ "inode" ino img)))).

(** An inode at [at_] with one extent of one block at [block]. *)
Definition put_inode (at_ mode size_ block : Z) (img : memory) : memory :=
  let ib := at_ + offsetof "i_block" Ext4Inode in
  let ex := ib + sizeof Ext4ExtentHeader in
  put Ext4Extent ex "ee_start_lo" block
    (put Ext4Extent ex "ee_len" 1
       (put Ext4ExtentHeader ib "eh_max" 4
          (put Ext4ExtentHeader ib "eh_entries" 1
             (put Ext4ExtentHeader ib "eh_magic" 0xF30A
                (put Ext4Inode at_ "i_flags" EXT4_EXTENTS_FL
                   (put Ext4Inode at_ "i_size_lo" size_
                      (put Ext4Inode at_ "i_mode" mode img))))))).

Definition S_IFMT  : Z := 0xF000.
Definition S_IFDIR : Z := 0x4000.
Definition S_IFREG : Z := 0x8000.

(** A small filesystem with 1024-byte blocks and 256-byte inodes, the
    inode table in block 5.  The root directory (inode 2, block 20) holds
    ".", ".." and the regular file "a" (inode 12).  The file "a" (block
    21) is not a directory, but its contents happen to have the shape of
    a directory record naming "b" with inode 13. *)
Definition image_fs : memory :=
  let img := (fun _ => 0) : memory in
  (* superblock *)
  let img := put Ext4Superblock 1024 "s_first_data_block" 1 img in
  let img := put Ext4Superblock 1024 "s_log_block_size" 0 img in
  let img := put Ext4Superblock 1024 "s_inodes_per_group" 32 img in
  let img := put Ext4Superblock 1024 "s_magic" EXT4_SUPER_MAGIC img in
  let img := put Ext4Superblock 1024 "s_rev_level" 1 img in
  let img := put Ext4Superblock 1024 "s_inode_size" 256 img in
  (* group descriptor 0, in the block after the superblock's *)
  let img := put Ext4GroupDesc 2048 "bg_inode_table_lo" 5 img in
  (* inodes 2, 12 and 13 *)
  let img := put_inode (5 * 1024 + 1 * 256) (S_IFDIR + 0x1ED) 1024 20 img in
  let img := put_inode (5 * 1024 + 11 * 256) (S_IFREG + 0x1A4) 1024 21 img in
  let img := put_inode (5 * 1024 + 12 * 256) (S_IFREG + 0x1A4) 1024 22 img in
  (* root directory *)
  let img := put_dirent (20 * 1024) 2 12 2 "." img in
  let img := put_dirent (20 * 1024 + 12) 2 12 2 ".." img in
  let img := put_dirent (20 * 1024 + 24) 12 1000 1 "a" img in
  (* contents of the file "a" *)
  put_dirent (21 * 1024) 13 1024 1 "b" img.

Definition fs_block_io : EFI_BLOCK_IO_PROTOCOL := image_block_io image_fs 65536 512.
Definition fs_disk_io  : EFI_DISK_IO_PROTOCOL  := image_disk_io image_fs 65536.

(** A wide string literal. *)
Definition wstr (s : string) : list Z := Util.str s.

(** What the claim reads off a mounted context. *)
Definition mount_summary (r : EFI_STATUS * option Ext4Context)
    : EFI_STATUS * option (Z * Z * Z) :=
  (fst r,
   option_map (fun c => (block_size c, inode_size c, group_desc_size c)) (snd r)).

End Ext4.

(* ===================================================================== *)
(** * fs/btrfs.c, fs/xfs.c, fs/ntfs.c: the probing stubs                   *)
(* ===================================================================== *)

Module Stubs.

Import Ext4.
Local Open Scope string_scope.
Local Open Scope list_scope.
Local Open Scope Z_scope.

Definition BTRFS_SUPER_MAGIC       : Z := 0x4D5F53665248425F.
Definition BTRFS_SUPERBLOCK_OFFSET : Z := 0x10000.
Definition XFS_SUPER_MAGIC         : Z := 0x58465342.

Definition BtrfsSuperblock : layout :=
  [ ("csum", 32); ("fsid", 16); ("bytenr", 8); ("flags", 8); ("magic", 8);
    ("generation", 8); ("root", 8); ("chunk_root", 8); ("log_root", 8) ].

Definition XfsSuperblock : layout :=
  [ ("sb_magicnum", 4); ("sb_blocksize", 4); ("sb_dblocks", 8);
    ("sb_rblocks", 8); ("sb_rextents", 8); ("sb_uuid", 16) ].

Section Probes.
Variable pool : Pool.

(** The reading part shared by the three probes: [n] bytes from byte
    [offset] with Disk I/O, else [read_size] bytes from block [lba],
    of which the first [n] are kept. *)
Definition probe_read (bio : EFI_BLOCK_IO_PROTOCOL)
    (dio : option EFI_DISK_IO_PROTOCOL) (offset n lba read_size : Z)
    : option (EFI_STATUS * memory) :=
  match dio with
  | Some d =>
      let r := ReadDisk d offset n in
      Some (fst r, deliver (uninit pool) 0 n r)
  | None =>
      if negb (pool_ok pool read_size) then None
      else
        let r := ReadBlocks bio lba read_size in
        let tmp := deliver (uninit pool) 0 read_size r in
        Some (fst r,
              if EFI_ERROR (fst r) then uninit pool
              else CopyMem (uninit pool) 0 tmp 0 n)
  end.

Definition btrfs_probe (bio : EFI_BLOCK_IO_PROTOCOL)
    (dio : option EFI_DISK_IO_PROTOCOL) : EFI_STATUS :=
  let bs := BlockSize bio in
  let n := sizeof BtrfsSuperblock in
  match probe_read bio dio BTRFS_SUPERBLOCK_OFFSET n
          (BTRFS_SUPERBLOCK_OFFSET / bs) (if n <? bs then bs else n) with
  | None => EFI_OUT_OF_RESOURCES
  | Some (status, sb_) =>
      if EFI_ERROR status then status
      else if member BtrfsSuperblock sb_ 0 "magic" =? BTRFS_SUPER_MAGIC
           then EFI_SUCCESS else EFI_NOT_FOUND
  end.

Definition xfs_probe (bio : EFI_BLOCK_IO_PROTOCOL)
    (dio : option EFI_DISK_IO_PROTOCOL) : EFI_STATUS :=
  match probe_read bio dio 0 (sizeof XfsSuperblock) 0 (BlockSize bio) with
  | None => EFI_OUT_OF_RESOURCES
  | Some (status, sb_) =>
      if EFI_ERROR status then status
      else
        let m := member XfsSuperblock sb_ 0 "sb_magicnum" in
        let magic :=
          Z.lor (Z.lor (Z.lor (Z.land (Z.shiftr m 24) 0xFF)
                              (Z.land (Z.shiftr m 8) 0xFF00))
                       (Z.land (wrap32 (Z.shiftl m 8)) 0xFF0000))
                (Z.land (wrap32 (Z.shiftl m 24)) 0xFF000000) in
        if magic =? XFS_SUPER_MAGIC then EFI_SUCCESS else EFI_NOT_FOUND
  end.

Definition ntfs_probe (bio : EFI_BLOCK_IO_PROTOCOL)
    (dio : option EFI_DISK_IO_PROTOCOL) : EFI_STATUS :=
  match probe_read bio dio 0 512 0 (BlockSize bio) with
  | None => EFI_OUT_OF_RESOURCES
  | Some (status, sector) =>
      if EFI_ERROR status then status
      else if Util.sb_strncmp8 (fun i => wrap8 (sector (3 + i)))
                (Util.at_ (Util.str "NTFS    ")) 8 =? 0
           then EFI_SUCCESS else EFI_NOT_FOUND
  end.

(** btrfs_mount, xfs_mount, ntfs_mount. *)
Definition stub_mount (bio : EFI_BLOCK_IO_PROTOCOL)
    (dio : option EFI_DISK_IO_PROTOCOL) : EFI_STATUS * option Ext4Context :=
  (EFI_UNSUPPORTED, None).

End Probes.

End Stubs.

(* ===================================================================== *)
(** * fs/vfs.c: the mount table                                            *)
(* ===================================================================== *)

Module Vfs.

Import Ext4.
Local Open Scope string_scope.
Local Open Scope list_scope.
Local Open Scope Z_scope.

Definition VFS_MAX_MOUNTS : Z := 64.

(** vfs.h: the members of the driver vtable that opening a device calls. *)
Record VfsDriver := mkDriver {
  name  : string;
  probe : EFI_BLOCK_IO_PROTOCOL -> option EFI_DISK_IO_PROTOCOL -> EFI_STATUS;
  mount : EFI_BLOCK_IO_PROTOCOL -> option EFI_DISK_IO_PROTOCOL
          -> EFI_STATUS * option Ext4Context
}.

Record VfsMount := mkMount {
  device     : Z;                    (* EFI_HANDLE *)
  is_native  : bool;
  driver     : option VfsDriver;     (* NULL for a native mount *)
  fs_context : option Ext4Context    (* opaque driver state *)
}.

(** The two globals [mounts] and [mount_count]. *)
Record MountTable := mkTable {
  mounts      : list VfsMount;
  mount_count : Z
}.

(** gBS->HandleProtocol for the three protocols asked of a device: the
    status and, on success, the interface. *)
Record BootServices := mkBS {
  SimpleFileSystem : Z -> EFI_STATUS;
  BlockIo          : Z -> EFI_STATUS * EFI_BLOCK_IO_PROTOCOL;
  DiskIo           : Z -> EFI_STATUS * EFI_DISK_IO_PROTOCOL
}.

Section Open.
Variable gBS : BootServices.
Variable pool : Pool.

Definition sb_vfs_ext4  := mkDriver "ext4" (ext4_probe pool) (ext4_mount pool).
Definition sb_vfs_btrfs := mkDriver "btrfs" (Stubs.btrfs_probe pool) Stubs.stub_mount.
Definition sb_vfs_xfs   := mkDriver "xfs" (Stubs.xfs_probe pool) Stubs.stub_mount.
Definition sb_vfs_ntfs  := mkDriver "ntfs" (Stubs.ntfs_probe pool) Stubs.stub_mount.

Definition builtin_drivers : list VfsDriver :=
  [sb_vfs_ext4; sb_vfs_btrfs; sb_vfs_xfs; sb_vfs_ntfs].

(** The entries in use: [mounts[0 .. mount_count)]. *)
Definition live (st : MountTable) : list VfsMount :=
  take (Z.to_nat (mount_count st)) (mounts st).

(** find_mount: the first entry in use with this handle. *)
Definition find_mount (st : MountTable) (dev : Z) : option VfsMount :=
  find (fun m => device m =? dev) (live st).

(** The [for] over the driver table; [slot] is the index of [m]. *)
Fixpoint try_drivers (drivers : list VfsDriver)
    (bio : EFI_BLOCK_IO_PROTOCOL) (dio : option EFI_DISK_IO_PROTOCOL)
    (dev : Z) (slot : nat) (st : MountTable) : EFI_STATUS * MountTable :=
  match drivers with
  | [] => (EFI_UNSUPPORTED, st)
  | drv :: rest =>
      if negb (EFI_ERROR (probe drv bio dio)) then
        let '(status, ctx) := mount drv bio dio in
        if negb (EFI_ERROR status) then
          (EFI_SUCCESS,
           mkTable (<[slot := mkMount dev false (Some drv) ctx]> (mounts st))
                   (mount_count st + 1))
        else try_drivers rest bio dio dev slot st
      else try_drivers rest bio dio dev slot st
  end.

(** [SetMem(m, sizeof( *m), 0); m->device = device] on the first free
    slot [m = &mounts[mount_count]]. *)
Definition clear_slot (dev : Z) (st : MountTable) : MountTable :=
  mkTable (<[Z.to_nat (mount_count st) := mkMount dev false None None]>
             (mounts st))
          (mount_count st).

(** sb_vfs_open_device from the native attempt on, the slot cleared. *)
Definition mount_into_slot (dev : Z) (st : MountTable)
    : EFI_STATUS * MountTable :=
  let slot := Z.to_nat (mount_count st) in
  if negb (EFI_ERROR (SimpleFileSystem gBS dev)) then
    (EFI_SUCCESS,
     mkTable (<[slot := mkMount dev true None None]> (mounts st))
             (mount_count st + 1))
  else
    let '(status, bio) := BlockIo gBS dev in
    if EFI_ERROR status then (status, st)
    else
      let '(status, d) := DiskIo gBS dev in
      let dio := if EFI_ERROR status then None else Some d in
      try_drivers builtin_drivers bio dio dev slot st.

Definition sb_vfs_open_device (dev : Z) (st : MountTable)
    : EFI_STATUS * MountTable :=
  match find_mount st dev with
  | Some _ => (EFI_SUCCESS, st)
  | None =>
      if VFS_MAX_MOUNTS <=? mount_count st then (EFI_OUT_OF_RESOURCES, st)
      else mount_into_slot dev (clear_slot dev st)
  end.

(** The entries in use that are keyed by a handle. *)
Definition keyed (dev : Z) (st : MountTable) : list VfsMount :=
  filter (fun m => device m = dev) (live st).

End Open.

(** What a native mount calls to read a file, by device and path:
    sfs->OpenVolume, root->Open, file->GetInfo (the status and
    info->FileSize) and file->Read (the status, the size read and the
    buffer afterwards, from the size asked for and the buffer before). *)
Record FileProtocol := mkFiles {
  fp_OpenVolume : Z -> EFI_STATUS;
  fp_Open       : Z -> list Z -> EFI_STATUS;
  fp_GetInfo    : Z -> list Z -> EFI_STATUS * Z;
  fp_Read       : Z -> list Z -> Z -> memory -> EFI_STATUS * Z * memory
}.

Section Files.
Variable gBS : BootServices.
Variable files : FileProtocol.
Variable pool : Pool.

(** sb_vfs_init and sb_vfs_shutdown leave no entry in use.  (Loading
    external drivers and unmounting touch the firmware and the pool, not
    the table.) *)
Definition sb_vfs_init (st : MountTable) : MountTable :=
  mkTable (mounts st) 0.

Definition sb_vfs_shutdown (st : MountTable) : MountTable :=
  mkTable (mounts st) 0.

(** The [read_file] member of the vtable of a built-in driver:
    ext4_read_file for ext4, the stubs of btrfs.c, xfs.c and ntfs.c for
    the others.  (A NULL context, which no mount stores for ext4, has no
    result.) *)
Definition driver_read_file (drv : VfsDriver) (ctx : option Ext4Context)
    (path : list Z) (buffer0 : option memory) (size0 : Z)
    : option (EFI_STATUS * option memory * Z) :=
  if String.eqb (name drv) "ext4" then
    match ctx with
    | Some c => ext4_read_file pool c path buffer0 size0
    | None => None
    end
  else Some (EFI_UNSUPPORTED, buffer0, size0).

(** sb_vfs_read_file once the mount [m] is at hand: the status and what
    [*buffer] and [*size] hold afterwards. *)
Definition read_mounted (m : VfsMount) (dev : Z) (path : list Z)
    (buffer0 : option memory) (size0 : Z)
    : option (EFI_STATUS * option memory * Z) :=
  if is_native m then
    Some
      (let status := SimpleFileSystem gBS dev in
       if EFI_ERROR status then (status, buffer0, size0)
       else
         let status := fp_OpenVolume files dev in
         if EFI_ERROR status then (status, buffer0, size0)
         else
           let status := fp_Open files dev path in
           if EFI_ERROR status then (status, buffer0, size0)
           else
             let '(status, file_size) := fp_GetInfo files dev path in
             if EFI_ERROR status then (status, buffer0, size0)
             else
               let size := wrap64 file_size in
               if negb (pool_ok pool (wrap64 (size + 1)))
               then (EFI_OUT_OF_RESOURCES, None, size)
               else
                 let '(status, size, buf) :=
                   fp_Read files dev path size (uninit pool) in
                 (status, Some (store_le 1 buf size 0), size))
  else
    match driver m with
    | Some drv => driver_read_file drv (fs_context m) path buffer0 size0
    | None => Some (EFI_UNSUPPORTED, buffer0, size0)
    end.

(** sb_vfs_read_file, with the table it leaves. *)
Definition sb_vfs_read_file (dev : Z) (path : list Z)
    (buffer0 : option memory) (size0 : Z) (st : MountTable)
    : option (EFI_STATUS * option memory * Z) * MountTable :=
  match find_mount st dev with
  | Some m => (read_mounted m dev path buffer0 size0, st)
  | None =>
      let '(s, st) := sb_vfs_open_device gBS pool dev st in
      if EFI_ERROR s then (Some (s, buffer0, size0), st)
      else
        match find_mount st dev with
        | None => (Some (EFI_NOT_FOUND, buffer0, size0), st)
        | Some m => (read_mounted m dev path buffer0 size0, st)
        end
  end.

(** sb_vfs_file_exists, with the table it leaves. *)
Definition sb_vfs_file_exists (dev : Z) (path : list Z) (st : MountTable)
    : option bool * MountTable :=
  let st := match find_mount st dev with
            | None => snd (sb_vfs_open_device gBS pool dev st)
            | Some _ => st
            end in
  match find_mount st dev with
  | None => (Some false, st)
  | Some m =>
      if is_native m then
        (Some (if EFI_ERROR (SimpleFileSystem gBS dev) then false
               else if EFI_ERROR (fp_OpenVolume files dev) then false
               else if EFI_ERROR (fp_Open files dev path) then false
               else true), st)
      else
        let '(r, st) := sb_vfs_read_file dev path None 0 st in
        (option_map (fun r => negb (EFI_ERROR (fst (fst r)))) r, st)
  end.

End Files.

(** ** Sample inputs *)

(** The table after sb_vfs_init: no entry in use. *)
Definition empty_table : MountTable :=
  mkTable (replicate 64 (mkMount 0 false None None)) 0.

(** A handle that carries none of the three protocols. *)
Definition gBS_bare : BootServices :=
  mkBS (fun _ => EFI_UNSUPPORTED)
       (fun _ => (EFI_UNSUPPORTED, mkBlockIo 512 (fun _ _ => (EFI_UNSUPPORTED, fun _ => 0))))
       (fun _ => (EFI_UNSUPPORTED, mkDiskIo (fun _ _ => (EFI_UNSUPPORTED, fun _ => 0)))).

(** A table with every slot in use, by native mounts of handles 100..163. *)
Definition full_table : MountTable :=
  mkTable (map (fun i => mkMount (100 + Z.of_nat i) true None None) (seq 0 64)) 64.

(** A handle with Block I/O and Disk I/O on the sample filesystem. *)
Definition gBS_ext4 : BootServices :=
  mkBS (fun _ => EFI_UNSUPPORTED)
       (fun _ => (EFI_SUCCESS, fs_block_io))
       (fun _ => (EFI_SUCCESS, fs_disk_io)).

End Vfs.

(* ===================================================================== *)
(** * superboot.h and config/limine.c: the section parser                  *)
(* ===================================================================== *)

Module Limine.

Local Open Scope string_scope.
Local Open Scope list_scope.
Local Open Scope Z_scope.

Definition SB_MAX_INITRDS : Z := 8.
Definition SB_MAX_PATH    : Z := 512.
Definition SB_MAX_TITLE   : Z := 256.
Definition SB_MAX_CMDLINE : Z := 4096.

Inductive ConfigType :=
| CONFIG_TYPE_UNKNOWN
| CONFIG_TYPE_GRUB
| CONFIG_TYPE_SYSTEMD_BOOT
| CONFIG_TYPE_LIMINE.

(** BootTarget.  A character array holds the string up to its first NUL;
    [initrd_paths] has its SB_MAX_INITRDS slots. *)
Record BootTarget := mkTarget {
  title         : list Z;            (* CHAR16[] *)
  kernel_path   : list Z;            (* CHAR16[] *)
  initrd_paths  : list (list Z);
  initrd_count  : Z;
  cmdline       : Util.cstring;      (* CHAR8[]  *)
  config_path   : list Z;
  config_type   : ConfigType;
  device_handle : Z;
  is_chainload  : bool;
  efi_path      : list Z;
  index         : Z;
  is_default    : bool
}.

(** The entry after [SetMem(cur, sizeof( *cur), 0)]. *)
Definition zero_target : BootTarget :=
  mkTarget [] [] (replicate (Z.to_nat SB_MAX_INITRDS) []) 0 [] []
           CONFIG_TYPE_UNKNOWN 0 false [] 0 false.

Definition set_title (t : BootTarget) (v : list Z) : BootTarget :=
  mkTarget v (kernel_path t) (initrd_paths t) (initrd_count t) (cmdline t)
    (config_path t) (config_type t) (device_handle t) (is_chainload t)
    (efi_path t) (index t) (is_default t).
Definition set_kernel_path (t : BootTarget) (v : list Z) : BootTarget :=
  mkTarget (title t) v (initrd_paths t) (initrd_count t) (cmdline t)
    (config_path t) (config_type t) (device_handle t) (is_chainload t)
    (efi_path t) (index t) (is_default t).
Definition add_initrd (t : BootTarget) (v : list Z) : BootTarget :=
  mkTarget (title t) (kernel_path t)
    (<[Z.to_nat (initrd_count t) := v]> (initrd_paths t))
    (wrap32 (initrd_count t + 1)) (cmdline t)
    (config_path t) (config_type t) (device_handle t) (is_chainload t)
    (efi_path t) (index t) (is_default t).
Definition set_cmdline (t : BootTarget) (v : Util.cstring) : BootTarget :=
  mkTarget (title t) (kernel_path t) (initrd_paths t) (initrd_count t) v
    (config_path t) (config_type t) (device_handle t) (is_chainload t)
    (efi_path t) (index t) (is_default t).
Definition set_chainload (t : BootTarget) : BootTarget :=
  mkTarget (title t) (kernel_path t) (initrd_paths t) (initrd_count t)
    (cmdline t) (config_path t) (config_type t) (device_handle t) true
    (efi_path t) (index t) (is_default t).
Definition set_efi_path (t : BootTarget) (v : list Z) : BootTarget :=
  mkTarget (title t) (kernel_path t) (initrd_paths t) (initrd_count t)
    (cmdline t) (config_path t) (config_type t) (device_handle t)
    (is_chainload t) v (index t) (is_default t).

(** limine_path_to_uefi: the wide string left in [dst]. *)
Definition limine_path_to_uefi (src : Util.cstring) (max : Z) : list Z :=
  let p := match Util.sb_strstr8 src (Util.str "):") with
           | Some colon => skipn 2 colon
           | None => src
           end in
  let lead := negb (Util.deref p =? 47) && negb (Util.deref p =? 92)
              && (0 + 1 <? max) in
  let i := if lead then 1 else 0 in
  (if lead then [92] else [])
  ++ Util.strcpy_loop (fun ch => if ch =? 47 then 92 else ch) p i max.

(** [while ( *p && !stop( *p) && i + 1 < limit) buf[i++] = *p++]: the
    characters copied and the pointer afterwards. *)
Fixpoint scan (stop : Z -> bool) (limit : Z) (p : Util.cstring) (i : Z)
    : Util.cstring * Util.cstring :=
  match p with
  | [] => ([], [])
  | ch :: p' =>
      if negb (ch =? 0) && negb (stop ch) && (i + 1 <? limit) then
        let '(w, rest) := scan stop limit p' (i + 1) in (ch :: w, rest)
      else ([], p)
  end.

(** The value with its trailing blanks and tabs cut off. *)
Fixpoint trim_trailing (value : Util.cstring) : Util.cstring :=
  match value with
  | [] => []
  | ch :: rest =>
      match trim_trailing rest with
      | [] => if (ch =? 32) || (ch =? 9) then [] else [ch]
      | t => ch :: t
      end
  end.

(** A wide string up to its NUL, as CopyMem of StrLen + 1 characters
    leaves it. *)
Fixpoint wide (l : list Z) : list Z :=
  match l with
  | [] => []
  | ch :: l' => if ch =? 0 then [] else ch :: wide l'
  end.

(** The locals of limine_parse: the cursor, the entries counted so far
    ([targets[0 .. *count)]), the entry under construction
    ([cur = &targets[ *count]], [None] for NULL) and [in_section]. *)
Record pstate := mkState {
  p          : Util.cstring;
  out        : list BootTarget;
  cur        : option BootTarget;
  in_section : bool
}.

Definition count (st : pstate) : Z := Z.of_nat (length (out st)).

(** [cur->kernel_path[0] || cur->is_chainload] *)
Definition accepted (t : BootTarget) : bool :=
  negb (Util.deref (kernel_path t) =? 0) || is_chainload t.

(** The dispatch on the key of a [key: value] line. *)
Definition set_key (t : BootTarget) (key value : Util.cstring) : BootTarget :=
  if Util.sb_strcmp8 key (Util.str "kernel_path") =? 0 then
    set_kernel_path t (limine_path_to_uefi value SB_MAX_PATH)
  else if (Util.sb_strcmp8 key (Util.str "kernel_cmdline") =? 0)
          || (Util.sb_strcmp8 key (Util.str "cmdline") =? 0) then
    set_cmdline t (Util.sb_strcpy8 value SB_MAX_CMDLINE)
  else if Util.sb_strcmp8 key (Util.str "module_path") =? 0 then
    if initrd_count t <? SB_MAX_INITRDS
    then add_initrd t (limine_path_to_uefi value SB_MAX_PATH)
    else t
  else if Util.sb_strcmp8 key (Util.str "protocol") =? 0 then
    if Util.sb_strcmp8 value (Util.str "chainload") =? 0
    then set_chainload t else t
  else if (Util.sb_strcmp8 key (Util.str "path") =? 0)
          || (Util.sb_strcmp8 key (Util.str "image_path") =? 0) then
    set_chainload (set_efi_path t (limine_path_to_uefi value SB_MAX_PATH))
  else t.

(** A [key: value] line inside a section, from the start of the key to
    just before the final sb_next_line. *)
Definition key_value (t : BootTarget) (q : Util.cstring)
    : BootTarget * Util.cstring :=
  let '(key, q) := scan (fun ch => (ch =? 58) || (ch =? 10)) 128 q 0 in
  let q := if Util.deref q =? 58 then tl q else q in
  let q := Util.sb_skip_whitespace q in
  let '(value, q) := scan (fun ch => ch =? 10) SB_MAX_CMDLINE q 0 in
  let value := trim_trailing value in
  (set_key t key value, q).

Section Parse.
Variable device : Z.
Variable config_path_ : list Z.
Variable max : Z.

(** One pass of the [while ( *p)] body; [true] is the [break]. *)
Definition limine_body (st : pstate) : bool * pstate :=
  let q := Util.sb_skip_whitespace (p st) in
  if Util.deref q =? 10 then
    (false, mkState (tl q) (out st) (cur st) (in_section st))
  else if Util.deref q =? 35 then
    (false, mkState (Util.sb_next_line q) (out st) (cur st) (in_section st))
  else if (Util.deref q =? 47) && negb (in_section st) then
    let q := tl q in
    if max <=? count st then
      (true, mkState q (out st) (cur st) (in_section st))
    else
      let t := mkTarget [] [] (initrd_paths zero_target) 0 [] (wide config_path_)
                 CONFIG_TYPE_LIMINE device false [] (wrap32 (count st)) false in
      let '(title_, q) := scan (fun ch => ch =? 10) SB_MAX_TITLE q 0 in
      let t := set_title t (Util.sb_str8to16 title_ SB_MAX_TITLE) in
      (false, mkState (Util.sb_next_line q) (out st) (Some t) true)
  else
    match (Util.deref q =? 47) && in_section st, cur st with
    | true, Some t =>
        (false, mkState q (if accepted t then out st ++ [t] else out st)
                        None false)
    | _, _ =>
        match in_section st, cur st with
        | true, Some t =>
            let '(t, q) := key_value t q in
            (false, mkState (Util.sb_next_line q) (out st) (Some t) true)
        | _, _ =>
            (false, mkState (Util.sb_next_line q) (out st) (cur st)
                            (in_section st))
        end
    end.

Fixpoint limine_loop (fuel : nat) (st : pstate) : option pstate :=
  if Util.deref (p st) =? 0 then Some st
  else
    match fuel with
    | O => None
    | S fuel' =>
        let '(brk, st') := limine_body st in
        if brk then Some st' else limine_loop fuel' st'
    end.

(** [/* Close last section. */] *)
Definition close_last (st : pstate) : list BootTarget :=
  match in_section st, cur st with
  | true, Some t => if accepted t then out st ++ [t] else out st
  | _, _ => out st
  end.

(** limine_parse: the status, [*count] and [targets[0 .. *count)]. *)
Definition limine_parse (config_data : Util.cstring)
    : option (EFI_STATUS * Z * list BootTarget) :=
  match limine_loop (2 * length config_data + 1)
                    (mkState config_data [] None false) with
  | None => None
  | Some st =>
      let targets := close_last st in
      Some (EFI_SUCCESS, Z.of_nat (length targets), targets)
  end.

End Parse.

(** The measure that every pass of the loop lowers: two per character
    left, one more inside a section. *)
Definition measure (st : pstate) : nat :=
  (2 * length (p st) + (if in_section st then 1 else 0))%nat.

(** What holds of an entry under construction. *)
Definition well_formed (t : BootTarget) : Prop :=
  (efi_path t <> [] -> is_chainload t = true)
  /\ 0 <= initrd_count t <= SB_MAX_INITRDS.

(** What holds of an entry that has been counted. *)
Definition entry_ok (e : BootTarget) : Prop :=
  accepted e = true /\ well_formed e.

(** The invariant of the parsing loop. *)
Definition parser_inv (st : pstate) : Prop :=
  Forall entry_ok (out st) /\ (forall t, cur st = Some t -> well_formed t).

(** The entry that a section header sets up in [targets[n]], before the
    title is stored. *)
Definition fresh_target (device : Z) (config_path_ : list Z) (n : Z)
    : BootTarget :=
  mkTarget [] [] (initrd_paths zero_target) 0 [] (wide config_path_)
           CONFIG_TYPE_LIMINE device false [] (wrap32 n) false.

(** The strings of an entry fit the arrays of BootTarget, the
    terminating NUL included. *)
Definition fits (t : BootTarget) : Prop :=
  Z.of_nat (length (title t)) < SB_MAX_TITLE
  /\ Z.of_nat (length (kernel_path t)) < SB_MAX_PATH
  /\ Z.of_nat (length (efi_path t)) < SB_MAX_PATH
  /\ Z.of_nat (length (cmdline t)) < SB_MAX_CMDLINE
  /\ length (initrd_paths t) = Z.to_nat SB_MAX_INITRDS
  /\ Forall (fun path => Z.of_nat (length path) < SB_MAX_PATH)
            (initrd_paths t).

(** The origin that limine_parse writes into the entry numbered [i]. *)
Definition stamped (device : Z) (config_path_ : list Z) (i : Z)
    (t : BootTarget) : Prop :=
  config_type t = CONFIG_TYPE_LIMINE
  /\ device_handle t = device
  /\ config_path t = wide config_path_
  /\ index t = wrap32 i
  /\ is_default t = false.

(** ** Sample inputs *)

Definition nl : string := String "010" "".

(** Scenario 1. *)
Definition scenario1 : Util.cstring :=
  Util.str ("/Arch" ++ nl ++
            "  protocol: linux" ++ nl ++
            "  kernel_path: boot():/vmlinuz" ++ nl ++
            "  kernel_cmdline: root=UUID=abc rw" ++ nl).

(** A section that carries nothing but the chainload protocol. *)
Definition chainload_only : Util.cstring :=
  Util.str ("/Win" ++ nl ++ "  protocol: chainload" ++ nl).

End Limine.

(* ===================================================================== *)
(** * boot/linux.c: the initrds and the public entry                       *)
(* ===================================================================== *)

Module Boot.

Import Loader.
Import Linux.
Local Open Scope string_scope.
Local Open Scope list_scope.
Local Open Scope Z_scope.

(** The events after which the boot services are gone. *)
Definition leaves_boot_services (e : event) : bool :=
  match e with
  | EvExitBootServices _ _ => true
  | EvEntry64 _ _ => true
  | _ => false
  end.

Section Boot.
Variable fw : Firmware.
Variable gBS : Vfs.BootServices.
Variable files : Vfs.FileProtocol.
Variable pool : Ext4.Pool.

(** The first [for] of load_initrds over the paths still to read.  A slot
    keeps what the read left in [bufs[i]] and [sizes[i]], together with
    the status that the loop tests. *)
Fixpoint read_initrds (dev : Z) (paths : list (list Z)) (total : Z)
    (st : Vfs.MountTable)
    : option (list (EFI_STATUS * option memory * Z) * Z * Vfs.MountTable) :=
  match paths with
  | [] => Some ([], total, st)
  | path :: rest =>
      let '(r, st) := Vfs.sb_vfs_read_file gBS files pool dev path None 0 st in
      match r with
      | None => None
      | Some (s, buf, size) =>
          let total := if EFI_ERROR s then total else wrap64 (total + size) in
          match read_initrds dev rest total st with
          | None => None
          | Some (slots, total, st) => Some ((s, buf, size) :: slots, total, st)
          end
      end
  end.

(** The copying [for]: the region from [addr] on and the cursor [dest],
    as an offset from [addr]. *)
Fixpoint copy_initrds (slots : list (EFI_STATUS * option memory * Z))
    (region : memory) (dest : Z) : memory * Z :=
  match slots with
  | [] => (region, dest)
  | (_, Some buf, size) :: rest =>
      copy_initrds rest (CopyMem region dest buf 0 size) (dest + size)
  | (_, None, _) :: rest => copy_initrds rest region dest
  end.

(** load_initrds: the status, [*initrd_addr], [*initrd_total], the region
    allocated for the images ([fresh] before the copy) and the mount
    table.  The paths read are [initrd_paths[0 .. initrd_count)]. *)
Definition load_initrds (target : Limine.BootTarget) (fresh : memory)
    (st : Vfs.MountTable)
    : M (option (EFI_STATUS * Z * Z * memory) * Vfs.MountTable) :=
  if Limine.initrd_count target =? 0
  then ret (Some (EFI_SUCCESS, 0, 0, fresh), st)
  else
    match read_initrds (Limine.device_handle target)
            (take (Z.to_nat (Limine.initrd_count target))
                  (Limine.initrd_paths target)) 0 st with
    | None => ret (None, st)
    | Some (slots, total, st) =>
        if total =? 0 then ret (Some (EFI_SUCCESS, 0, 0, fresh), st)
        else
          let pages := wrap64 (total + 4095) / 4096 in
          r <- AllocatePages fw AllocateMaxAddress pages 0xFFFFFFFF ;;
          r <- (if EFI_ERROR (fst r)
                then AllocatePages fw AllocateAnyPages pages (snd r)
                else ret r) ;;
          if EFI_ERROR (fst r) then ret (Some (fst r, 0, 0, fresh), st)
          else ret (Some (fst r, snd r, total,
                          fst (copy_initrds slots fresh 0)), st)
    end.

(** sb_boot_linux.  [kernel_buf] is the address of the buffer that the
    read of the kernel image returned, [fresh] what the pages allocated
    for the initrds hold at first.  [None]: no status comes back.  The
    trace holds the events of [event]: the allocations, the memory map,
    the exit and the hand-off.  The console output of SB_LOG and SB_CHECK
    and the FreePool of the kernel buffer on the two refusals are not
    among them and leave no mark here; the read of the kernel acts on the
    mount table. *)
Definition sb_boot_linux (target : Limine.BootTarget) (kernel_buf : Z)
    (fresh : memory) (e820_stack : Z -> E820.E820Entry)
    (st : Vfs.MountTable) : M (option EFI_STATUS * Vfs.MountTable) :=
  let '(r, st) :=
    Vfs.sb_vfs_read_file gBS files pool (Limine.device_handle target)
      (Limine.kernel_path target) None 0 st in
  match r with
  | None => ret (None, st)
  | Some (status, buffer, kernel_size) =>
      if EFI_ERROR status then ret (Some status, st)
      else if kernel_size <? 0x260 then ret (Some EFI_INVALID_PARAMETER, st)
      else
        match buffer with
        | None => ret (None, st)
        | Some kernel =>
            if negb (hdr_field kernel "header" =? LINUX_BOOT_HDR_MAGIC)
            then ret (Some EFI_INVALID_PARAMETER, st)
            else
              x <- load_initrds target fresh st ;;
              match x with
              | (None, st) => ret (None, st)
              | (Some (_, initrd_addr, initrd_size, _), st) =>
                  let legacy :=
                    s <- boot_legacy_bzimage fw kernel kernel_buf kernel_size
                           (Limine.cmdline target) initrd_addr initrd_size
                           e820_stack ;;
                    ret (s, st) in
                  if (0x020B <=? hdr_field kernel "version")
                     && negb (hdr_field kernel "handover_offset" =? 0)
                  then
                    status <- boot_efi_handover fw kernel kernel_buf
                                kernel_size (Limine.cmdline target)
                                initrd_addr initrd_size ;;
                    if negb (status =? EFI_UNSUPPORTED)
                    then ret (Some status, st)
                    else legacy
                  else legacy
              end
        end
  end.

End Boot.

(** The bytes that the copying loop of load_initrds writes, in order. *)
Fixpoint copied (slots : list (EFI_STATUS * option memory * Z)) : list Z :=
  match slots with
  | [] => []
  | (_, Some buf, size) :: rest =>
      prefix (fun j => wrap8 (buf j)) size ++ copied rest
  | (_, None, _) :: rest => copied rest
  end.

End Boot.

(* ===================================================================== *)
(** * Part II: properties                                                  *)
(* ===================================================================== *)

(** ** Arrays and their prefixes *)

Lemma prefix_length {A} (a : Z -> A) n : length (prefix a n) = Z.to_nat n.
Proof. unfold prefix. now rewrite length_map, length_seq. Qed.

Lemma prefix_nonpos {A} (a : Z -> A) n : n <= 0 -> prefix a n = [].
Proof.
  intros Hn. unfold prefix. replace (Z.to_nat n) with O by lia. reflexivity.
Qed.

Lemma prefix_succ {A} (a : Z -> A) n :
  0 <= n -> prefix a (n + 1) = prefix a n ++ [a n].
Proof.
  intros Hn. unfold prefix.
  replace (Z.to_nat (n + 1)) with (S (Z.to_nat n)) by lia.
  rewrite seq_S, map_app. simpl. now rewrite Z2Nat.id by lia.
Qed.

Lemma prefix_ext {A} (a b : Z -> A) n :
  (forall i, 0 <= i < n -> a i = b i) -> prefix a n = prefix b n.
Proof.
  intros H. unfold prefix. apply map_ext_in. intros i Hi.
  apply in_seq in Hi. apply H. lia.
Qed.

Lemma prefix_upd_end {A} (a : Z -> A) n v :
  0 <= n -> prefix (upd a n v) (n + 1) = prefix a n ++ [v].
Proof.
  intros Hn. rewrite prefix_succ by lia. f_equal.
  - apply prefix_ext. intros i Hi. unfold upd.
    destruct (Z.eqb_spec i n); [lia | reflexivity].
  - unfold upd. now rewrite Z.eqb_refl.
Qed.

Lemma prefix_last {A} (a : Z -> A) n :
  0 < n -> last (prefix a n) = Some (a (n - 1)).
Proof.
  intros Hn. replace n with ((n - 1) + 1) at 1 by lia.
  rewrite prefix_succ by lia. apply last_snoc.
Qed.

Lemma prefix_upd_last {A} (a : Z -> A) n v :
  0 < n ->
  prefix (upd a (n - 1) v) n = removelast (prefix a n) ++ [v].
Proof.
  intros Hn. replace n with ((n - 1) + 1) at 2 3 by lia.
  rewrite prefix_upd_end by lia.
  rewrite (prefix_succ a (n - 1)) by lia.
  now rewrite removelast_last.
Qed.

(** ** boot/linux.c: the E820 conversion refines its specification *)

Section E820_refinement.
Import E820.
Variable mmap : Z -> EFI_MEMORY_DESCRIPTOR.
Variables mmap_size desc_size max_entries : Z.
Hypothesis Hstride : 0 < desc_size.

Lemma stride_guard (k : nat) :
  (Z.of_nat k * desc_size <? mmap_size) = true <-> (k < visited_count mmap_size desc_size)%nat.
Proof using Hstride.
  unfold visited_count. rewrite Z.ltb_lt.
  pose proof (Z.div_mod (mmap_size + desc_size - 1) desc_size ltac:(lia)) as E.
  pose proof (Z.mod_pos_bound (mmap_size + desc_size - 1) desc_size Hstride) as B.
  set (q := (mmap_size + desc_size - 1) / desc_size) in *.
  set (r := (mmap_size + desc_size - 1) mod desc_size) in *.
  split; intros H.
  - assert (Z.of_nat k < q) by nia. lia.
  - assert (Z.of_nat k < q) by lia. nia.
Qed.

Lemma visited_le_size : (visited_count mmap_size desc_size <= Z.to_nat mmap_size)%nat.
Proof using Hstride.
  unfold visited_count.
  destruct (Z.le_gt_cases mmap_size 0) as [Hm | Hm].
  - assert ((mmap_size + desc_size - 1) / desc_size <= 0).
    { apply Z.lt_succ_r. apply Z.div_lt_upper_bound; lia. }
    lia.
  - apply Z2Nat.inj_le; try lia.
    + apply Z.div_pos; lia.
    + apply Z.lt_succ_r. apply Z.div_lt_upper_bound; nia.
Qed.

Lemma e820_loop_refines : forall (m k fuel : nat) count e820,
  (k + m = visited_count mmap_size desc_size)%nat -> (m <= fuel)%nat -> 0 <= count ->
  exists c' e',
    e820_loop fuel mmap mmap_size desc_size max_entries
              (Z.of_nat k * desc_size, count, e820) = Some (c', e')
    /\ prefix e' c'
       = coalesce_spec max_entries
           (map (fun j => mmap (Z.of_nat j * desc_size)) (seq k m))
           (prefix e820 count)
    /\ count <= c' <= Z.max count max_entries.
Proof using Hstride.
  induction m as [| m IH]; intros k fuel count e820 Hk Hfuel Hcount.
  - assert (G : (Z.of_nat k * desc_size <? mmap_size) = false).
    { apply not_true_iff_false. rewrite stride_guard. lia. }
    exists count, e820. destruct fuel; simpl; rewrite G; simpl;
      (split; [reflexivity | split; [reflexivity | lia]]).
  - assert (G : (Z.of_nat k * desc_size <? mmap_size) = true).
    { apply stride_guard. lia. }
    destruct fuel as [| fuel]; [lia |].
    cbn [e820_loop seq map coalesce_spec]. rewrite G, prefix_length.
    rewrite Z2Nat.id by lia. cbn [andb].
    destruct (count <? max_entries) eqn:Hcap.
    2:{ exists count, e820. split; [reflexivity | split; [reflexivity | lia]]. }
    apply Z.ltb_lt in Hcap.
    unfold e820_body, merges.
    replace (Z.of_nat k * desc_size + desc_size)
      with (Z.of_nat (S k) * desc_size) by lia.
    destruct (0 <? count) eqn:Hpos.
    + apply Z.ltb_lt in Hpos. rewrite prefix_last by lia. cbn [andb].
      destruct ((type (e820 (count - 1))
                 =? efi_mem_to_e820_type (Type_ (mmap (Z.of_nat k * desc_size))))
                && (wrap64 (addr (e820 (count - 1)) + size (e820 (count - 1)))
                    =? PhysicalStart (mmap (Z.of_nat k * desc_size)))) eqn:Hm.
      * rewrite <- prefix_upd_last by lia.
        destruct (IH (S k) fuel count
                     (upd e820 (count - 1)
                        (mkE820 (addr (e820 (count - 1)))
                           (wrap64 (size (e820 (count - 1))
                              + wrap64 (NumberOfPages
                                  (mmap (Z.of_nat k * desc_size)) * 4096)))
                           (type (e820 (count - 1))))))
          as (c' & e' & H1 & H2 & H3); [lia | lia | lia |].
        exists c', e'. repeat split; try assumption; lia.
      * rewrite <- prefix_upd_end by lia.
        destruct (IH (S k) fuel (count + 1)
                     (upd e820 count
                        (mkE820 (PhysicalStart (mmap (Z.of_nat k * desc_size)))
                           (wrap64 (NumberOfPages
                              (mmap (Z.of_nat k * desc_size)) * 4096))
                           (efi_mem_to_e820_type
                              (Type_ (mmap (Z.of_nat k * desc_size)))))))
          as (c' & e' & H1 & H2 & H3); [lia | lia | lia |].
        exists c', e'. repeat split; try assumption; lia.
    + apply Z.ltb_ge in Hpos. assert (count = 0) by lia. subst count.
      cbn [andb]. rewrite (prefix_nonpos e820 0) by lia. cbn [last app].
      set (new := mkE820 (PhysicalStart (mmap (Z.of_nat k * desc_size)))
                    (wrap64 (NumberOfPages (mmap (Z.of_nat k * desc_size)) * 4096))
                    (efi_mem_to_e820_type (Type_ (mmap (Z.of_nat k * desc_size))))).
      assert (E : [new] = prefix (upd e820 0 new) (0 + 1)).
      { rewrite prefix_upd_end by lia. now rewrite prefix_nonpos by lia. }
      rewrite E.
      destruct (IH (S k) fuel (0 + 1) (upd e820 0 new))
        as (c' & e' & H1 & H2 & H3); [lia | lia | lia |].
      exists c', e'. repeat split; try assumption; lia.
Qed.

End E820_refinement.

Lemma efi_mem_to_e820_type_cases (t : Z) :
  let ram := [E820.EfiLoaderCode; E820.EfiLoaderData; E820.EfiBootServicesCode;
              E820.EfiBootServicesData; E820.EfiConventionalMemory] in
  (In t ram -> E820.efi_mem_to_e820_type t = 1)
  /\ (t = E820.EfiACPIReclaimMemory -> E820.efi_mem_to_e820_type t = 3)
  /\ (t = E820.EfiACPIMemoryNVS -> E820.efi_mem_to_e820_type t = 4)
  /\ (~ In t ram -> t <> E820.EfiACPIReclaimMemory ->
      t <> E820.EfiACPIMemoryNVS -> E820.efi_mem_to_e820_type t = 2).
Proof.
  cbv zeta. unfold E820.efi_mem_to_e820_type.
  repeat split.
  - cbn [In]. intros [<- | [<- | [<- | [<- | [<- | []]]]]]; reflexivity.
  - intros ->. reflexivity.
  - intros ->. reflexivity.
  - cbn [In]. intros Hram H3 H4.
    repeat match goal with
    | |- context [?a =? ?b] =>
        destruct (Z.eqb_spec a b); [subst; tauto |]
    end.
    reflexivity.
Qed.

Lemma merges_iff e820 count t a :
  E820.merges e820 count t a = true
  <-> 0 < count
      /\ E820.type (e820 (count - 1)) = t
      /\ wrap64 (E820.addr (e820 (count - 1)) + E820.size (e820 (count - 1))) = a.
Proof.
  unfold E820.merges. rewrite !andb_true_iff, Z.ltb_lt, !Z.eqb_eq. tauto.
Qed.

(** C6. The EFI-memory-map-to-E820 conversion (boot/linux.c,
    [sb_efi_memmap_to_e820]):
    - maps loader code/data, boot-services code/data and conventional
      memory to 1, ACPI-reclaim to 3, ACPI-NVS to 4 and every other
      firmware type to 2;
    - in one pass of its loop merges the descriptor into the previous
      output entry exactly when an entry exists, the mapped types are
      equal and [prev.addr + prev.size] (in 64-bit arithmetic) equals the
      descriptor's start, adding the sizes and keeping the count; it
      appends a new entry and advances the count otherwise; either way
      the cursor moves by [desc_size];
    - for every map walked with a positive stride returns, and what it
      returns is the specification's coalescing of the descriptors found
      at offsets 0, desc_size, 2*desc_size, ... below [mmap_size], with at
      most [max_entries] entries, hence at most 128 in the loader;
    - on the map of scenario 6 emits exactly {0x0, 0x3000, 1} and
      {0x4000, 0x1000, 3}. *)
Theorem C6_memmap_to_e820 :
  (forall t, let ram := [E820.EfiLoaderCode; E820.EfiLoaderData;
                          E820.EfiBootServicesCode; E820.EfiBootServicesData;
                          E820.EfiConventionalMemory] in
     (In t ram -> E820.efi_mem_to_e820_type t = 1)
     /\ (t = E820.EfiACPIReclaimMemory -> E820.efi_mem_to_e820_type t = 3)
     /\ (t = E820.EfiACPIMemoryNVS -> E820.efi_mem_to_e820_type t = 4)
     /\ (~ In t ram -> t <> E820.EfiACPIReclaimMemory ->
         t <> E820.EfiACPIMemoryNVS -> E820.efi_mem_to_e820_type t = 2))
  /\ (forall mmap desc_size p count e820,
        let md   := mmap p in
        let kind := E820.efi_mem_to_e820_type (E820.Type_ md) in
        let sz   := wrap64 (E820.NumberOfPages md * 4096) in
        let prev := e820 (count - 1) in
        let abut := 0 < count /\ E820.type prev = kind
                    /\ wrap64 (E820.addr prev + E820.size prev)
                       = E820.PhysicalStart md in
        (abut ->
           E820.e820_body mmap desc_size (p, count, e820)
           = (p + desc_size, count,
              upd e820 (count - 1)
                (E820.mkE820 (E820.addr prev)
                   (wrap64 (E820.size prev + sz)) (E820.type prev))))
        /\ (~ abut ->
           E820.e820_body mmap desc_size (p, count, e820)
           = (p + desc_size, count + 1,
              upd e820 count (E820.mkE820 (E820.PhysicalStart md) sz kind))))
  /\ (forall mmap mmap_size desc_size e820 max_entries,
        0 < desc_size -> 0 <= max_entries ->
        exists count e820',
          E820.sb_efi_memmap_to_e820 mmap mmap_size desc_size e820 max_entries
          = Some (count, e820')
          /\ prefix e820' count
             = E820.coalesce_spec max_entries
                 (E820.stride_descs mmap mmap_size desc_size) []
          /\ 0 <= count <= max_entries)
  /\ (forall mmap mmap_size desc_size e820,
        0 < desc_size ->
        exists count e820',
          E820.sb_efi_memmap_to_e820 mmap mmap_size desc_size e820 128
          = Some (count, e820')
          /\ (length (prefix e820' count) <= 128)%nat)
  /\ (forall e820,
        E820.emitted
          (E820.sb_efi_memmap_to_e820 E820.scenario6_map 120 40 e820 128)
        = Some [E820.mkE820 0x0 0x3000 1; E820.mkE820 0x4000 0x1000 3]).
Proof.
  assert (R : forall mmap mmap_size desc_size e820 max_entries,
        0 < desc_size -> 0 <= max_entries ->
        exists count e820',
          E820.sb_efi_memmap_to_e820 mmap mmap_size desc_size e820 max_entries
          = Some (count, e820')
          /\ prefix e820' count
             = E820.coalesce_spec max_entries
                 (E820.stride_descs mmap mmap_size desc_size) []
          /\ 0 <= count <= max_entries).
  { intros mmap mmap_size desc_size e820 max_entries Hd Hmax.
    destruct (e820_loop_refines mmap mmap_size desc_size max_entries Hd
                (E820.visited_count mmap_size desc_size) 0
                (Z.to_nat mmap_size + Z.to_nat max_entries) 0 e820)
      as (c' & e' & H1 & H2 & H3).
    - reflexivity.
    - pose proof (visited_le_size mmap_size desc_size Hd). lia.
    - lia.
    - exists c', e'. unfold E820.sb_efi_memmap_to_e820, E820.stride_descs.
      change (Z.of_nat 0 * desc_size) with 0 in H1.
      rewrite H1, H2, (prefix_nonpos e820 0) by lia.
      repeat split; lia. }
  split; [exact efi_mem_to_e820_type_cases |].
  split.
  { intros mmap desc_size p count e820. cbv zeta. unfold E820.e820_body.
    split; intros H.
    - apply merges_iff in H. now rewrite H.
    - rewrite <- merges_iff in H. apply not_true_is_false in H. now rewrite H. }
  split; [exact R |].
  split.
  { intros mmap mmap_size desc_size e820 Hd.
    destruct (R mmap mmap_size desc_size e820 128 Hd ltac:(lia))
      as (c & e' & H1 & _ & H3).
    exists c, e'. split; [assumption |]. rewrite prefix_length. lia. }
  intros e820.
  destruct (R E820.scenario6_map 120 40 e820 128 ltac:(lia) ltac:(lia))
    as (c & e' & H1 & H2 & _).
  rewrite H1. cbn [E820.emitted]. rewrite H2. reflexivity.
Qed.

(** The refinement part of C6 at the map of scenario 6. *)
Lemma C6_memmap_to_e820_witness :
  0 < 40 /\ 0 <= 128
  /\ exists count e820',
       E820.sb_efi_memmap_to_e820 E820.scenario6_map 120 40
         (fun _ => E820.mkE820 0 0 0) 128 = Some (count, e820')
       /\ prefix e820' count
          = E820.coalesce_spec 128 (E820.stride_descs E820.scenario6_map 120 40) []
       /\ 0 <= count <= 128.
Proof.
  split; [lia | split; [lia |]].
  apply (proj1 (proj2 (proj2 C6_memmap_to_e820))); lia.
Defined.

(** ** boot/linux.c: the EFI handover entry point *)

Import Linux.

Lemma load_le_range n m off : 0 <= load_le n m off < 2 ^ (8 * Z.of_nat n).
Proof.
  revert off. induction n as [| n IH]; intros off.
  - simpl. lia.
  - cbn [load_le]. specialize (IH (off + 1)).
    replace (8 * Z.of_nat (S n)) with (8 + 8 * Z.of_nat n) by lia.
    rewrite Z.pow_add_r by lia.
    assert (0 <= wrap8 (m off) < 2 ^ 8) by (apply Z.mod_pos_bound; lia).
    change (2 ^ 8) with 256 in *. nia.
Qed.

Lemma wrap64_add_l a b : wrap64 (wrap64 a + b) = wrap64 (a + b).
Proof. unfold wrap64. now rewrite Zplus_mod_idemp_l. Qed.

Lemma setup_size_of_eq kernel :
  let s := Loader.hdr_field kernel "setup_sects" in
  Linux.setup_size_of kernel = ((if s =? 0 then 4 else s) + 1) * 512.
Proof.
  cbv zeta. unfold Linux.setup_size_of.
  pose proof (load_le_range 1 kernel
                (0x1F1 + offsetof "setup_sects" Loader.LinuxSetupHeader)) as R.
  change (2 ^ (8 * Z.of_nat 1)) with 256 in R.
  change (load_le 1 kernel
            (0x1F1 + offsetof "setup_sects" Loader.LinuxSetupHeader))
    with (Loader.hdr_field kernel "setup_sects") in R.
  unfold wrap64. apply Z.mod_small.
  destruct (Z.eqb_spec (Loader.hdr_field kernel "setup_sects") 0); lia.
Qed.

(** C2 (as the code has it).  In the EFI handover path the jump goes to
    kernel_buffer + setup_size + handover_offset + 512 (64-bit address
    arithmetic), where setup_size = (setup_sects + 1) * 512 and a
    setup_sects field of 0 stands for 4.  The jump happens exactly when
    handover_offset is not 0 and the zero page could be allocated.  The
    setup size agrees with (max(setup_sects, 4) + 1) * 512 when the field
    is 0 or at least 4; for 1, 2 and 3 it is 1024, 1536 and 2048. *)
Theorem C2_handover_entry fw kernel kernel_buf kernel_size cmdline
    initrd_addr initrd_size t :
  let s := Loader.hdr_field kernel "setup_sects" in
  let h := Loader.hdr_field kernel "handover_offset" in
  let setup_size := ((if s =? 0 then 4 else s) + 1) * 512 in
  let bp_ptr := fw_AllocateZeroPool fw t (sizeof Loader.LinuxBootParams) in
  let out := boot_efi_handover fw kernel kernel_buf kernel_size cmdline
               initrd_addr initrd_size t in
  (h <> 0 -> bp_ptr <> None ->
     jump_entry (fst out) = Some (wrap64 (kernel_buf + setup_size + h + 512))
     /\ snd out = EFI_LOAD_ERROR)
  /\ (h <> 0 -> bp_ptr <> None -> 0 <= kernel_buf ->
      kernel_buf + setup_size + h + 512 < 2 ^ 64 ->
      jump_entry (fst out) = Some (kernel_buf + setup_size + h + 512))
  /\ (h = 0 -> out = (t, EFI_UNSUPPORTED))
  /\ (h <> 0 -> bp_ptr = None ->
      out = (t ++ [EvAllocateZeroPool (sizeof Loader.LinuxBootParams) None],
             EFI_OUT_OF_RESOURCES))
  /\ (s = 0 \/ 4 <= s -> setup_size = setup_size_spec s)
  /\ (1 <= s <= 3 -> setup_size = (s + 1) * 512 /\ setup_size < setup_size_spec s).
Proof.
  cbv zeta.
  set (s := Loader.hdr_field kernel "setup_sects").
  set (h := Loader.hdr_field kernel "handover_offset").
  assert (Hs : 0 <= s < 256).
  { subst s. apply (load_le_range 1). }
  assert (Hh : 0 <= h < 2 ^ 32).
  { subst h. apply (load_le_range 4). }
  assert (J : h <> 0 ->
    fw_AllocateZeroPool fw t (sizeof Loader.LinuxBootParams) <> None ->
    jump_entry (fst (boot_efi_handover fw kernel kernel_buf kernel_size cmdline
                       initrd_addr initrd_size t))
    = Some (wrap64 (kernel_buf + ((if s =? 0 then 4 else s) + 1) * 512 + h + 512))
    /\ snd (boot_efi_handover fw kernel kernel_buf kernel_size cmdline
              initrd_addr initrd_size t) = EFI_LOAD_ERROR).
  { intros Hh0 Hbp. unfold boot_efi_handover. fold h.
    destruct (Z.eqb_spec h 0) as [| _]; [contradiction |].
    unfold bind, AllocateZeroPool, AllocatePool, emit, ret.
    destruct (fw_AllocateZeroPool fw t (sizeof Loader.LinuxBootParams))
      as [ptr |] eqn:E; [| contradiction].
    cbn [fst snd]. unfold jump_entry. rewrite last_snoc.
    rewrite <- Z.add_assoc, wrap64_add_l, Z.add_assoc.
    rewrite setup_size_of_eq. fold s. split; reflexivity. }
  repeat split.
  - now apply J.
  - now apply J.
  - intros Hh0 Hbp Hk Hlt. destruct (J Hh0 Hbp) as [-> _]. f_equal.
    apply Z.mod_small. destruct (s =? 0); lia.
  - intros Hh0. unfold boot_efi_handover. fold h. rewrite Hh0. reflexivity.
  - intros Hh0 Hbp. unfold boot_efi_handover. fold h.
    destruct (Z.eqb_spec h 0) as [| _]; [contradiction |].
    unfold bind, AllocateZeroPool, ret. now rewrite Hbp.
  - intros [-> | H4]; unfold setup_size_spec.
    + reflexivity.
    + destruct (Z.eqb_spec s 0); lia.
  - destruct (Z.eqb_spec s 0); lia.
  - unfold setup_size_spec. destruct (Z.eqb_spec s 0); lia.
Qed.

(** C2 at a kernel with four setup sectors on the sample firmware. *)
Lemma C2_handover_entry_witness :
  jump_entry (fst (boot_efi_handover fw_ok (sample_kernel 4 0x190) 0x1000000
                     0x800000 (Util.str "quiet") 0 0 []))
  = Some (wrap64 (0x1000000 + (4 + 1) * 512 + 0x190 + 512)).
Proof.
  apply (proj1 (proj1 (C2_handover_entry fw_ok (sample_kernel 4 0x190) 0x1000000
                  0x800000 (Util.str "quiet") 0 0 [])
                  ltac:(vm_compute; discriminate) ltac:(discriminate))).
Defined.

(** C2 as stated fails: with setup_sects = 1 the jump goes to
    kernel_buffer + 1024 + handover_offset + 512, whereas the stated
    formula, with setup_size = (max(1, 4) + 1) * 512 = 2560, gives an
    address 1536 bytes further on. *)
Lemma C2_counterexample :
  let kernel := sample_kernel 1 0x190 in
  let out := boot_efi_handover fw_ok kernel 0x1000000 0x800000
               (Util.str "quiet") 0 0 [] in
  Loader.hdr_field kernel "setup_sects" = 1
  /\ Loader.hdr_field kernel "handover_offset" = 0x190
  /\ setup_size_spec 1 = 2560
  /\ jump_entry (fst out) = Some (0x1000000 + 1024 + 0x190 + 512)
  /\ jump_entry (fst out) <> Some (0x1000000 + setup_size_spec 1 + 0x190 + 512).
Proof.
  cbv zeta. repeat split; try (vm_compute; reflexivity).
  vm_compute. discriminate.
Qed.

(** ** boot/linux.c: ExitBootServices in the legacy path *)

Lemma exit_calls_app t1 t2 :
  exit_calls (t1 ++ t2) = (exit_calls t1 + exit_calls t2)%nat.
Proof.
  induction t1 as [| e t1 IH]; [reflexivity |].
  destruct e; simpl; rewrite IH; reflexivity.
Qed.

Lemma after_first_exit_app t1 t2 :
  exit_calls t1 = O -> after_first_exit (t1 ++ t2) = after_first_exit t2.
Proof.
  induction t1 as [| e t1 IH]; [reflexivity |].
  destruct e; simpl; intros H; try discriminate; auto.
Qed.

Lemma exit_and_jump_trace fw bp kernel_addr e820_stack t :
  let out := exit_and_jump fw bp kernel_addr e820_stack t in
  exists new,
    fst out = t ++ new
    /\ ((exit_calls new = O /\ jump_entry new = None)
        \/ exit_discipline kernel_addr new (snd out)).
Proof.
  cbv zeta. unfold exit_and_jump, bind, GetMemoryMap, AllocatePool, ret.
  set (r1 := fw_GetMemoryMap fw t 0 None).
  set (t1 := t ++ [EvGetMemoryMap 0 None r1]).
  set (sz0 := wrap64 (gm_size r1 + gm_desc_size r1 * 4)).
  destruct (fw_AllocatePool fw t1 sz0) as [m |] eqn:Em.
  2:{ exists [EvGetMemoryMap 0 None r1; EvAllocatePool sz0 None].
      subst t1. rewrite <- app_assoc. split; [reflexivity |]. left.
      split; reflexivity. }
  set (t2 := t1 ++ [EvAllocatePool sz0 (Some m)]).
  set (r2 := fw_GetMemoryMap fw t2 sz0 (Some m)).
  set (t3 := t2 ++ [EvGetMemoryMap sz0 (Some m) r2]).
  assert (E3 : t3 = t ++ [EvGetMemoryMap 0 None r1; EvAllocatePool sz0 (Some m);
                          EvGetMemoryMap sz0 (Some m) r2]).
  { subst t3 t2 t1. now rewrite <- !app_assoc. }
  assert (noexit : exists new, t3 = t ++ new /\ exit_calls new = O
                    /\ jump_entry new = None).
  { eexists. split; [exact E3 |]. split; reflexivity. }
  destruct (EFI_ERROR (gm_status r2)) eqn:Er2.
  { destruct noexit as (new & -> & H). exists new. split; [reflexivity |].
    left. exact H. }
  destruct (E820.sb_efi_memmap_to_e820 (gm_descs r2) (gm_size r2)
              (gm_desc_size r2) e820_stack 128) as [[e820_count e820] |].
  2:{ destruct noexit as (new & -> & H). exists new. split; [reflexivity |].
      left. exact H. }
  unfold ExitBootServices, exit_retry, bind, GetMemoryMap, ExitBootServices,
    emit, ret.
  set (st := fw_ExitBootServices fw t3 (gm_key r2)).
  set (t4 := t3 ++ [EvExitBootServices (gm_key r2) st]).
  set (bp' := CopyMem _ _ _ _ _).
  destruct (EFI_ERROR st) eqn:Est.
  - set (r3 := fw_GetMemoryMap fw t4 0 None).
    set (t5 := t4 ++ [EvGetMemoryMap 0 None r3]).
    set (sz := wrap64 (gm_size r3 + gm_desc_size r3 * 4)).
    set (r4 := fw_GetMemoryMap fw t5 sz (Some m)).
    set (t6 := t5 ++ [EvGetMemoryMap sz (Some m) r4]).
    destruct (EFI_ERROR (gm_status r4)) eqn:Er4; cbn [negb].
    + rewrite Er4. cbn [fst snd].
      exists ([EvGetMemoryMap 0 None r1]
              ++ [EvAllocatePool sz0 (Some m); EvGetMemoryMap sz0 (Some m) r2;
                  EvExitBootServices (gm_key r2) st]
              ++ [EvGetMemoryMap 0 None r3; EvGetMemoryMap sz (Some m) r4]).
      split.
      { subst t6 t5 t4. rewrite E3. now rewrite <- !app_assoc. }
      right. exists [EvGetMemoryMap 0 None r1], sz0, m, r2, st,
        [EvGetMemoryMap 0 None r3; EvGetMemoryMap sz (Some m) r4].
      split; [reflexivity |]. split; [reflexivity |]. right.
      split; [assumption |]. exists r3, sz, r4, []. split; [reflexivity |].
      left. auto.
    + set (st2 := fw_ExitBootServices fw t6 (gm_key r4)).
      set (t7 := t6 ++ [EvExitBootServices (gm_key r4) st2]).
      destruct (EFI_ERROR st2) eqn:Est2; cbn [fst snd].
      * exists ([EvGetMemoryMap 0 None r1]
              ++ [EvAllocatePool sz0 (Some m); EvGetMemoryMap sz0 (Some m) r2;
                  EvExitBootServices (gm_key r2) st]
              ++ [EvGetMemoryMap 0 None r3; EvGetMemoryMap sz (Some m) r4;
                  EvExitBootServices (gm_key r4) st2]).
        split.
        { subst t7 t6 t5 t4. rewrite E3. now rewrite <- !app_assoc. }
        right. exists [EvGetMemoryMap 0 None r1], sz0, m, r2, st,
          [EvGetMemoryMap 0 None r3; EvGetMemoryMap sz (Some m) r4;
           EvExitBootServices (gm_key r4) st2].
        split; [reflexivity |]. split; [reflexivity |]. right.
        split; [assumption |]. exists r3, sz, r4,
          [EvExitBootServices (gm_key r4) st2]. split; [reflexivity |].
        right. split; [assumption |]. exists st2, []. split; [reflexivity |].
        left. auto.
      * exists ([EvGetMemoryMap 0 None r1]
              ++ [EvAllocatePool sz0 (Some m); EvGetMemoryMap sz0 (Some m) r2;
                  EvExitBootServices (gm_key r2) st]
              ++ [EvGetMemoryMap 0 None r3; EvGetMemoryMap sz (Some m) r4;
                  EvExitBootServices (gm_key r4) st2;
                  EvEntry64 kernel_addr bp']).
        split.
        { subst t7 t6 t5 t4. rewrite E3. now rewrite <- !app_assoc. }
        right. exists [EvGetMemoryMap 0 None r1], sz0, m, r2, st,
          [EvGetMemoryMap 0 None r3; EvGetMemoryMap sz (Some m) r4;
           EvExitBootServices (gm_key r4) st2; EvEntry64 kernel_addr bp'].
        split; [reflexivity |]. split; [reflexivity |]. right.
        split; [assumption |]. exists r3, sz, r4,
          [EvExitBootServices (gm_key r4) st2; EvEntry64 kernel_addr bp'].
        split; [reflexivity |].
        right. split; [assumption |].
        exists st2, [EvEntry64 kernel_addr bp']. split; [reflexivity |].
        right. split; [assumption |]. exists bp'. auto.
  - rewrite Est. cbn [fst snd].
    exists ([EvGetMemoryMap 0 None r1]
            ++ [EvAllocatePool sz0 (Some m); EvGetMemoryMap sz0 (Some m) r2;
                EvExitBootServices (gm_key r2) st]
            ++ [EvEntry64 kernel_addr bp']).
    split.
    { subst t4. rewrite E3. now rewrite <- !app_assoc. }
    right. exists [EvGetMemoryMap 0 None r1], sz0, m, r2, st,
      [EvEntry64 kernel_addr bp'].
    split; [reflexivity |]. split; [reflexivity |]. left.
    split; [assumption |]. exists bp'. auto.
Qed.

Lemma after_first_exit_none t : exit_calls t = O -> after_first_exit t = [].
Proof.
  induction t as [| e t IH]; [reflexivity |].
  destruct e; simpl; intros H; try discriminate; auto.
Qed.

Lemma exit_discipline_prepend k p new r :
  exit_calls p = O -> exit_discipline k new r -> exit_discipline k (p ++ new) r.
Proof.
  intros Hp (pre & sz0 & m & r2 & st & post & -> & Hpre & H).
  exists (p ++ pre), sz0, m, r2, st, post.
  split; [now rewrite <- app_assoc |].
  split; [rewrite exit_calls_app; lia | exact H].
Qed.

Lemma exit_discipline_bounds k new r :
  exit_discipline k new r ->
  (1 <= exit_calls new <= 2)%nat
  /\ forallb (fun e => negb (is_allocation e)) (after_first_exit new) = true.
Proof.
  intros (pre & sz0 & m & r2 & st & post & -> & Hpre & H).
  rewrite exit_calls_app, Hpre, after_first_exit_app by assumption.
  cbn [app exit_calls after_first_exit plus].
  destruct H as [(_ & bp & -> & _) | (_ & r3 & sz & r4 & rest & -> & H)].
  - split; [simpl; lia | reflexivity].
  - destruct H as [(_ & -> & _) | (_ & st2 & rest2 & -> & H)].
    + split; [simpl; lia | reflexivity].
    + destruct H as [(_ & -> & _) | (_ & bp & -> & _)];
        (split; [simpl; lia | reflexivity]).
Qed.

(** C7 (as the code has it).  In every run of the legacy bzImage path, on
    every firmware: ExitBootServices is called at most twice; no memory is
    allocated after its first call; and a run that reaches the call has
    the shape [exit_discipline]: after a failed first call the size is
    queried and the map is fetched again into the buffer allocated
    before, then, if that fetch succeeds, ExitBootServices is called once
    more with the new key and either the kernel is entered or the error of
    this second call is returned; if the fetch fails its error is returned
    and ExitBootServices is not called again. *)
Theorem C7_exit_boot_services fw kernel kernel_buf kernel_size cmdline
    initrd_addr initrd_size e820_stack t :
  let out := boot_legacy_bzimage fw kernel kernel_buf kernel_size cmdline
               initrd_addr initrd_size e820_stack t in
  exists new,
    fst out = t ++ new
    /\ (exit_calls new <= 2)%nat
    /\ forallb (fun e => negb (is_allocation e)) (after_first_exit new) = true
    /\ ((exit_calls new = O /\ jump_entry new = None)
        \/ exists kernel_addr, exit_discipline kernel_addr new (snd out)).
Proof.
  cbv zeta.
  assert (fin : forall new r,
    (exit_calls new = O /\ jump_entry new = None)
    \/ (exists k, exit_discipline k new r) ->
    (exit_calls new <= 2)%nat
    /\ forallb (fun e => negb (is_allocation e)) (after_first_exit new) = true
    /\ ((exit_calls new = O /\ jump_entry new = None)
        \/ exists k, exit_discipline k new r)).
  { intros new r H. destruct H as [[H0 Hj] | [k H]].
    - rewrite H0, (after_first_exit_none _ H0). repeat split; auto.
    - destruct (exit_discipline_bounds _ _ _ H) as [B1 B2].
      repeat split; [lia | assumption | right; eauto]. }
  unfold boot_legacy_bzimage, bind, AllocateZeroPool, AllocatePages,
    AllocatePool, ret.
  set (sz := sizeof Loader.LinuxBootParams).
  destruct (fw_AllocateZeroPool fw t sz) as [bp_ptr |] eqn:Ebp.
  2:{ exists [EvAllocateZeroPool sz None]. split; [reflexivity |].
      apply fin. left. split; reflexivity. }
  set (pages := wrap64 _ / 4096).
  set (addr0 := if Loader.hdr_field kernel "pref_address" =? 0 then _ else _).
  set (t1 := t ++ [EvAllocateZeroPool sz (Some bp_ptr)]).
  set (r := fw_AllocatePages fw t1 AllocateAddress pages addr0).
  set (e1 := EvAllocatePages AllocateAddress pages addr0 (fst r) (snd r)).
  set (t2 := t1 ++ [e1]).
  assert (tail : forall (r' : EFI_STATUS * Z) (pfx : list event) tcur,
    tcur = t ++ pfx -> exit_calls pfx = O -> jump_entry pfx = None ->
    let out := legacy_load_and_exit fw kernel cmdline initrd_addr initrd_size
                 e820_stack (Loader.bp_init kernel) r' tcur in
    exists new, fst out = t ++ new
      /\ (exit_calls new <= 2)%nat
      /\ forallb (fun e => negb (is_allocation e)) (after_first_exit new) = true
      /\ ((exit_calls new = O /\ jump_entry new = None)
          \/ exists k, exit_discipline k new (snd out))).
  { intros r' pfx tcur -> Hp Hj. cbv zeta.
    unfold legacy_load_and_exit, bind, AllocatePool, ret.
    destruct (EFI_ERROR (fst r')).
    - exists pfx. split; [reflexivity |]. apply fin. left. auto.
    - set (cl := fw_AllocatePool fw (t ++ pfx) _).
      set (bp := Loader.bp_cmdline_initrd _ _ _ _).
      set (tc := (t ++ pfx) ++ [EvAllocatePool _ cl]).
      destruct (exit_and_jump_trace fw bp (snd r') e820_stack tc)
        as (new & Hnew & H).
      exists (pfx ++ [EvAllocatePool (wrap64 (Util.sb_strlen8 cmdline + 1)) cl]
              ++ new).
      split.
      { rewrite Hnew. subst tc. now rewrite <- !app_assoc. }
      apply fin. destruct H as [[H0 Hj'] | H].
      + left. split.
        * rewrite !exit_calls_app, Hp, H0. reflexivity.
        * unfold jump_entry in *. rewrite app_assoc.
          destruct new as [| e new] using rev_ind.
          -- rewrite app_nil_r, last_snoc. reflexivity.
          -- rewrite app_assoc, last_snoc. rewrite last_snoc in Hj'. exact Hj'.
      + right. exists (snd r'). rewrite app_assoc.
        apply exit_discipline_prepend; [| assumption].
        rewrite exit_calls_app, Hp. reflexivity. }
  destruct (EFI_ERROR (fst r)) eqn:Er.
  - destruct (negb (Loader.hdr_field kernel "relocatable_kernel" =? 0)).
    + set (r' := fw_AllocatePages fw t2 AllocateAnyPages pages (snd r)).
      apply (tail r' [EvAllocateZeroPool sz (Some bp_ptr); e1;
                      EvAllocatePages AllocateAnyPages pages (snd r)
                        (fst r') (snd r')]).
      * subst t2 t1. now rewrite <- !app_assoc.
      * reflexivity.
      * reflexivity.
    + apply (tail r [EvAllocateZeroPool sz (Some bp_ptr); e1]).
      * subst t2 t1. now rewrite <- !app_assoc.
      * reflexivity.
      * reflexivity.
  - apply (tail r [EvAllocateZeroPool sz (Some bp_ptr); e1]).
    + subst t2 t1. now rewrite <- !app_assoc.
    + reflexivity.
    + reflexivity.
Qed.

(** C7 as stated fails: on a firmware whose first ExitBootServices reports
    a stale key and whose second map fetch fails, ExitBootServices is
    called once only, so there is no retry, and the error of the fetch
    is returned. *)
Lemma C7_counterexample :
  let out := boot_legacy_bzimage fw_stale (sample_kernel 4 0) 0x1000000
               0x800000 (Util.str "quiet") 0 0 (fun _ => E820.mkE820 0 0 0) [] in
  exit_statuses (fst out) = [EFI_INVALID_PARAMETER]
  /\ EFI_ERROR EFI_INVALID_PARAMETER = true
  /\ exit_calls (fst out) = 1%nat
  /\ exit_calls (fst out) <> 2%nat
  /\ snd out = Some EFI_BUFFER_TOO_SMALL.
Proof.
  cbv zeta. repeat split; try (vm_compute; reflexivity).
  vm_compute. discriminate.
Qed.

(** A stale key followed by a successful fetch: one retry, then the jump. *)
Example legacy_retry_once :
  let out := boot_legacy_bzimage fw_stale_once (sample_kernel 4 0) 0x1000000
               0x800000 (Util.str "quiet") 0 0 (fun _ => E820.mkE820 0 0 0) [] in
  exit_statuses (fst out) = [EFI_INVALID_PARAMETER; EFI_SUCCESS]
  /\ jump_entry (fst out) = Some 0x1000000
  /\ forallb (fun e => negb (is_allocation e)) (after_first_exit (fst out)) = true.
Proof. cbv zeta. repeat split; vm_compute; reflexivity. Qed.

(** ** boot/loader.h: the layout of the zero page *)

Lemma store_le_other n m off v j :
  (off <=? j) && (j <? off + n) = false -> store_le n m off v j = m j.
Proof. unfold store_le. now intros ->. Qed.

Lemma CopyMem_other dst doff src soff n j :
  (doff <=? j) && (j <? doff + n) = false -> CopyMem dst doff src soff n j = dst j.
Proof. unfold CopyMem. now intros ->. Qed.

Lemma CopyMem_below dst doff src soff n j :
  j < doff -> CopyMem dst doff src soff n j = dst j.
Proof.
  intros H. unfold CopyMem.
  replace (doff <=? j) with false by (symmetry; apply Z.leb_gt; exact H).
  reflexivity.
Qed.

(** The zero page with which the legacy path enters the kernel: the page
    it was given, with the count of the converted map stored in the member
    [e820_entries] and the table copied to the literal offset 0x2D0. *)
Lemma exit_and_jump_zero_page fw bp kernel_addr e820_stack t bp' :
  jump_bp (fst (exit_and_jump fw bp kernel_addr e820_stack t)) = Some bp' ->
  exists r e820_count e820,
    E820.sb_efi_memmap_to_e820 (gm_descs r) (gm_size r) (gm_desc_size r)
      e820_stack 128 = Some (e820_count, e820)
    /\ bp' = CopyMem
               (store_le 1 bp (offsetof "e820_entries" Loader.LinuxBootParams)
                         (wrap8 e820_count))
               0x2D0 (Loader.e820_bytes e820) 0
               (wrap64 (e820_count * sizeof Loader.E820Entry)).
Proof.
  unfold exit_and_jump, bind, GetMemoryMap, AllocatePool, ret, jump_bp.
  set (r1 := fw_GetMemoryMap fw t 0 None).
  set (t1 := t ++ [EvGetMemoryMap 0 None r1]).
  set (sz0 := wrap64 (gm_size r1 + gm_desc_size r1 * 4)).
  destruct (fw_AllocatePool fw t1 sz0) as [m |]; cbn [fst snd].
  2:{ rewrite last_snoc. discriminate. }
  set (t2 := t1 ++ [EvAllocatePool sz0 (Some m)]).
  set (r2 := fw_GetMemoryMap fw t2 sz0 (Some m)).
  destruct (EFI_ERROR (gm_status r2)); cbn [fst snd].
  { rewrite last_snoc. discriminate. }
  destruct (E820.sb_efi_memmap_to_e820 (gm_descs r2) (gm_size r2)
              (gm_desc_size r2) e820_stack 128)
    as [[e820_count e820] |] eqn:Ec; cbn [fst snd].
  2:{ rewrite last_snoc. discriminate. }
  unfold ExitBootServices, exit_retry, bind, GetMemoryMap, ExitBootServices,
    emit, ret.
  set (t3 := t2 ++ [EvGetMemoryMap sz0 (Some m) r2]).
  set (st := fw_ExitBootServices fw t3 (gm_key r2)).
  set (t4 := t3 ++ [EvExitBootServices (gm_key r2) st]).
  set (page := CopyMem _ _ _ _ _).
  assert (done : Some page = Some bp' ->
    exists r c e,
      E820.sb_efi_memmap_to_e820 (gm_descs r) (gm_size r) (gm_desc_size r)
        e820_stack 128 = Some (c, e)
      /\ bp' = CopyMem
                 (store_le 1 bp (offsetof "e820_entries" Loader.LinuxBootParams)
                           (wrap8 c))
                 0x2D0 (Loader.e820_bytes e) 0
                 (wrap64 (c * sizeof Loader.E820Entry))).
  { intros [= <-]. exists r2, e820_count, e820. split; [exact Ec | reflexivity]. }
  destruct (EFI_ERROR st) eqn:Est.
  - set (r3 := fw_GetMemoryMap fw t4 0 None).
    set (t5 := t4 ++ [EvGetMemoryMap 0 None r3]).
    set (sz := wrap64 (gm_size r3 + gm_desc_size r3 * 4)).
    set (r4 := fw_GetMemoryMap fw t5 sz (Some m)).
    set (t6 := t5 ++ [EvGetMemoryMap sz (Some m) r4]).
    destruct (EFI_ERROR (gm_status r4)) eqn:Er4; cbn [negb].
    + rewrite Er4. cbn [fst snd]. subst t6. rewrite last_snoc. discriminate.
    + set (st2 := fw_ExitBootServices fw t6 (gm_key r4)).
      destruct (EFI_ERROR st2); cbn [fst snd]; rewrite last_snoc.
      * discriminate.
      * exact done.
  - rewrite Est. cbn [fst snd]. rewrite last_snoc. exact done.
Qed.

(** Every legacy boot that reaches the jump hands over a zero page whose
    byte 0x1C0 is the E820 count, whose byte 0x1E8 is the loader id and
    whose bytes from 0x1C9 are the setup header of the kernel image. *)
Lemma legacy_zero_page fw kernel kernel_buf kernel_size cmdline initrd_addr
    initrd_size e820_stack t bp' :
  jump_bp (fst (boot_legacy_bzimage fw kernel kernel_buf kernel_size cmdline
                  initrd_addr initrd_size e820_stack t)) = Some bp' ->
  load8 bp' Loader.PROTO_E820_ENTRIES = Loader.SUPERBOOT_LOADER_ID
  /\ load8 bp' 0x1C9 = Loader.hdr_field kernel "setup_sects"
  /\ exists r e820_count e820,
       E820.sb_efi_memmap_to_e820 (gm_descs r) (gm_size r) (gm_desc_size r)
         e820_stack 128 = Some (e820_count, e820)
       /\ load8 bp' 0x1C0 = wrap8 e820_count
       /\ forall j, 0 <= j < wrap64 (e820_count * 20) ->
            bp' (Loader.PROTO_E820_TABLE + j) = wrap8 (Loader.e820_bytes e820 j).
Proof.
  unfold boot_legacy_bzimage, bind, AllocateZeroPool, AllocatePages, ret.
  set (sz := sizeof Loader.LinuxBootParams).
  destruct (fw_AllocateZeroPool fw t sz) as [bp_ptr |]; cbn [fst snd].
  2:{ unfold jump_bp. rewrite last_snoc. discriminate. }
  set (pages := wrap64 _ / 4096).
  set (addr0 := if Loader.hdr_field kernel "pref_address" =? 0 then _ else _).
  set (t1 := t ++ [EvAllocateZeroPool sz (Some bp_ptr)]).
  set (r := fw_AllocatePages fw t1 AllocateAddress pages addr0).
  set (t2 := t1 ++ [EvAllocatePages AllocateAddress pages addr0 (fst r) (snd r)]).
  assert (tail : forall (r' : EFI_STATUS * Z) tcur,
    jump_bp tcur = None ->
    jump_bp (fst (legacy_load_and_exit fw kernel cmdline initrd_addr
                    initrd_size e820_stack (Loader.bp_init kernel) r' tcur))
      = Some bp' ->
    load8 bp' Loader.PROTO_E820_ENTRIES = Loader.SUPERBOOT_LOADER_ID
    /\ load8 bp' 0x1C9 = Loader.hdr_field kernel "setup_sects"
    /\ exists r e820_count e820,
         E820.sb_efi_memmap_to_e820 (gm_descs r) (gm_size r) (gm_desc_size r)
           e820_stack 128 = Some (e820_count, e820)
         /\ load8 bp' 0x1C0 = wrap8 e820_count
         /\ forall j, 0 <= j < wrap64 (e820_count * 20) ->
              bp' (Loader.PROTO_E820_TABLE + j)
              = wrap8 (Loader.e820_bytes e820 j)).
  { intros r' tcur Hnone.
    unfold legacy_load_and_exit, bind, AllocatePool, ret.
    destruct (EFI_ERROR (fst r')); cbn [fst snd].
    { rewrite Hnone. discriminate. }
    intros H.
    assert (H' : exists tc cl,
      jump_bp (fst (exit_and_jump fw
        (Loader.bp_cmdline_initrd
           (store_le 4 (Loader.bp_init kernel) (Loader.bp_hdr "code32_start")
              (wrap32 (snd r')))
           cl initrd_addr initrd_size)
        (snd r') e820_stack tc)) = Some bp').
    { eauto. }
    clear H. destruct H' as (tc & cl & H).
    apply exit_and_jump_zero_page in H.
    destruct H as (rr & c & e820 & Ec & ->).
    unfold load8, load_le.
    split; [| split].
    - rewrite CopyMem_below by (vm_compute; reflexivity).
      rewrite store_le_other by reflexivity.
      unfold Loader.bp_cmdline_initrd.
      rewrite !store_le_other by reflexivity.
      assert (E : forall m : memory,
        match cl with
        | Some ptr => store_le 4 m (Loader.bp_hdr "cmd_line_ptr") (wrap32 ptr)
        | None => m
        end Loader.PROTO_E820_ENTRIES = m Loader.PROTO_E820_ENTRIES).
      { intros m. destruct cl; [apply store_le_other |]; reflexivity. }
      rewrite E. rewrite store_le_other by reflexivity.
      unfold Loader.bp_init.
      rewrite !store_le_other by reflexivity.
      vm_compute. reflexivity.
    - rewrite CopyMem_below by (vm_compute; reflexivity).
      rewrite store_le_other by reflexivity.
      unfold Loader.bp_cmdline_initrd.
      rewrite !store_le_other by reflexivity.
      assert (E : forall m : memory,
        match cl with
        | Some ptr => store_le 4 m (Loader.bp_hdr "cmd_line_ptr") (wrap32 ptr)
        | None => m
        end 0x1C9 = m 0x1C9).
      { intros m. destruct cl; [apply store_le_other |]; reflexivity. }
      rewrite E. rewrite store_le_other by reflexivity.
      unfold Loader.bp_init.
      rewrite !store_le_other by reflexivity.
      unfold CopyMem, Loader.hdr_field, member.
      change (Z.to_nat (member_size "setup_sects" Loader.LinuxSetupHeader))
        with 1%nat.
      change ((offsetof "hdr" Loader.LinuxBootParams <=? 0x1C9)
              && (0x1C9 <? offsetof "hdr" Loader.LinuxBootParams
                           + sizeof Loader.LinuxSetupHeader)) with true.
      cbn [load_le]. cbv iota.
      change (0x1F1 + (0x1C9 - offsetof "hdr" Loader.LinuxBootParams))
        with (0x1F1 + offsetof "setup_sects" Loader.LinuxSetupHeader).
      unfold wrap8. rewrite Z.mod_mod by (vm_compute; discriminate).
      reflexivity.
    - exists rr, c, e820. split; [exact Ec |]. split.
      + rewrite CopyMem_below by (vm_compute; reflexivity).
        unfold store_le.
        change ((offsetof "e820_entries" Loader.LinuxBootParams <=? 0x1C0)
                && (0x1C0 <? offsetof "e820_entries" Loader.LinuxBootParams + 1))
          with true.
        cbv iota.
        change (0x1C0 - offsetof "e820_entries" Loader.LinuxBootParams) with 0.
        unfold byte_of, wrap8. change (2 ^ (8 * 0)) with 1.
        rewrite Z.div_1_r.
        change 256 with (2 ^ 8) at 1.
        rewrite !Z.mod_mod by (vm_compute; discriminate). lia.
      + intros j Hj. unfold CopyMem, Loader.PROTO_E820_TABLE.
        change (sizeof Loader.E820Entry) with 20.
        replace ((0x2D0 <=? 0x2D0 + j) && (0x2D0 + j <? 0x2D0 + wrap64 (c * 20)))
          with true.
        * f_equal. f_equal. lia.
        * symmetry. apply andb_true_iff. split; [apply Z.leb_le | apply Z.ltb_lt];
            lia. }
  destruct (EFI_ERROR (fst r)).
  - destruct (negb (Loader.hdr_field kernel "relocatable_kernel" =? 0));
      cbn [fst snd]; apply tail; unfold jump_bp, t2; rewrite last_snoc;
      reflexivity.
  - cbn [fst snd]. apply tail. unfold jump_bp, t2. rewrite last_snoc.
    reflexivity.
Qed.

(** C1 (defect in the code).  Under pack(1) the member [e820_entries] of
    LinuxBootParams lies at byte 0x1C0 and [hdr] at 0x1C9, not at the
    0x1E8 and 0x1F1 of the boot protocol and of the member comments, and
    the record is 4056 bytes long, so the header's own static assertion
    (size 4096) does not hold.  Every legacy boot that enters the kernel
    therefore hands over a zero page with the E820 count at 0x1C0 and the
    setup header from 0x1C9 on; its byte 0x1E8 holds the loader id 0xFF.
    Only the E820 table, copied to a literal offset, is at 0x2D0.  The
    run on the sample kernel and the map of scenario 6 shows it: count 2
    at 0x1C0, 0xFF at 0x1E8, the two entries at 0x2D0. *)
Theorem C1_boot_params_layout :
  offsetof "e820_entries" Loader.LinuxBootParams = 0x1C0
  /\ offsetof "hdr" Loader.LinuxBootParams = 0x1C9
  /\ sizeof Loader.LinuxSetupHeader = 0x268 - 0x1F1
  /\ sizeof Loader.LinuxBootParams = 4056
  /\ Loader.static_assert_boot_params = false
  /\ (forall fw kernel kernel_buf kernel_size cmdline initrd_addr initrd_size
         e820_stack t bp,
         jump_bp (fst (boot_legacy_bzimage fw kernel kernel_buf kernel_size
                         cmdline initrd_addr initrd_size e820_stack t))
           = Some bp ->
         load8 bp Loader.PROTO_E820_ENTRIES = Loader.SUPERBOOT_LOADER_ID
         /\ load8 bp 0x1C9 = Loader.hdr_field kernel "setup_sects"
         /\ exists r e820_count e820,
              E820.sb_efi_memmap_to_e820 (gm_descs r) (gm_size r)
                (gm_desc_size r) e820_stack 128 = Some (e820_count, e820)
              /\ load8 bp 0x1C0 = wrap8 e820_count
              /\ forall j, 0 <= j < wrap64 (e820_count * 20) ->
                   bp (Loader.PROTO_E820_TABLE + j)
                   = wrap8 (Loader.e820_bytes e820 j))
  /\ let out := boot_legacy_bzimage fw_ok (sample_kernel 1 0) 0x1000000
                  0x800000 (Util.str "quiet") 0 0
                  (fun _ => E820.mkE820 0 0 0) [] in
     snd out = Some EFI_LOAD_ERROR
     /\ jump_entry (fst out) = Some 0x1000000
     /\ option_map
          (fun bp => (load8 bp 0x1C0, load8 bp Loader.PROTO_E820_ENTRIES,
                      load8 bp 0x1C9, load8 bp Loader.PROTO_SETUP_HEADER))
          (jump_bp (fst out))
        = Some (2, 0xFF, 1, 0)
     /\ option_map
          (fun bp => [load64 bp 0x2D0; load64 bp 0x2D8; load32 bp 0x2E0;
                      load64 bp 0x2E4; load64 bp 0x2EC; load32 bp 0x2F4])
          (jump_bp (fst out))
        = Some [0x0; 0x3000; 1; 0x4000; 0x1000; 3].
Proof.
  cbv zeta. do 5 (split; [vm_compute; reflexivity |]). split.
  - intros fw kernel kernel_buf kernel_size cmdline initrd_addr initrd_size
      e820_stack t bp H.
    exact (legacy_zero_page _ _ _ _ _ _ _ _ _ _ H).
  - repeat split; vm_compute; reflexivity.
Qed.

(** ** fs/ext4.c: the directory walk *)

Lemma rec_len_range dir_data p :
  0 <= member Ext4.Ext4DirEntry2 dir_data p "rec_len" < 65536.
Proof. apply (load_le_range 2). Qed.

Lemma dir_entry_step_cases dir_data name name_len p :
  let rec_len := member Ext4.Ext4DirEntry2 dir_data p "rec_len" in
  let ino := member Ext4.Ext4DirEntry2 dir_data p "inode" in
  match Ext4.dir_entry_step dir_data name name_len p with
  | Ext4.WalkStop => rec_len = 0
  | Ext4.WalkFound i =>
      rec_len <> 0 /\ i = ino /\ ino <> 0
      /\ member Ext4.Ext4DirEntry2 dir_data p "name_len" = name_len
      /\ Util.sb_strncmp8 (fun i => wrap8 (dir_data (p + 8 + i)))
           (Util.at_ name) name_len = 0
  | Ext4.WalkNext p' => p' = p + rec_len /\ 1 <= rec_len < 65536
  end.
Proof.
  cbv zeta. unfold Ext4.dir_entry_step.
  pose proof (rec_len_range dir_data p) as R.
  destruct (Z.eqb_spec (member Ext4.Ext4DirEntry2 dir_data p "rec_len") 0)
    as [E | E]; [assumption |].
  destruct (negb _ && _ && _) eqn:M.
  - apply andb_prop in M as [M M3]. apply andb_prop in M as [M1 M2].
    apply negb_true_iff, Z.eqb_neq in M1. apply Z.eqb_eq in M2, M3.
    repeat split; assumption.
  - split; [reflexivity | lia].
Qed.

Lemma dir_walk_total dir_data dir_size name name_len :
  forall fuel p,
    (Z.to_nat (dir_size - 8 - p) <= fuel)%nat ->
    exists r, Ext4.dir_walk fuel dir_data dir_size name name_len p = Some r.
Proof.
  induction fuel as [| fuel IH]; intros p Hf.
  - assert (H : (p + 8 <? dir_size) = false) by (apply Z.ltb_ge; lia).
    exists 0. simpl. now rewrite H.
  - cbn [Ext4.dir_walk]. destruct (p + 8 <? dir_size) eqn:G; [| eauto].
    apply Z.ltb_lt in G.
    pose proof (dir_entry_step_cases dir_data name name_len p) as C.
    cbv zeta in C.
    destruct (Ext4.dir_entry_step dir_data name name_len p) as [| i | p'];
      [eauto | eauto |].
    destruct C as [-> C]. apply IH. lia.
Qed.

Lemma dir_walk_mono dir_data dir_size name name_len :
  forall fuel p r,
    Ext4.dir_walk fuel dir_data dir_size name name_len p = Some r ->
    forall fuel', (fuel <= fuel')%nat ->
      Ext4.dir_walk fuel' dir_data dir_size name name_len p = Some r.
Proof.
  induction fuel as [| fuel IH]; intros p r H fuel' Hle.
  - simpl in H. destruct (p + 8 <? dir_size) eqn:G; [discriminate |].
    destruct fuel'; simpl; now rewrite G.
  - destruct fuel' as [| fuel']; [lia |].
    cbn [Ext4.dir_walk] in *. destruct (p + 8 <? dir_size); [| assumption].
    destruct (Ext4.dir_entry_step dir_data name name_len p); try assumption.
    apply IH with (fuel' := fuel') in H; [assumption | lia].
Qed.

Lemma dir_walk_cursors_bound dir_data dir_size name name_len :
  forall fuel p,
    (length (Ext4.dir_walk_cursors fuel dir_data dir_size name name_len p)
     <= Z.to_nat (dir_size - 8 - p))%nat.
Proof.
  induction fuel as [| fuel IH]; intros p.
  - simpl. destruct (p + 8 <? dir_size); simpl; lia.
  - cbn [Ext4.dir_walk_cursors]. destruct (p + 8 <? dir_size) eqn:G;
      [| simpl; lia].
    apply Z.ltb_lt in G.
    pose proof (dir_entry_step_cases dir_data name name_len p) as C.
    cbv zeta in C.
    destruct (Ext4.dir_entry_step dir_data name name_len p) as [| i | p'];
      cbn [length]; try lia.
    destruct C as [-> C].
    specialize (IH (p + member Ext4.Ext4DirEntry2 dir_data p "rec_len")). lia.
Qed.

Lemma dir_walk_cursors_range dir_data dir_size name name_len :
  forall fuel p q,
    In q (Ext4.dir_walk_cursors fuel dir_data dir_size name name_len p) ->
    p <= q /\ q + 8 < dir_size.
Proof.
  induction fuel as [| fuel IH]; intros p q.
  - simpl. destruct (p + 8 <? dir_size); intros [].
  - cbn [Ext4.dir_walk_cursors]. destruct (p + 8 <? dir_size) eqn:G;
      [| intros []].
    apply Z.ltb_lt in G. intros [<- | H]; [lia |].
    pose proof (dir_entry_step_cases dir_data name name_len p) as C.
    cbv zeta in C.
    destruct (Ext4.dir_entry_step dir_data name name_len p) as [| i | p'];
      try contradiction.
    destruct C as [-> C]. apply IH in H. lia.
Qed.

(** C10.  The directory-entry walk of [ext4_dir_lookup] terminates for
    every buffer contents, directory size and search name.  A pass is made
    only while [p + 8 < end]; it stops when the record's rec_len is 0 or
    when the record matches the name (a live inode, equal length, equal
    bytes), and otherwise advances the cursor by rec_len, which is at
    least 1.  Every record read starts more than 8 bytes before the end.
    Hence, however long the walk is let run, it reads at most dir_size
    records, and [dir_size] passes always finish it with the same
    result as any larger number. *)
Theorem C10_dir_walk_terminates dir_data dir_size name name_len :
  (forall p,
     let rec_len := member Ext4.Ext4DirEntry2 dir_data p "rec_len" in
     let ino := member Ext4.Ext4DirEntry2 dir_data p "inode" in
     match Ext4.dir_entry_step dir_data name name_len p with
     | Ext4.WalkStop => rec_len = 0
     | Ext4.WalkFound i =>
         rec_len <> 0 /\ i = ino /\ ino <> 0
         /\ member Ext4.Ext4DirEntry2 dir_data p "name_len" = name_len
         /\ Util.sb_strncmp8 (fun i => wrap8 (dir_data (p + 8 + i)))
              (Util.at_ name) name_len = 0
     | Ext4.WalkNext p' => p' = p + rec_len /\ 1 <= rec_len < 65536
     end)
  /\ (forall fuel q,
        In q (Ext4.dir_walk_cursors fuel dir_data dir_size name name_len 0) ->
        0 <= q /\ q + 8 < dir_size)
  /\ (forall fuel,
        (length (Ext4.dir_walk_cursors fuel dir_data dir_size name name_len 0)
         <= Z.to_nat dir_size)%nat)
  /\ (exists r, forall fuel,
        (Z.to_nat dir_size <= fuel)%nat ->
        Ext4.dir_walk fuel dir_data dir_size name name_len 0 = Some r).
Proof.
  split; [apply dir_entry_step_cases |].
  split; [intros fuel q; apply dir_walk_cursors_range |].
  split.
  { intros fuel.
    pose proof (dir_walk_cursors_bound dir_data dir_size name name_len fuel 0).
    lia. }
  destruct (dir_walk_total dir_data dir_size name name_len
              (Z.to_nat dir_size) 0 ltac:(lia)) as [r Hr].
  exists r. intros fuel Hf. eapply dir_walk_mono; eassumption.
Qed.


(** ** fs/ext4.c: mount *)

Lemma load_le_ext n m m' off :
  (forall j, off <= j < off + Z.of_nat n -> wrap8 (m j) = wrap8 (m' j)) ->
  load_le n m off = load_le n m' off.
Proof.
  revert off. induction n as [| n IH]; intros off H; [reflexivity |].
  cbn [load_le]. rewrite (H off) by lia. rewrite (IH (off + 1)); [reflexivity |].
  intros j Hj. apply H. lia.
Qed.

Lemma load_le_zero n off : load_le n (fun _ => 0) off = 0.
Proof. revert off. induction n as [| n IH]; intros off; cbn [load_le];
  [reflexivity | now rewrite IH]. Qed.

Lemma wrap8_idem z : wrap8 (wrap8 z) = wrap8 z.
Proof. unfold wrap8. apply Z.mod_mod. lia. Qed.

Lemma member_deliver l buf size r base f :
  EFI_ERROR (fst r) = false ->
  0 <= base + offsetof f l ->
  base + offsetof f l + Z.of_nat (Z.to_nat (member_size f l)) <= size ->
  member l (Ext4.deliver buf 0 size r) base f = member l (snd r) base f.
Proof.
  intros He Hlo Hhi. unfold member, Ext4.deliver. rewrite He.
  apply load_le_ext. intros j Hj.
  destruct (Z.leb_spec 0 j); [| lia].
  destruct (Z.ltb_spec j (0 + size)); [| lia].
  cbn [andb]. rewrite Z.sub_0_r. apply wrap8_idem.
Qed.

Lemma ext4_mount_disk_io pool bio d s c :
  Ext4.ext4_mount pool bio (Some d) = (s, Some c) ->
  let sbd := snd (Ext4.ReadDisk d Ext4.EXT4_SUPERBLOCK_OFFSET
                    (sizeof Ext4.Ext4Superblock)) in
  s = EFI_SUCCESS
  /\ member Ext4.Ext4Superblock sbd 0 "s_magic" = Ext4.EXT4_SUPER_MAGIC
  /\ Ext4.block_size c
     = wrap32 (Z.shiftl 1024 (member Ext4.Ext4Superblock sbd 0 "s_log_block_size"))
  /\ Ext4.inode_size c
     = (if member Ext4.Ext4Superblock sbd 0 "s_rev_level" =? 0 then 128
        else member Ext4.Ext4Superblock sbd 0 "s_inode_size")
  /\ Ext4.group_desc_size c = 32.
Proof.
  cbv zeta. unfold Ext4.ext4_mount, Ext4.ext4_probe, Ext4.probe_superblock.
  destruct (negb (Ext4.pool_ok pool Ext4.sizeof_Ext4Context)); [discriminate |].
  set (r := Ext4.ReadDisk d Ext4.EXT4_SUPERBLOCK_OFFSET (sizeof Ext4.Ext4Superblock)).
  cbn [fst]. destruct (EFI_ERROR (fst r)) eqn:Er.
  { rewrite Er. discriminate. }
  rewrite !(member_deliver Ext4.Ext4Superblock _ _ r 0) by (assumption || (vm_compute; discriminate)).
  destruct (member Ext4.Ext4Superblock (snd r) 0 "s_magic" =? Ext4.EXT4_SUPER_MAGIC)
    eqn:Emagic; [| discriminate].
  change (EFI_ERROR EFI_SUCCESS) with false. cbv iota.
  intros H. inversion H; subst; clear H. cbn [Ext4.block_size Ext4.inode_size
    Ext4.group_desc_size].
  apply Z.eqb_eq in Emagic.
  repeat split; try assumption.
  pose proof (load_le_range 4 (snd r) (0 + offsetof "s_rev_level" Ext4.Ext4Superblock)) as R.
  change (load_le 4 (snd r) (0 + offsetof "s_rev_level" Ext4.Ext4Superblock))
    with (member Ext4.Ext4Superblock (snd r) 0 "s_rev_level") in R.
  destruct (Z.leb_spec 1 (member Ext4.Ext4Superblock (snd r) 0 "s_rev_level"));
    destruct (Z.eqb_spec (member Ext4.Ext4Superblock (snd r) 0 "s_rev_level") 0);
    try reflexivity; lia.
Qed.

(** C3 (defect in the code).  When the device offers no Disk I/O,
    [ext4_mount] never reads the superblock into the context: the
    superblock member stays as AllocateZeroPool left it, so the block size
    is 1024 and the inode size 128 whatever the superblock at byte 1024
    says.  On the sample image, whose superblock announces log block size
    2, revision 1 and 256-byte inodes, the mount succeeds over Block I/O
    with 1024 and 128, and over Disk I/O with 4096 and 256.  With Disk I/O
    present the state is derived from the superblock as claimed. *)
Theorem C3_mount_block_io_only :
  (forall pool bio s c,
     Ext4.ext4_mount pool bio None = (s, Some c) ->
     s = EFI_SUCCESS
     /\ (forall f, member Ext4.Ext4Superblock (Ext4.sb c) 0 f = 0)
     /\ Ext4.block_size c = 1024
     /\ Ext4.inode_size c = 128
     /\ Ext4.group_desc_size c = 32)
  /\ (let bio := Ext4.image_block_io Ext4.image_4k 65536 512 in
      let on_disk := fun j => Ext4.image_4k (Ext4.EXT4_SUPERBLOCK_OFFSET + j) in
      member Ext4.Ext4Superblock on_disk 0 "s_magic" = Ext4.EXT4_SUPER_MAGIC
      /\ member Ext4.Ext4Superblock on_disk 0 "s_log_block_size" = 2
      /\ member Ext4.Ext4Superblock on_disk 0 "s_rev_level" = 1
      /\ member Ext4.Ext4Superblock on_disk 0 "s_inode_size" = 256
      /\ Ext4.mount_summary (Ext4.ext4_mount Ext4.sample_pool bio None)
         = (EFI_SUCCESS, Some (1024, 128, 32))
      /\ Ext4.mount_summary
           (Ext4.ext4_mount Ext4.sample_pool bio
              (Some (Ext4.image_disk_io Ext4.image_4k 65536)))
         = (EFI_SUCCESS, Some (4096, 256, 32)))
  /\ (forall pool bio d s c,
        Ext4.ext4_mount pool bio (Some d) = (s, Some c) ->
        let sbd := snd (Ext4.ReadDisk d Ext4.EXT4_SUPERBLOCK_OFFSET
                          (sizeof Ext4.Ext4Superblock)) in
        Ext4.block_size c
        = wrap32 (Z.shiftl 1024
                    (member Ext4.Ext4Superblock sbd 0 "s_log_block_size"))
        /\ Ext4.inode_size c
           = (if member Ext4.Ext4Superblock sbd 0 "s_rev_level" =? 0 then 128
              else member Ext4.Ext4Superblock sbd 0 "s_inode_size")
        /\ Ext4.group_desc_size c = 32).
Proof.
  split; [| split].
  - intros pool bio s c. unfold Ext4.ext4_mount.
    destruct (negb (Ext4.pool_ok pool Ext4.sizeof_Ext4Context)); [discriminate |].
    destruct (EFI_ERROR (Ext4.ext4_probe pool bio None)); [discriminate |].
    intros H. inversion H; subst; clear H.
    cbn [Ext4.sb Ext4.block_size Ext4.inode_size Ext4.group_desc_size].
    unfold member. rewrite !load_le_zero.
    repeat split. intros f. apply load_le_zero.
  - cbv zeta. repeat split; vm_compute; reflexivity.
  - intros pool bio d s c H. cbv zeta.
    destruct (ext4_mount_disk_io pool bio d s c H) as (_ & _ & H1 & H2 & H3).
    auto.
Qed.

(** ** fs/ext4.c: path resolution *)

Section Resolve.
Import Ext4.
Variable pool : Pool.
Variable c : Ext4Context.

Lemma take_component_rest p : forall ci,
  (length (snd (fst (take_component p ci))) <= length p)%nat.
Proof.
  induction p as [| ch p IH]; intros ci; [simpl; lia |].
  cbn [take_component].
  destruct (negb (ch =? 0) && negb (ch =? 47) && (ci + 1 <? 256));
    [| simpl; lia].
  specialize (IH (ci + 1)).
  destruct (take_component p (ci + 1)) as [[comp rest] ci']. simpl in *. lia.
Qed.

Lemma skip_slash_le p : (length (skip_slash p) <= length p)%nat.
Proof. destruct p as [| ch p]; simpl; [lia |]. destruct (ch =? 47); simpl; lia. Qed.

(** One pass of the outer loop consumes at least one character. *)
Lemma resolve_advance p :
  Util.deref p <> 0 ->
  (length (skip_slash (snd (fst (take_component p 0)))) < length p)%nat.
Proof.
  destruct p as [| ch p]; [simpl; congruence |]. cbn [Util.deref]. intros Hch.
  cbn [take_component]. destruct (Z.eqb_spec ch 0) as [| _]; [contradiction |].
  cbn [negb andb]. destruct (Z.eqb_spec ch 47) as [-> | Hs]; cbn [negb andb].
  - simpl. lia.
  - change (0 + 1 <? 256) with true. cbv iota.
    pose proof (take_component_rest p (0 + 1)) as R.
    destruct (take_component p (0 + 1)) as [[comp rest] ci']. cbn [fst snd] in *.
    pose proof (skip_slash_le rest). simpl. lia.
Qed.

Lemma ext4_dir_lookup_total dir name :
  exists r, ext4_dir_lookup pool c dir name = Some r.
Proof.
  unfold ext4_dir_lookup.
  destruct (negb (pool_ok pool _)); [eauto |].
  destruct (ext4_read_file_data c dir (uninit pool) _) as [s dir_data].
  destruct (EFI_ERROR s); [eauto |].
  apply dir_walk_total. lia.
Qed.

(** The division of ext4_read_inode: the call returns exactly when
    [s_inodes_per_group] is not zero. *)
Lemma ext4_read_inode_returns ino inode :
  member Ext4Superblock (sb c) 0 "s_inodes_per_group" <> 0 ->
  exists r, ext4_read_inode pool c ino inode = Some r.
Proof.
  intros H. unfold ext4_read_inode. apply Z.eqb_neq in H. rewrite H.
  destruct (ext4_read_bytes pool c _ (sizeof Ext4GroupDesc) (uninit pool))
    as [s gd].
  destruct (EFI_ERROR s); eauto.
Qed.

Lemma ext4_read_inode_traps ino inode :
  member Ext4Superblock (sb c) 0 "s_inodes_per_group" = 0 ->
  ext4_read_inode pool c ino inode = None.
Proof. intros H. unfold ext4_read_inode. now rewrite H. Qed.

Lemma walk_total comps :
  member Ext4Superblock (sb c) 0 "s_inodes_per_group" <> 0 ->
  forall ino, exists r, walk pool c comps ino = Some r.
Proof.
  intros Hipg.
  induction comps as [| comp rest IH]; intros ino; cbn [walk]; [eauto |].
  destruct (ext4_read_inode_returns ino (uninit pool) Hipg) as [[s dir] ->].
  destruct (EFI_ERROR s); [eauto |].
  destruct (ext4_dir_lookup_total dir comp) as [r ->].
  destruct (r =? 0); eauto.
Qed.

Lemma walk_traps comps ino :
  member Ext4Superblock (sb c) 0 "s_inodes_per_group" = 0 ->
  comps <> [] -> walk pool c comps ino = None.
Proof.
  intros Hipg Hne. destruct comps as [| comp rest]; [congruence |].
  cbn [walk]. now rewrite ext4_read_inode_traps.
Qed.

Lemma resolve_loop_walk : forall fuel p ino,
  (length p <= fuel)%nat ->
  resolve_loop pool fuel c p ino = walk pool c (components fuel p) ino.
Proof.
  induction fuel as [| fuel IH]; intros p ino Hlen.
  - destruct p; [reflexivity | simpl in Hlen; lia].
  - cbn [resolve_loop components].
    destruct (Z.eqb_spec (Util.deref p) 0) as [| Hp]; [reflexivity |].
    pose proof (resolve_advance p Hp) as A.
    destruct (take_component p 0) as [[comp p1] ci]. cbn [fst snd] in A.
    destruct (ci =? 0).
    + apply IH. lia.
    + cbn [walk].
      destruct (ext4_read_inode pool c ino (uninit pool)) as [[s dir] |];
        [| reflexivity].
      destruct (EFI_ERROR s); [reflexivity |].
      destruct (ext4_dir_lookup pool c dir comp) as [r |]; [| reflexivity].
      destruct (r =? 0); [reflexivity |]. apply IH. lia.
Qed.

Lemma ext4_resolve_path_walk path :
  ext4_resolve_path pool c path
  = walk pool c (path_components path) EXT4_ROOT_INO.
Proof.
  unfold ext4_resolve_path, path_components. apply resolve_loop_walk. lia.
Qed.

Lemma member_same_but_mode inode inode' l base f :
  same_but_mode inode inode' ->
  2 <= base + offsetof f l ->
  member l inode base f = member l inode' base f.
Proof.
  intros H Hb. unfold member. apply load_le_ext. intros j Hj.
  rewrite (H j); [reflexivity |]. change (offsetof "i_uid" Ext4Inode) with 2. lia.
Qed.

Lemma extents_same_but_mode inode inode' :
  same_but_mode inode inode' ->
  forall n i st, 0 <= i -> extents n c inode i st = extents n c inode' i st.
Proof.
  intros H. induction n as [| n IH]; intros i st Hi; [reflexivity |].
  cbn [extents]. destruct st as [[dst remaining] buf].
  destruct (0 <? remaining); [| reflexivity].
  change (offsetof "i_block" Ext4Inode + sizeof Ext4ExtentHeader) with 52.
  change (sizeof Ext4Extent) with 12.
  rewrite !(member_same_but_mode inode inode' Ext4Extent (52 + i * 12))
    by (assumption
        || (change (offsetof "ee_start_hi" Ext4Extent) with 6; lia)
        || (change (offsetof "ee_start_lo" Ext4Extent) with 8; lia)
        || (change (offsetof "ee_len" Ext4Extent) with 4; lia)).
  destruct (extent_blocks _ c _ 0 (dst, remaining, buf)) as [[s |] st'];
    [reflexivity |].
  apply IH. lia.
Qed.

Lemma ext4_dir_lookup_ignores_mode inode inode' name :
  same_but_mode inode inode' ->
  ext4_dir_lookup pool c inode name = ext4_dir_lookup pool c inode' name.
Proof.
  intros H. unfold ext4_dir_lookup, ext4_read_file_data.
  rewrite !(member_same_but_mode inode inode' Ext4Inode 0)
    by (assumption || (vm_compute; discriminate)).
  rewrite !(member_same_but_mode inode inode' Ext4ExtentHeader
              (offsetof "i_block" Ext4Inode))
    by (assumption || (vm_compute; discriminate)).
  rewrite (extents_same_but_mode inode inode' H) by lia.
  reflexivity.
Qed.

Lemma take_component_spec p : forall ci,
  let '(comp, rest, ci') := take_component p ci in
  ci' = ci + Z.of_nat (length comp) /\ ~ In 47 comp.
Proof.
  induction p as [| ch p IH]; intros ci; cbn [take_component].
  - simpl. split; [lia | tauto].
  - destruct (negb (ch =? 0) && negb (ch =? 47) && (ci + 1 <? 256)) eqn:E.
    + specialize (IH (ci + 1)).
      destruct (take_component p (ci + 1)) as [[comp rest] ci'].
      destruct IH as [-> Hno]. split; [cbn [length]; lia |].
      apply andb_prop in E as [E _]. apply andb_prop in E as [_ E].
      apply negb_true_iff, Z.eqb_neq in E.
      intros [H | H]; [congruence | contradiction].
    + simpl. split; [lia | tauto].
Qed.

Lemma components_spec : forall fuel p,
  Forall (fun comp => comp <> [] /\ ~ In 47 comp) (components fuel p).
Proof.
  induction fuel as [| fuel IH]; intros p; cbn [components]; [constructor |].
  destruct (Util.deref p =? 0); [constructor |].
  pose proof (take_component_spec p 0) as T.
  destruct (take_component p 0) as [[comp p1] ci]. destruct T as [-> Hno].
  destruct (Z.eqb_spec (0 + Z.of_nat (length comp)) 0) as [| Hne]; [apply IH |].
  constructor; [| apply IH]. split; [| assumption].
  intros ->. simpl in Hne. lia.
Qed.

(** What the inner loop cuts off: the component and the rest make up the
    string; the component holds no NUL and no separator and fits the local
    buffer; the loop stopped at the end, at a NUL, at a separator, or
    because the buffer was full. *)
Lemma take_component_cut p : forall ci,
  let '(comp, rest, ci') := take_component p ci in
  p = comp ++ rest
  /\ ci' = ci + Z.of_nat (length comp)
  /\ Forall (fun ch => ch <> 0 /\ ch <> 47) comp
  /\ (comp <> [] -> ci' < 256)
  /\ match rest with
     | [] => True
     | ch :: _ => ch = 0 \/ ch = 47 \/ 256 <= ci' + 1
     end.
Proof.
  induction p as [| ch p IH]; intros ci; cbn [take_component].
  - repeat split; [cbn; lia | constructor | congruence].
  - destruct (Z.eqb_spec ch 0) as [E0 | E0]; cbn [negb andb].
    { repeat split; [cbn; lia | constructor | congruence | auto]. }
    destruct (Z.eqb_spec ch 47) as [E1 | E1]; cbn [negb andb].
    { repeat split; [cbn; lia | constructor | congruence | auto]. }
    destruct (Z.ltb_spec (ci + 1) 256) as [E2 | E2].
    + specialize (IH (ci + 1)).
      destruct (take_component p (ci + 1)) as [[comp rest] ci'].
      destruct IH as (-> & -> & Hc & Hlt & Hrest).
      split; [reflexivity |]. split; [cbn [length]; lia |].
      split; [constructor; [split |]; assumption |].
      split; [| exact Hrest].
      intros _. destruct comp as [| ch' comp]; [cbn; lia |].
      apply Hlt. discriminate.
    + repeat split; [cbn; lia | constructor | congruence |].
      right. right. lia.
Qed.

Lemma split_on_slash_app comp s :
  Forall (fun ch => ch <> 47) comp ->
  split_on_slash (comp ++ s)
  = (comp ++ hd [] (split_on_slash s)) :: tl (split_on_slash s).
Proof.
  induction 1 as [| ch comp Hch _ IH]; cbn [app].
  - destruct s as [| ch s]; [reflexivity |]. cbn [split_on_slash].
    destruct (ch =? 47); [reflexivity |].
    destruct (split_on_slash s); reflexivity.
  - cbn [split_on_slash]. apply Z.eqb_neq in Hch. rewrite Hch, IH.
    reflexivity.
Qed.

Lemma no_slash_weaken comp :
  Forall (fun ch => ch <> 0 /\ ch <> 47) comp ->
  Forall (fun ch => ch <> 47) comp.
Proof. intros H. eapply Forall_impl; [exact H |]. cbn. tauto. Qed.

Lemma components_nil fuel : components fuel [] = [].
Proof. destruct fuel; reflexivity. Qed.

(** On a string without NUL whose pieces fit the component buffer, the
    loop cuts out the non-empty pieces between the separators. *)
Lemma components_split : forall fuel (p : list Z),
  (length p <= fuel)%nat ->
  Forall (fun ch => ch <> 0) p ->
  Forall (fun piece => (length piece <= 255)%nat) (split_on_slash p) ->
  components fuel p = spec_components p.
Proof.
  induction fuel as [| fuel IH]; intros p Hlen Hnul Hfit.
  - destruct p; [reflexivity | simpl in Hlen; lia].
  - destruct p as [| ch0 p0] eqn:Ep; [reflexivity |]. rewrite <- Ep in *.
    cbn [components].
    assert (Hd : Util.deref p <> 0).
    { rewrite Ep. cbn. rewrite Ep in Hnul. now inversion Hnul. }
    destruct (Z.eqb_spec (Util.deref p) 0) as [| _]; [contradiction |].
    pose proof (resolve_advance p Hd) as A.
    pose proof (take_component_cut p 0) as T.
    destruct (take_component p 0) as [[comp rest] ci]. cbn [fst snd] in A.
    destruct T as (Hp & Hci & Hc & Hlt & Hrest).
    rewrite Z.add_0_l in Hci.
    pose proof (no_slash_weaken comp Hc) as Hns.
    assert (Hnr : Forall (fun ch => ch <> 0) rest).
    { rewrite Hp in Hnul. apply Forall_app in Hnul. tauto. }
    unfold spec_components. rewrite Hp, (split_on_slash_app comp rest Hns).
    rewrite Hp, (split_on_slash_app comp rest Hns) in Hfit.
    destruct rest as [| ch rest].
    + cbn [skip_slash split_on_slash hd tl]. rewrite components_nil.
      rewrite app_nil_r in *.
      assert (Hne : comp <> []) by (rewrite <- Hp, Ep; discriminate).
      destruct (Z.eqb_spec ci 0) as [E | _];
        [destruct comp; [congruence | cbn in Hci; lia] |].
      rewrite filter_cons_True by exact Hne. reflexivity.
    + inversion Hnr as [| ? ? Hch0 Hnr']; subst.
      destruct (Z.eqb_spec ch 47) as [-> | Hs].
      * cbn [skip_slash split_on_slash hd tl]. rewrite Z.eqb_refl.
        cbn [hd tl]. rewrite app_nil_r.
        cbn [split_on_slash hd tl] in Hfit. rewrite Z.eqb_refl in Hfit.
        cbn [hd tl] in Hfit. inversion Hfit as [| ? ? _ Hfit']; subst.
        cbn [skip_slash] in A. rewrite Z.eqb_refl in A.
        rewrite (IH rest) by (assumption || lia).
        destruct (Z.eqb_spec (Z.of_nat (length comp)) 0) as [E | E].
        -- assert (comp = []) by (destruct comp; [reflexivity | cbn in E; lia]).
           subst comp. rewrite filter_cons_False by congruence. reflexivity.
        -- rewrite filter_cons_True; [reflexivity |].
           intros ->. cbn in E. lia.
      * exfalso. destruct Hrest as [? | [? | Hfull]]; [contradiction.. |].
        inversion Hfit as [| ? ? Hfirst _]; subst.
        rewrite length_app in Hfirst. cbn [split_on_slash] in Hfirst.
        apply Z.eqb_neq in Hs. rewrite Hs in Hfirst.
        destruct (split_on_slash rest); cbn [hd length] in Hfirst; lia.
Qed.

(** Whatever the lengths, the components are the characters of the string
    without its separators, in order. *)
Lemma components_concat : forall fuel (p : list Z),
  (length p <= fuel)%nat ->
  Forall (fun ch => ch <> 0) p ->
  concat (components fuel p) = filter (fun ch => ch <> 47) p.
Proof.
  induction fuel as [| fuel IH]; intros p Hlen Hnul.
  - destruct p; [reflexivity | simpl in Hlen; lia].
  - destruct p as [| ch0 p0] eqn:Ep; [reflexivity |]. rewrite <- Ep in *.
    cbn [components].
    assert (Hd : Util.deref p <> 0).
    { rewrite Ep. cbn. rewrite Ep in Hnul. now inversion Hnul. }
    destruct (Z.eqb_spec (Util.deref p) 0) as [| _]; [contradiction |].
    pose proof (resolve_advance p Hd) as A.
    pose proof (take_component_cut p 0) as T.
    destruct (take_component p 0) as [[comp rest] ci]. cbn [fst snd] in A.
    destruct T as (Hp & Hci & Hc & _ & _).
    rewrite Z.add_0_l in Hci.
    assert (Hnr : Forall (fun ch => ch <> 0) (skip_slash rest)).
    { rewrite Hp in Hnul. apply Forall_app in Hnul as [_ Hr].
      destruct rest as [| ch rest]; [constructor |]. cbn [skip_slash].
      destruct (ch =? 47); [now inversion Hr | exact Hr]. }
    assert (Hf : filter (fun ch => ch <> 47) p
                 = comp ++ filter (fun ch => ch <> 47) (skip_slash rest)).
    { rewrite Hp at 1. rewrite filter_app. f_equal.
      - clear - Hc. induction Hc as [| ch comp [_ Hch] _ IHc]; [reflexivity |].
        rewrite filter_cons_True by exact Hch. now rewrite IHc.
      - destruct rest as [| ch rest]; [reflexivity |]. cbn [skip_slash].
        destruct (Z.eqb_spec ch 47) as [-> | Hs]; [| reflexivity].
        now rewrite filter_cons_False by tauto. }
    rewrite Hf.
    destruct (Z.eqb_spec ci 0) as [E | _].
    + assert (comp = []) by (destruct comp; [reflexivity | cbn in Hci; lia]).
      subst comp. cbn [app]. apply IH; [lia | exact Hnr].
    + cbn [concat]. f_equal. apply IH; [lia | exact Hnr].
Qed.

Lemma components_fit : forall fuel p,
  Forall (fun comp => comp <> []
                      /\ Forall (fun ch => ch <> 0 /\ ch <> 47) comp
                      /\ (length comp <= 255)%nat)
         (components fuel p).
Proof.
  induction fuel as [| fuel IH]; intros p; cbn [components]; [constructor |].
  destruct (Util.deref p =? 0); [constructor |].
  pose proof (take_component_cut p 0) as T.
  destruct (take_component p 0) as [[comp p1] ci].
  destruct T as (_ & Hci & Hc & Hlt & _). rewrite Z.add_0_l in Hci.
  destruct (Z.eqb_spec ci 0) as [| Hne]; [apply IH |].
  constructor; [| apply IH].
  assert (Hcomp : comp <> []) by (intros ->; cbn in Hci; lia).
  split; [exact Hcomp |]. split; [exact Hc |].
  specialize (Hlt Hcomp). lia.
Qed.

Lemma narrow_path_no_nul path : Forall (fun ch => ch <> 0) (narrow_path path).
Proof.
  unfold narrow_path, Util.sb_str16to8. apply Forall_map.
  generalize 0 at 2. induction path as [| ch path IH]; intros i;
    cbn [Util.strcpy_loop]; [constructor |].
  destruct (Z.eqb_spec ch 0) as [| Hch]; cbn [negb];
    [rewrite andb_false_r; constructor |].
  destruct (i + 1 <? SB_MAX_PATH); cbn [andb]; [| constructor].
  constructor; [| apply IH]. cbn beta.
  destruct (Z.ltb_spec ch 128);
    [destruct (Z.eqb_spec ch 92); lia | cbn; discriminate].
Qed.

Lemma skip_slash_no_nul p :
  Forall (fun ch => ch <> 0) p -> Forall (fun ch => ch <> 0) (skip_slash p).
Proof.
  intros H. destruct p as [| ch p]; [constructor |]. cbn [skip_slash].
  destruct (ch =? 47); [now inversion H | exact H].
Qed.

Lemma path_components_split path :
  Forall (fun piece => (length piece <= 255)%nat)
         (split_on_slash (narrow_path path)) ->
  path_components path = spec_components (narrow_path path).
Proof.
  intros Hfit. change (path_components path)
    with (components (length (skip_slash (narrow_path path)))
                     (skip_slash (narrow_path path))).
  pose proof (narrow_path_no_nul path) as Hn.
  destruct (narrow_path path) as [| ch p]; [reflexivity |].
  cbn [skip_slash]. destruct (Z.eqb_spec ch 47) as [-> | Hs].
  - unfold spec_components. cbn [split_on_slash] in *.
    rewrite Z.eqb_refl in *. rewrite filter_cons_False by congruence.
    apply components_split; [lia | now inversion Hn | now inversion Hfit].
  - apply components_split; [lia | exact Hn | exact Hfit].
Qed.

Lemma path_components_concat path :
  concat (path_components path)
  = filter (fun ch => ch <> 47) (narrow_path path).
Proof.
  change (path_components path)
    with (components (length (skip_slash (narrow_path path)))
                     (skip_slash (narrow_path path))).
  pose proof (narrow_path_no_nul path) as Hn.
  rewrite components_concat by (lia || now apply skip_slash_no_nul).
  destruct (narrow_path path) as [| ch p]; [reflexivity |].
  cbn [skip_slash]. destruct (Z.eqb_spec ch 47) as [-> | Hs]; [| reflexivity].
  rewrite filter_cons_False by (intros H; now apply H). reflexivity.
Qed.

End Resolve.



(** The context that a mount without Disk I/O builds has a zero
    superblock, so [s_inodes_per_group] is zero there: on the sample
    filesystem mounted through Block I/O only, looking up \a divides by
    zero in ext4_read_inode and nothing is returned, by the resolver as
    by the two entry points that call it. *)
Lemma resolve_path_block_io_only_traps :
  match Ext4.ext4_mount Ext4.sample_pool Ext4.fs_block_io None with
  | (status, Some c) =>
      EFI_ERROR status = false
      /\ member Ext4.Ext4Superblock (Ext4.sb c) 0 "s_inodes_per_group" = 0
      /\ Ext4.ext4_resolve_path Ext4.sample_pool c (Ext4.wstr "\a") = None
      /\ Ext4.ext4_read_file Ext4.sample_pool c (Ext4.wstr "\a") None 0 = None
      /\ Ext4.ext4_dir_exists Ext4.sample_pool c (Ext4.wstr "\a") = None
      /\ Ext4.ext4_resolve_path Ext4.sample_pool c (Ext4.wstr "\")
         = Some Ext4.EXT4_ROOT_INO
  | (_, None) => False
  end.
Proof.
  vm_compute. repeat split.
Qed.

(** ** fs/vfs.c: opening a device twice *)

Section OpenTwice.
Import Vfs.
Variable gBS : BootServices.
Variable pool : Ext4.Pool.

Lemma find_snoc {A} (f : A -> bool) l x :
  find f (l ++ [x])
  = match find f l with
    | Some y => Some y
    | None => if f x then Some x else None
    end.
Proof.
  induction l as [| a l IH]; simpl; [reflexivity |].
  destruct (f a); [reflexivity | exact IH].
Qed.

Lemma find_none_filter (dev : Z) (l : list VfsMount) :
  find (fun m => device m =? dev) l = None ->
  filter (fun m => device m = dev) l = [].
Proof.
  induction l as [| a l IH]; [reflexivity |]. simpl.
  destruct (Z.eqb_spec (device a) dev) as [E | E]; [discriminate |].
  intros H. rewrite filter_cons_False by assumption. auto.
Qed.

Lemma live_clear_slot dev st :
  live (clear_slot dev st) = live st.
Proof. unfold live, clear_slot. cbn [mounts mount_count]. now rewrite take_insert_ge. Qed.

Lemma clear_slot_idem dev st :
  clear_slot dev (clear_slot dev st) = clear_slot dev st.
Proof.
  unfold clear_slot. cbn [mounts mount_count]. now rewrite list_insert_insert_eq.
Qed.

(** The entries in use once slot [mount_count] is filled and counted. *)
Lemma live_fill dev st m :
  0 <= mount_count st ->
  (Z.to_nat (mount_count st) < length (mounts st))%nat ->
  live (mkTable (<[Z.to_nat (mount_count st) := m]> (mounts (clear_slot dev st)))
                (mount_count st + 1))
  = live st ++ [m].
Proof.
  intros H0 Hlt. unfold live, clear_slot. cbn [mounts mount_count].
  rewrite list_insert_insert_eq.
  replace (Z.to_nat (mount_count st + 1)) with (S (Z.to_nat (mount_count st)))
    by lia.
  rewrite (take_S_r _ _ m) by (now apply list_lookup_insert_eq).
  now rewrite take_insert_ge.
Qed.

Lemma try_drivers_cases drivers bio dio dev slot st :
  (exists s, EFI_ERROR s = true
             /\ try_drivers drivers bio dio dev slot st = (s, st))
  \/ (exists m, device m = dev
                /\ try_drivers drivers bio dio dev slot st
                   = (EFI_SUCCESS,
                      mkTable (<[slot := m]> (mounts st)) (mount_count st + 1))).
Proof.
  induction drivers as [| drv rest IH]; cbn [try_drivers].
  - left. exists EFI_UNSUPPORTED. split; reflexivity.
  - destruct (negb (EFI_ERROR (probe drv bio dio))); [| exact IH].
    destruct (mount drv bio dio) as [status ctx].
    destruct (negb (EFI_ERROR status)); [| exact IH].
    right. exists (mkMount dev false (Some drv) ctx). split; reflexivity.
Qed.

Lemma mount_into_slot_cases dev st :
  (exists s, EFI_ERROR s = true /\ mount_into_slot gBS pool dev st = (s, st))
  \/ (exists m, device m = dev
                /\ mount_into_slot gBS pool dev st
                   = (EFI_SUCCESS,
                      mkTable (<[Z.to_nat (mount_count st) := m]> (mounts st))
                              (mount_count st + 1))).
Proof.
  unfold mount_into_slot.
  destruct (negb (EFI_ERROR (SimpleFileSystem gBS dev))).
  { right. exists (mkMount dev true None None). split; reflexivity. }
  destruct (BlockIo gBS dev) as [status bio].
  destruct (EFI_ERROR status) eqn:E.
  { left. exists status. split; [assumption | reflexivity]. }
  destruct (DiskIo gBS dev) as [status' d].
  apply try_drivers_cases.
Qed.

Lemma open_device_clear_slot dev st :
  find_mount st dev = None ->
  mount_count st < VFS_MAX_MOUNTS ->
  sb_vfs_open_device gBS pool dev (clear_slot dev st)
  = mount_into_slot gBS pool dev (clear_slot dev st).
Proof.
  intros Hfind Hfree. unfold sb_vfs_open_device, find_mount.
  rewrite live_clear_slot. fold (find_mount st dev). rewrite Hfind.
  cbn [clear_slot mount_count].
  destruct (Z.leb_spec VFS_MAX_MOUNTS (mount_count st)); [lia |].
  fold (clear_slot dev st). fold (clear_slot dev (clear_slot dev st)).
  now rewrite clear_slot_idem.
Qed.

Lemma open_twice dev st :
  length (mounts st) = 64%nat ->
  0 <= mount_count st ->
  let r1 := sb_vfs_open_device gBS pool dev st in
  let r2 := sb_vfs_open_device gBS pool dev (snd r1) in
  r2 = r1
  /\ (EFI_ERROR (fst r1) = false -> fst r1 = EFI_SUCCESS)
  /\ ((length (keyed dev st) <= 1)%nat ->
      (length (keyed dev (snd r1)) <= 1)%nat).
Proof.
  intros Hlen Hmc. cbv zeta.
  assert (E1 : sb_vfs_open_device gBS pool dev st
               = match find_mount st dev with
                 | Some _ => (EFI_SUCCESS, st)
                 | None =>
                     if VFS_MAX_MOUNTS <=? mount_count st
                     then (EFI_OUT_OF_RESOURCES, st)
                     else mount_into_slot gBS pool dev (clear_slot dev st)
                 end) by reflexivity.
  destruct (find_mount st dev) as [m |] eqn:Hfind.
  { rewrite E1. cbn [fst snd]. rewrite E1. auto. }
  destruct (Z.leb_spec VFS_MAX_MOUNTS (mount_count st)) as [Hfull | Hfree].
  { rewrite E1. cbn [fst snd]. rewrite E1. repeat split; auto. discriminate. }
  rewrite E1. clear E1.
  destruct (mount_into_slot_cases dev (clear_slot dev st))
    as [(s & Hs & E) | (m & Hm & E)].
  - (* the attempt failed: the second call repeats it on the same table *)
    rewrite E. cbn [fst snd].
    rewrite open_device_clear_slot by assumption.
    split; [exact E |]. split; [congruence |].
    unfold keyed. now rewrite live_clear_slot.
  - (* the device was mounted: the second call finds it *)
    rewrite E. cbn [fst snd clear_slot mount_count].
    pose proof (live_fill dev st m Hmc ltac:(unfold VFS_MAX_MOUNTS in Hfree; lia))
      as L.
    split; [| split; [reflexivity |]].
    + unfold sb_vfs_open_device, find_mount. rewrite L, find_snoc.
      fold (find_mount st dev). rewrite Hfind.
      destruct (Z.eqb_spec (device m) dev); [reflexivity | contradiction].
    + intros _. unfold keyed. rewrite L, filter_app.
      rewrite (find_none_filter dev (live st)) by exact Hfind.
      rewrite filter_cons_True by assumption. simpl. lia.
Qed.


End OpenTwice.

(** C8 (as the code has it).  For every device handle and every mount
    table (64 slots, a count that is not negative), on a firmware that
    answers a repeated protocol request alike, opening the device twice
    leaves the table exactly as opening it once does and the second call
    returns the status of the first: success when the first call
    succeeded, and again the same error when it failed (table full, no
    usable protocol, no driver that mounts).  No second entry keyed by the
    handle comes into use. *)
Theorem C8_open_device_idempotent gBS pool dev st :
  length (Vfs.mounts st) = 64%nat ->
  0 <= Vfs.mount_count st ->
  let r1 := Vfs.sb_vfs_open_device gBS pool dev st in
  let r2 := Vfs.sb_vfs_open_device gBS pool dev (snd r1) in
  snd r2 = snd r1
  /\ fst r2 = fst r1
  /\ (EFI_ERROR (fst r1) = false -> fst r2 = EFI_SUCCESS)
  /\ ((length (Vfs.keyed dev st) <= 1)%nat ->
      (length (Vfs.keyed dev (snd r2)) <= 1)%nat).
Proof.
  intros Hlen Hmc. cbv zeta.
  destruct (open_twice gBS pool dev st Hlen Hmc) as (E & Hok & Hkey).
  cbv zeta in E. rewrite E.
  repeat split; auto.
Qed.

(** C8 on the empty table, for a partition that holds the sample
    filesystem. *)
Lemma C8_open_device_idempotent_witness :
  let r1 := Vfs.sb_vfs_open_device Vfs.gBS_ext4 Ext4.sample_pool 5
              Vfs.empty_table in
  let r2 := Vfs.sb_vfs_open_device Vfs.gBS_ext4 Ext4.sample_pool 5 (snd r1) in
  snd r2 = snd r1
  /\ fst r2 = fst r1
  /\ (EFI_ERROR (fst r1) = false -> fst r2 = EFI_SUCCESS)
  /\ ((length (Vfs.keyed 5 Vfs.empty_table) <= 1)%nat ->
      (length (Vfs.keyed 5 (snd r2)) <= 1)%nat).
Proof.
  exact (C8_open_device_idempotent Vfs.gBS_ext4 Ext4.sample_pool 5
           Vfs.empty_table eq_refl ltac:(vm_compute; discriminate)).
Defined.

(** The sample partition is mounted by the ext4 driver, once. *)
Example open_sample_partition :
  let r1 := Vfs.sb_vfs_open_device Vfs.gBS_ext4 Ext4.sample_pool 5
              Vfs.empty_table in
  fst r1 = EFI_SUCCESS
  /\ Vfs.mount_count (snd r1) = 1
  /\ map (fun m => (Vfs.device m, Vfs.is_native m,
                    option_map Vfs.name (Vfs.driver m)))
         (Vfs.live (snd r1))
     = [(5, false, Some "ext4"%string)].
Proof. cbv zeta. repeat split; vm_compute; reflexivity. Qed.

(** C8 as stated fails: the second call does not return success when the
    first could not mount the device.  For a handle without any of the
    three protocols both calls return EFI_UNSUPPORTED; on a full table
    both return EFI_OUT_OF_RESOURCES. *)
Lemma C8_counterexample :
  (let r1 := Vfs.sb_vfs_open_device Vfs.gBS_bare Ext4.sample_pool 7
               Vfs.empty_table in
   let r2 := Vfs.sb_vfs_open_device Vfs.gBS_bare Ext4.sample_pool 7 (snd r1) in
   fst r2 = EFI_UNSUPPORTED /\ fst r2 <> EFI_SUCCESS)
  /\ (let r1 := Vfs.sb_vfs_open_device Vfs.gBS_ext4 Ext4.sample_pool 7
                  Vfs.full_table in
      let r2 := Vfs.sb_vfs_open_device Vfs.gBS_ext4 Ext4.sample_pool 7 (snd r1) in
      length (Vfs.mounts Vfs.full_table) = 64%nat
      /\ Vfs.find_mount Vfs.full_table 7 = None
      /\ fst r2 = EFI_OUT_OF_RESOURCES /\ fst r2 <> EFI_SUCCESS).
Proof.
  cbv zeta. repeat split; try (vm_compute; reflexivity); vm_compute; discriminate.
Qed.

(** ** config/limine.c: the section parser *)

Section LimineParse.
Import Limine.

Lemma skip_whitespace_le q :
  (length (Util.sb_skip_whitespace q) <= length q)%nat.
Proof.
  induction q as [| ch q IH]; simpl; [lia |].
  destruct ((ch =? 32) || (ch =? 9)); simpl; lia.
Qed.

Lemma skip_whitespace_lt q :
  Util.deref q <> 0 -> Util.deref (Util.sb_skip_whitespace q) = 0 ->
  (length (Util.sb_skip_whitespace q) < length q)%nat.
Proof.
  destruct q as [| ch q]; [simpl; congruence |]. cbn [Util.deref].
  intros Hch. cbn [Util.sb_skip_whitespace].
  destruct ((ch =? 32) || (ch =? 9)).
  - intros _. pose proof (skip_whitespace_le q). simpl. lia.
  - cbn [Util.deref]. congruence.
Qed.

Lemma next_line_le q : (length (Util.sb_next_line q) <= length q)%nat.
Proof.
  induction q as [| ch q IH]; simpl; [lia |].
  destruct (ch =? 0); [simpl; lia |]. destruct (ch =? 10); simpl; lia.
Qed.

Lemma next_line_lt q :
  Util.deref q <> 0 -> (length (Util.sb_next_line q) < length q)%nat.
Proof.
  destruct q as [| ch q]; [simpl; congruence |]. cbn [Util.deref]. intros Hch.
  cbn [Util.sb_next_line]. destruct (Z.eqb_spec ch 0); [contradiction |].
  pose proof (next_line_le q). destruct (ch =? 10); simpl; lia.
Qed.

Lemma scan_le stop limit q : forall i,
  (length (snd (scan stop limit q i)) <= length q)%nat.
Proof.
  induction q as [| ch q IH]; intros i; cbn [scan]; [simpl; lia |].
  destruct (negb (ch =? 0) && negb (stop ch) && (i + 1 <? limit));
    [| simpl; lia].
  specialize (IH (i + 1)). destruct (scan stop limit q (i + 1)). simpl in *. lia.
Qed.

Lemma scan_lt stop limit q :
  Util.deref q <> 0 -> stop (Util.deref q) = false -> 1 < limit ->
  (length (snd (scan stop limit q 0)) < length q)%nat.
Proof.
  destruct q as [| ch q]; [simpl; congruence |]. cbn [Util.deref].
  intros Hch Hstop Hlim. cbn [scan].
  destruct (Z.eqb_spec ch 0); [contradiction |]. rewrite Hstop.
  destruct (Z.ltb_spec (0 + 1) limit); [| lia]. cbn [negb andb].
  pose proof (scan_le stop limit q (0 + 1)).
  destruct (scan stop limit q (0 + 1)). simpl in *. lia.
Qed.

Lemma tl_length {A} (q : list A) : (length (tl q) <= length q)%nat.
Proof. destruct q; simpl; lia. Qed.

Lemma tl_lt q : Util.deref q <> 0 -> (length (tl q) < length q)%nat.
Proof. destruct q; simpl; [congruence | lia]. Qed.

(** A key-value line moves the cursor on unless it stands on a NUL. *)
Lemma key_value_le t q :
  (length (snd (key_value t q)) <= length q)%nat.
Proof.
  unfold key_value.
  pose proof (scan_le (fun ch => (ch =? 58) || (ch =? 10)) 128 q 0) as H1.
  destruct (scan (fun ch => (ch =? 58) || (ch =? 10)) 128 q 0) as [key q1].
  cbn [snd] in H1.
  set (q2 := if Util.deref q1 =? 58 then tl q1 else q1).
  assert (H2 : (length q2 <= length q1)%nat).
  { subst q2. destruct (Util.deref q1 =? 58); [apply tl_length | lia]. }
  pose proof (skip_whitespace_le q2) as H3.
  pose proof (scan_le (fun ch => ch =? 10) SB_MAX_CMDLINE
                (Util.sb_skip_whitespace q2) 0) as H4.
  destruct (scan (fun ch => ch =? 10) SB_MAX_CMDLINE
              (Util.sb_skip_whitespace q2) 0) as [value q3].
  cbn [snd] in *. lia.
Qed.

Lemma key_value_lt t q :
  Util.deref q <> 0 -> Util.deref q <> 10 ->
  (length (snd (key_value t q)) < length q)%nat.
Proof.
  intros H0 H10. unfold key_value.
  destruct (Z.eqb_spec (Util.deref q) 58) as [Hc | Hc].
  - (* the line starts with the colon: no key, the colon is skipped *)
    destruct q as [| ch q]; [simpl in H0; congruence |].
    cbn [Util.deref] in *. subst ch. cbn [scan].
    change (58 =? 0) with false. change (58 =? 58) with true.
    cbn [negb andb orb Util.deref]. change (58 =? 58) with true. cbn [tl].
    pose proof (skip_whitespace_le q) as H3.
    pose proof (scan_le (fun ch => ch =? 10) SB_MAX_CMDLINE
                  (Util.sb_skip_whitespace q) 0) as H4.
    destruct (scan (fun ch => ch =? 10) SB_MAX_CMDLINE
                (Util.sb_skip_whitespace q) 0) as [value q3].
    cbn [snd length] in *. lia.
  - pose proof (scan_lt (fun ch => (ch =? 58) || (ch =? 10)) 128 q H0) as H1.
    destruct (scan (fun ch => (ch =? 58) || (ch =? 10)) 128 q 0) as [key q1].
    cbn [snd] in H1.
    assert (Hs : (Util.deref q =? 58) || (Util.deref q =? 10) = false).
    { apply orb_false_iff. split; apply Z.eqb_neq; assumption. }
    specialize (H1 Hs ltac:(lia)).
    set (q2 := if Util.deref q1 =? 58 then tl q1 else q1).
    assert (H2 : (length q2 <= length q1)%nat).
    { subst q2. destruct (Util.deref q1 =? 58); [apply tl_length | lia]. }
    pose proof (skip_whitespace_le q2) as H3.
    pose proof (scan_le (fun ch => ch =? 10) SB_MAX_CMDLINE
                  (Util.sb_skip_whitespace q2) 0) as H4.
    destruct (scan (fun ch => ch =? 10) SB_MAX_CMDLINE
                (Util.sb_skip_whitespace q2) 0) as [value q3].
    cbn [snd] in *. lia.
Qed.

Lemma limine_path_nonempty src : limine_path_to_uefi src SB_MAX_PATH <> [].
Proof.
  unfold limine_path_to_uefi.
  set (q := match Util.sb_strstr8 src (Util.str "):") with
            | Some colon => skipn 2 colon
            | None => src
            end).
  change (0 + 1 <? SB_MAX_PATH) with true. rewrite andb_true_r.
  destruct (negb (Util.deref q =? 47) && negb (Util.deref q =? 92)) eqn:E;
    [discriminate |].
  cbn [app]. destruct q as [| ch q].
  - simpl in E. discriminate.
  - cbn [Util.deref] in E. cbn [Util.strcpy_loop].
    change (0 + 1 <? SB_MAX_PATH) with true. cbn [andb].
    destruct (Z.eqb_spec ch 0) as [-> | _]; [simpl in E; discriminate |].
    discriminate.
Qed.

Lemma set_key_well_formed t key value :
  well_formed t -> well_formed (set_key t key value).
Proof.
  intros [Hefi Hcount]. unfold set_key, well_formed, SB_MAX_INITRDS in *.
  repeat match goal with
  | |- context [if ?b then _ else _] => destruct b eqn:?
  end; cbn; try (split; [assumption | lia]); try (split; [auto | lia]).
  split; [assumption |].
  match goal with H : (_ <? 8) = true |- _ => apply Z.ltb_lt in H end.
  unfold wrap32. rewrite Z.mod_small by lia. lia.
Qed.

Lemma key_value_well_formed t q :
  well_formed t -> well_formed (fst (key_value t q)).
Proof.
  intros H. unfold key_value.
  destruct (scan _ 128 q 0) as [key q1].
  destruct (scan _ SB_MAX_CMDLINE _ 0) as [value q3].
  cbn [fst]. now apply set_key_well_formed.
Qed.

Section Body.
Variables (device : Z) (config_path_ : list Z) (max : Z).

Lemma limine_body_spec st :
  Util.deref (p st) <> 0 -> parser_inv st ->
  (Limine.measure (snd (limine_body device config_path_ max st))
   < Limine.measure st)%nat
  /\ parser_inv (snd (limine_body device config_path_ max st)).
Proof.
  intros Hp [Hout Hcur]. unfold limine_body, Limine.measure.
  pose proof (skip_whitespace_le (p st)) as Hq.
  pose proof (skip_whitespace_lt (p st) Hp) as Hq0.
  set (q := Util.sb_skip_whitespace (p st)) in *.
  destruct (Z.eqb_spec (Util.deref q) 10) as [E10 | E10].
  { cbn [snd p out cur in_section]. split; [| split; assumption].
    pose proof (tl_lt q ltac:(lia)). destruct (in_section st); lia. }
  destruct (Z.eqb_spec (Util.deref q) 35) as [E35 | E35].
  { cbn [snd p out cur in_section]. split; [| split; assumption].
    pose proof (next_line_lt q ltac:(lia)). destruct (in_section st); lia. }
  destruct (Z.eqb_spec (Util.deref q) 47) as [E47 | E47]; cbn [andb].
  - (* a line that starts with '/' *)
    pose proof (tl_lt q ltac:(lia)) as Htl.
    destruct (in_section st) eqn:Hin; cbn [negb].
    + (* closes the open section *)
      destruct (cur st) as [t |] eqn:Ht.
      * cbn [snd p out cur in_section]. split; [lia |]. split.
        -- destruct (accepted t) eqn:Ha; [| assumption].
           apply Forall_app. split; [assumption |].
           constructor; [| constructor]. split; [assumption | auto].
        -- intros t' Hc; discriminate.
      * cbn [snd p out cur in_section].
        pose proof (next_line_lt q ltac:(lia)).
        split; [lia |]. split; [assumption | intros t' Hc; discriminate].
    + (* opens a section *)
      destruct (max <=? Limine.count st).
      * cbn [snd p out cur in_section].
        split; [lia | split; assumption].
      * pose proof (scan_le (fun ch => ch =? 10) SB_MAX_TITLE (tl q) 0) as Hs.
        destruct (scan (fun ch => ch =? 10) SB_MAX_TITLE (tl q) 0)
          as [title_ q1].
        cbn [snd p out cur in_section] in *.
        pose proof (next_line_le q1). split; [lia |].
        split; [assumption |]. intros t' Hc. inversion Hc; subst; clear Hc.
        unfold well_formed, SB_MAX_INITRDS. cbn. split; [congruence | lia].
  - (* any other line *)
    destruct (in_section st) eqn:Hin.
    + destruct (cur st) as [t |] eqn:Ht.
      * pose proof (key_value_le t q) as Hle.
        pose proof (key_value_lt t q) as Hlt.
        pose proof (key_value_well_formed t q) as Hwf.
        destruct (key_value t q) as [t1 q3].
        cbn [fst snd p out cur in_section] in *.
        pose proof (next_line_le q3).
        split.
        -- destruct (Z.eq_dec (Util.deref q) 0) as [Z0 | Z0].
           ++ specialize (Hq0 Z0). lia.
           ++ specialize (Hlt Z0 E10). lia.
        -- split; [assumption |]. intros t' Hc. inversion Hc; subst; clear Hc.
           auto.
      * cbn [snd p out cur in_section].
        split; [| split; [assumption | intros t' Hc; discriminate]].
        pose proof (next_line_le q).
        destruct (Z.eq_dec (Util.deref q) 0) as [Z0 | Z0].
        -- specialize (Hq0 Z0). lia.
        -- pose proof (next_line_lt q Z0). lia.
    + cbn [snd p out cur in_section].
      split; [| split; assumption].
      pose proof (next_line_le q).
      destruct (Z.eq_dec (Util.deref q) 0) as [Z0 | Z0].
      -- specialize (Hq0 Z0). lia.
      -- pose proof (next_line_lt q Z0). lia.
Qed.

Lemma limine_loop_spec : forall fuel st,
  (Limine.measure st < fuel)%nat -> parser_inv st ->
  exists st', limine_loop device config_path_ max fuel st = Some st'
              /\ parser_inv st'.
Proof.
  induction fuel as [| fuel IH]; intros st Hm Hinv; [lia |].
  cbn [limine_loop].
  destruct (Z.eqb_spec (Util.deref (p st)) 0) as [| Hp]; [eauto |].
  destruct (limine_body_spec st Hp Hinv) as [Hlt Hinv'].
  destruct (limine_body device config_path_ max st) as [brk st'].
  cbn [snd] in *. destruct brk; [eauto |]. apply IH; [lia | assumption].
Qed.

Lemma limine_parse_spec config_data :
  exists targets,
    limine_parse device config_path_ max config_data
    = Some (EFI_SUCCESS, Z.of_nat (length targets), targets)
    /\ Forall entry_ok targets.
Proof.
  unfold limine_parse.
  destruct (limine_loop_spec (2 * length config_data + 1)
              (mkState config_data [] None false))
    as (st & -> & Hout & Hcur).
  - unfold Limine.measure. cbn [p in_section]. lia.
  - split; [constructor | intros t H; discriminate].
  - exists (close_last st). split; [reflexivity |].
    unfold close_last. destruct (in_section st); [| assumption].
    destruct (cur st) as [t |] eqn:Ht; [| assumption].
    destruct (accepted t) eqn:Ha; [| assumption].
    apply Forall_app. split; [assumption |].
    constructor; [| constructor]. split; [assumption | auto].
Qed.

End Body.

End LimineParse.

(** C5 (as the code has it).  For all inputs the section parser returns
    with success, and every entry it accepts carries a kernel path or the
    chainload flag: when is_chainload is false, kernel_path is set; when
    efi_path is set, is_chainload is true; initrd_count is at most 8.  The
    chainload flag alone is enough for acceptance, so is_chainload does
    not imply that efi_path is set. *)
Theorem C5_accepted_entries device config_path max config_data :
  exists targets,
    Limine.limine_parse device config_path max config_data
    = Some (EFI_SUCCESS, Z.of_nat (length targets), targets)
    /\ Forall (fun e =>
         (Limine.kernel_path e <> [] \/ Limine.is_chainload e = true)
         /\ (Limine.is_chainload e = false -> Limine.kernel_path e <> [])
         /\ (Limine.efi_path e <> [] -> Limine.is_chainload e = true)
         /\ 0 <= Limine.initrd_count e <= Limine.SB_MAX_INITRDS) targets.
Proof.
  destruct (limine_parse_spec device config_path max config_data)
    as (targets & E & H).
  exists targets. split; [exact E |].
  eapply Forall_impl; [exact H |].
  intros e [Ha [Hefi Hcount]]. unfold Limine.accepted in Ha.
  assert (K : Limine.is_chainload e = false -> Limine.kernel_path e <> []).
  { intros Hc. rewrite Hc, orb_false_r in Ha.
    intros Hk. rewrite Hk in Ha. discriminate. }
  repeat split; try assumption; try lia.
  destruct (Limine.is_chainload e); [right; reflexivity | left; auto].
Qed.

(** C5 as stated fails: a section that holds only the directive
    [protocol: chainload] is accepted, with is_chainload set and both
    efi_path and kernel_path empty. *)
Lemma C5_counterexample :
  exists e,
    Limine.limine_parse 5 (Ext4.wstr "\limine.cfg") 64 Limine.chainload_only
    = Some (EFI_SUCCESS, 1, [e])
    /\ Limine.is_chainload e = true
    /\ Limine.efi_path e = []
    /\ Limine.kernel_path e = [].
Proof.
  eexists. split; [vm_compute; reflexivity |]. repeat split.
Qed.

(** C9.  On the input of scenario 1 the section parser emits exactly one
    entry: title "Arch", kernel_path "\vmlinuz", cmdline
    "root=UUID=abc rw", is_chainload false; no initrd, no EFI path, index
    0, and the origin it was given. *)
Theorem C9_single_section_entry device config_path max :
  1 <= max ->
  Limine.limine_parse device config_path max Limine.scenario1
  = Some (EFI_SUCCESS, 1,
          [Limine.mkTarget
             (Ext4.wstr "Arch")
             (Ext4.wstr "\vmlinuz")
             [[]; []; []; []; []; []; []; []] 0
             (Util.str "root=UUID=abc rw")
             (Limine.wide config_path)
             Limine.CONFIG_TYPE_LIMINE
             device
             false
             []
             0
             false]).
Proof.
  intros Hmax. destruct max as [| m | m]; try lia.
  vm_compute. reflexivity.
Qed.

(** C9 with the origin the scanner passes for \limine.cfg. *)
Lemma C9_single_section_entry_witness :
  Limine.limine_parse 5 (Ext4.wstr "\limine.cfg") 64 Limine.scenario1
  = Some (EFI_SUCCESS, 1,
          [Limine.mkTarget (Ext4.wstr "Arch") (Ext4.wstr "\vmlinuz")
             [[]; []; []; []; []; []; []; []] 0
             (Util.str "root=UUID=abc rw")
             (Limine.wide (Ext4.wstr "\limine.cfg"))
             Limine.CONFIG_TYPE_LIMINE 5 false [] 0 false]).
Proof.
  apply (C9_single_section_entry 5 (Ext4.wstr "\limine.cfg") 64). lia.
Defined.

(* ===================================================================== *)
(** * Part III: further properties of the code                             *)
(* ===================================================================== *)

(** ** util/string.c *)

Section Strings.
Import Util.

Lemma chars_nil_iff p : chars p = [] <-> deref p = 0.
Proof.
  destruct p as [| c p]; cbn; [tauto |].
  destruct (c =? 0) eqn:E.
  - apply Z.eqb_eq in E. tauto.
  - apply Z.eqb_neq in E. split; [discriminate | tauto].
Qed.

Lemma chars_no_nul p : Forall (fun c => c <> 0) (chars p).
Proof.
  induction p as [| c p IH]; cbn; [constructor |].
  destruct (c =? 0) eqn:E; [constructor |].
  apply Z.eqb_neq in E. constructor; assumption.
Qed.

Lemma chars_id l : Forall (fun c => c <> 0) l -> chars l = l.
Proof.
  induction 1 as [| c l H _ IH]; cbn; [reflexivity |].
  apply Z.eqb_neq in H. rewrite H, IH. reflexivity.
Qed.

Lemma chars_length p : (length (chars p) <= length p)%nat.
Proof.
  induction p as [| c p IH]; cbn; [lia |].
  destruct (c =? 0); cbn; lia.
Qed.

Lemma at_cons c p i : 0 <= i -> at_ (c :: p) (i + 1) = at_ p i.
Proof.
  intros H. unfold at_.
  replace (i + 1 <? 0) with false by (symmetry; apply Z.ltb_ge; lia).
  replace (i <? 0) with false by (symmetry; apply Z.ltb_ge; lia).
  replace (Z.to_nat (i + 1)) with (S (Z.to_nat i)) by lia. reflexivity.
Qed.

Lemma at_0 p : at_ p 0 = deref p.
Proof. destruct p; reflexivity. Qed.

(** X1.  sb_strcmp8 returns 0 exactly when the two strings hold the same
    characters before their terminating NULs. *)
Theorem X1_strcmp8_zero_iff a b :
  sb_strcmp8 a b = 0 <-> chars a = chars b.
Proof.
  revert b. induction a as [| ca a IH]; intros [| cb b];
    cbn [sb_strcmp8 chars deref].
  - tauto.
  - destruct (cb =? 0) eqn:Eb.
    + apply Z.eqb_eq in Eb. subst. tauto.
    + apply Z.eqb_neq in Eb. split; [lia | discriminate].
  - destruct (ca =? 0) eqn:Ea.
    + apply Z.eqb_eq in Ea. subst. tauto.
    + apply Z.eqb_neq in Ea. split; [lia | discriminate].
  - destruct (ca =? 0) eqn:Ea, (cb =? 0) eqn:Eb; cbn [negb andb].
    + apply Z.eqb_eq in Ea, Eb. subst. tauto.
    + apply Z.eqb_eq in Ea. apply Z.eqb_neq in Eb. subst.
      split; [lia | discriminate].
    + apply Z.eqb_neq in Ea. apply Z.eqb_eq in Eb. subst.
      split; [lia | discriminate].
    + destruct (ca =? cb) eqn:E.
      * apply Z.eqb_eq in E. subst. rewrite IH.
        split; [intros -> | intros [= H]]; auto.
      * apply Z.eqb_neq in E. split; [lia | intros [= H _]; contradiction].
Qed.

Lemma strncmp_from_zero_iff a b : forall k i0,
  strncmp_from a b i0 k = 0 <->
  forall i, i0 <= i < i0 + Z.of_nat k ->
    (forall j, i0 <= j < i -> a j <> 0) -> a i = b i.
Proof.
  induction k as [| k IH]; intros i0; cbn [strncmp_from].
  - split; [intros _ i Hi; lia | reflexivity].
  - destruct (a i0 =? b i0) eqn:E; cbn [negb orb].
    + apply Z.eqb_eq in E. destruct (a i0 =? 0) eqn:E0.
      * apply Z.eqb_eq in E0. split; [| lia].
        intros _ i Hi Hnz. destruct (Z.eq_dec i i0) as [-> | Hne]; [exact E |].
        exfalso. apply (Hnz i0); [lia | exact E0].
      * apply Z.eqb_neq in E0. rewrite IH. split.
        -- intros H i Hi Hnz. destruct (Z.eq_dec i i0) as [-> | Hne]; [exact E |].
           apply H; [lia |]. intros j Hj. apply Hnz. lia.
        -- intros H i Hi Hnz. apply H; [lia |].
           intros j Hj. destruct (Z.eq_dec j i0) as [-> | Hne]; [exact E0 |].
           apply Hnz. lia.
    + apply Z.eqb_neq in E. split; [lia |].
      intros H. exfalso. apply E. apply H; [lia |]. intros j Hj. lia.
Qed.

(** X2.  sb_strncmp8 returns 0 exactly when the two arrays agree at every
    index below [n] that lies at or before the first NUL of the first. *)
Theorem X2_strncmp8_zero_iff a b n :
  sb_strncmp8 a b n = 0 <->
  forall i, 0 <= i < n -> (forall j, 0 <= j < i -> a j <> 0) -> a i = b i.
Proof.
  unfold sb_strncmp8. rewrite strncmp_from_zero_iff. split.
  - intros H i Hi. apply H. lia.
  - intros H i Hi. apply H. lia.
Qed.

Lemma strcpy_loop_take f src : forall i max,
  strcpy_loop f src i max
  = map f (take (Z.to_nat (max - 1 - i)) (chars src)).
Proof.
  induction src as [| c src IH]; intros i max; cbn [strcpy_loop chars].
  - now rewrite take_nil.
  - destruct (i + 1 <? max) eqn:E; cbn [andb].
    + apply Z.ltb_lt in E. destruct (c =? 0) eqn:Ec; cbn [negb].
      * now rewrite take_nil.
      * rewrite IH.
        replace (Z.to_nat (max - 1 - i))
          with (S (Z.to_nat (max - 1 - (i + 1)))) by lia.
        reflexivity.
    + apply Z.ltb_ge in E.
      replace (Z.to_nat (max - 1 - i)) with O by lia. reflexivity.
Qed.

Lemma sb_strlen8_chars a : sb_strlen8 a = Z.of_nat (length (chars a)).
Proof.
  induction a as [| c a IH]; cbn [sb_strlen8 chars]; [reflexivity |].
  destruct (c =? 0); [reflexivity |]. cbn [length]. lia.
Qed.

Lemma sb_strcmp8_chars a : sb_strcmp8 (chars a) a = 0.
Proof.
  induction a as [| c a IH]; cbn [chars]; [reflexivity |].
  destruct (c =? 0) eqn:E.
  - apply Z.eqb_eq in E. subst. reflexivity.
  - cbn [sb_strcmp8]. rewrite E, Z.eqb_refl. cbn [negb andb]. exact IH.
Qed.

(** X3.  sb_strcpy8 leaves in the destination the first [max - 1]
    characters of the source: never more than [max - 1] characters before
    the NUL it appends, none of them a NUL, and the whole source, which
    then compares equal to the copy, when the source is shorter than
    [max]. *)
Theorem X3_strcpy8_bounded_copy src max :
  sb_strcpy8 src max = take (Z.to_nat (max - 1)) (chars src)
  /\ Z.of_nat (length (sb_strcpy8 src max)) <= Z.max 0 (max - 1)
  /\ Forall (fun c => c <> 0) (sb_strcpy8 src max)
  /\ (sb_strlen8 src < max ->
      sb_strcpy8 src max = chars src
      /\ sb_strcmp8 (sb_strcpy8 src max) src = 0).
Proof.
  assert (E : sb_strcpy8 src max = take (Z.to_nat (max - 1)) (chars src)).
  { unfold sb_strcpy8. rewrite strcpy_loop_take, map_id.
    now replace (max - 1 - 0) with (max - 1) by lia. }
  rewrite E. split; [reflexivity |]. split; [| split].
  - rewrite length_take. lia.
  - apply Forall_take, chars_no_nul.
  - intros H. rewrite sb_strlen8_chars in H.
    rewrite take_ge by lia. split; [reflexivity | apply sb_strcmp8_chars].
Qed.

(** X4.  sb_strlen8 returns the index of the first NUL: the character at
    that index is NUL (the end of the array reads as NUL) and no character
    before it is. *)
Theorem X4_strlen8_first_nul a :
  0 <= sb_strlen8 a <= Z.of_nat (length a)
  /\ at_ a (sb_strlen8 a) = 0
  /\ (forall i, 0 <= i < sb_strlen8 a -> at_ a i <> 0).
Proof.
  induction a as [| c a (IH1 & IH2 & IH3)]; cbn [sb_strlen8 length].
  - split; [lia |]. split; [reflexivity |]. intros i Hi. lia.
  - destruct (c =? 0) eqn:E.
    + apply Z.eqb_eq in E. subst.
      split; [lia |]. split; [reflexivity |]. intros i Hi. lia.
    + apply Z.eqb_neq in E. split; [lia |]. split.
      * rewrite Z.add_comm, at_cons by lia. exact IH2.
      * intros i Hi. destruct (Z.eq_dec i 0) as [-> | Hne]; [exact E |].
        replace i with (i - 1 + 1) by lia. rewrite at_cons by lia.
        apply IH3. lia.
Qed.

Lemma map_id_Forall {A} (g : A -> A) (P : A -> Prop) l :
  (forall x, P x -> g x = x) -> Forall P l -> map g l = l.
Proof.
  intros Hg. induction 1 as [| x l Hx _ IH]; cbn; [reflexivity |].
  now rewrite Hg, IH.
Qed.

Lemma chars_Forall (P : Z -> Prop) p : Forall P p -> Forall P (chars p).
Proof.
  induction 1 as [| c l Hx _ IH]; cbn [chars]; [constructor |].
  destruct (c =? 0); constructor; assumption.
Qed.

(** X5.  For a string of bytes, narrow to wide and back gives the bounded
    copy of the string with every byte from 0x80 on replaced by '?'; a
    string of 7-bit characters comes back as its bounded copy. *)
Theorem X5_str8to16_roundtrip s max :
  Forall (fun c => 0 <= c < 256) s ->
  sb_str8to16 s max = sb_strcpy8 s max
  /\ sb_str16to8 (sb_str8to16 s max) max
     = map (fun c => if c <? 0x80 then c else 63) (sb_strcpy8 s max)
  /\ (Forall (fun c => c < 0x80) s ->
      sb_str16to8 (sb_str8to16 s max) max = sb_strcpy8 s max).
Proof.
  intros Hs. pose proof (fun P => chars_Forall P s) as Hc.
  assert (E16 : sb_str8to16 s max = sb_strcpy8 s max).
  { unfold sb_str8to16, sb_strcpy8. rewrite !strcpy_loop_take, map_id.
    apply (map_id_Forall _ (fun c => 0 <= c < 256)).
    - intros c H. unfold wrap8. apply Z.mod_small. lia.
    - apply Forall_take, Hc, Hs. }
  assert (E8 : sb_str16to8 (sb_str8to16 s max) max
               = map (fun c => if c <? 0x80 then c else 63) (sb_strcpy8 s max)).
  { rewrite E16. unfold sb_str16to8, sb_strcpy8.
    rewrite !strcpy_loop_take, map_id. f_equal.
    rewrite chars_id by apply Forall_take, chars_no_nul.
    rewrite take_take. f_equal. lia. }
  split; [exact E16 |]. split; [exact E8 |].
  intros H7. rewrite E8.
  apply (map_id_Forall _ (fun c => c < 0x80)).
  - intros c H. apply Z.ltb_lt in H. now rewrite H.
  - unfold sb_strcpy8. rewrite strcpy_loop_take, map_id.
    apply Forall_take, Hc, H7.
Qed.

Lemma X5_str8to16_roundtrip_witness :
  sb_str8to16 (str "vmlinuz") 512 = sb_strcpy8 (str "vmlinuz") 512
  /\ sb_str16to8 (sb_str8to16 (str "vmlinuz") 512) 512
     = map (fun c => if c <? 0x80 then c else 63)
           (sb_strcpy8 (str "vmlinuz") 512)
  /\ (Forall (fun c => c < 0x80) (str "vmlinuz") ->
      sb_str16to8 (sb_str8to16 (str "vmlinuz") 512) 512
      = sb_strcpy8 (str "vmlinuz") 512).
Proof.
  apply (X5_str8to16_roundtrip (str "vmlinuz") 512).
  repeat constructor; vm_compute; congruence.
Defined.

Lemma strncmp_from_shift x h c n : forall k i,
  0 <= i ->
  strncmp_from (at_ (x :: h)) (at_ (c :: n)) (i + 1) k
  = strncmp_from (at_ h) (at_ n) i k.
Proof.
  induction k as [| k IH]; intros i Hi; cbn [strncmp_from]; [reflexivity |].
  rewrite !at_cons by lia. rewrite IH by lia. reflexivity.
Qed.

(** The comparison that sb_strstr8 makes at one position succeeds exactly
    when the needle's characters begin the string at that position. *)
Lemma strncmp_needle_prefix n : forall h,
  sb_strncmp8 (at_ h) (at_ n) (sb_strlen8 n) = 0
  <-> exists post, chars h = chars n ++ post.
Proof.
  unfold sb_strncmp8.
  induction n as [| c n IH]; intros h; cbn [sb_strlen8 chars].
  - cbn. split; eauto.
  - destruct (c =? 0) eqn:Ec.
    + cbn. split; eauto.
    + apply Z.eqb_neq in Ec.
      replace (Z.to_nat (1 + sb_strlen8 n)) with (S (Z.to_nat (sb_strlen8 n)))
        by (rewrite sb_strlen8_chars; lia).
      cbn [strncmp_from]. rewrite !at_0. cbn [deref].
      destruct h as [| x h]; cbn [deref chars].
      * replace (0 =? c) with false by (symmetry; apply Z.eqb_neq; lia).
        cbn [negb orb]. split; [lia | intros [post H]; discriminate].
      * destruct (x =? c) eqn:Ex; cbn [negb orb].
        -- apply Z.eqb_eq in Ex. subst x.
           replace (c =? 0) with false by (symmetry; apply Z.eqb_neq; lia).
           change 1 with (0 + 1). rewrite strncmp_from_shift by lia.
           rewrite IH. split; intros [post H]; exists post.
           ++ cbn. now rewrite H.
           ++ cbn in H. now injection H.
        -- apply Z.eqb_neq in Ex. split; [lia |].
           intros [post H]. destruct (x =? 0); [discriminate |].
           cbn in H. injection H as H _. contradiction.
Qed.

(** X6.  sb_strstr8 finds the first occurrence: the pointer it returns
    lies in the haystack before its NUL, the needle's characters begin the
    string there, and they begin it at no earlier position; it returns NULL
    only for a needle that is not empty and occurs nowhere in the haystack. *)
Theorem X6_strstr8_first_occurrence haystack needle :
  match sb_strstr8 haystack needle with
  | Some q =>
      exists pre,
        haystack = pre ++ q
        /\ Forall (fun c => c <> 0) pre
        /\ (exists post, chars q = chars needle ++ post)
        /\ (forall pre' post',
              chars haystack = pre' ++ chars needle ++ post' ->
              (length pre <= length pre')%nat)
  | None =>
      chars needle <> []
      /\ forall pre post, chars haystack <> pre ++ chars needle ++ post
  end.
Proof.
  unfold sb_strstr8. destruct (deref needle =? 0) eqn:En.
  { apply Z.eqb_eq, chars_nil_iff in En. exists []. rewrite En.
    split; [reflexivity |]. split; [constructor |].
    split; [exists (chars haystack); reflexivity |]. intros; cbn; lia. }
  apply Z.eqb_neq in En.
  assert (Hn : chars needle <> []) by (rewrite chars_nil_iff; exact En).
  induction haystack as [| c rest IH]; cbn [strstr_scan chars].
  - split; [exact Hn |]. intros pre post H. symmetry in H.
    apply app_eq_nil in H as [_ H]. apply app_eq_nil in H as [H _]. auto.
  - destruct (c =? 0) eqn:Ec.
    + split; [exact Hn |]. intros pre post H. symmetry in H.
      apply app_eq_nil in H as [_ H]. apply app_eq_nil in H as [H _]. auto.
    + apply Z.eqb_neq in Ec.
      destruct (sb_strncmp8 (at_ (c :: rest)) (at_ needle) (sb_strlen8 needle)
                =? 0) eqn:Em.
      * apply Z.eqb_eq, strncmp_needle_prefix in Em. exists [].
        split; [reflexivity |]. split; [constructor |].
        split; [exact Em |]. intros; cbn; lia.
      * apply Z.eqb_neq in Em. rewrite strncmp_needle_prefix in Em.
        assert (Hc : chars (c :: rest) = c :: chars rest).
        { cbn [chars]. apply Z.eqb_neq in Ec. now rewrite Ec. }
        destruct (strstr_scan rest needle (sb_strlen8 needle)) as [q |].
        -- destruct IH as (pre & E & Hpre & Hq & Hmin).
           exists (c :: pre). split; [cbn; now rewrite <- E |].
           split; [constructor; assumption |]. split; [exact Hq |].
           intros pre' post' H. destruct pre' as [| x pre'].
           ++ exfalso. apply Em. exists post'. rewrite Hc. exact H.
           ++ cbn in H. injection H as _ H. apply Hmin in H. cbn. lia.
        -- destruct IH as [_ IH]. split; [exact Hn |].
           intros pre post H. destruct pre as [| x pre].
           ++ apply Em. exists post. rewrite Hc. exact H.
           ++ cbn in H. injection H as _ H. exact (IH _ _ H).
Qed.

(** X7.  sb_starts_with8 answers TRUE exactly when the characters of the
    prefix begin the characters of the string. *)
Theorem X7_starts_with8_iff s prefix_ :
  sb_starts_with8 s prefix_ = true
  <-> exists rest, chars s = chars prefix_ ++ rest.
Proof.
  revert s. induction prefix_ as [| c p IH]; intros s;
    cbn [sb_starts_with8 chars].
  - split; eauto.
  - destruct (c =? 0) eqn:Ec; [split; eauto |].
    apply Z.eqb_neq in Ec. destruct s as [| x s]; cbn [deref tl chars].
    + replace (0 =? c) with false by (symmetry; apply Z.eqb_neq; lia).
      split; [discriminate | intros [rest H]; discriminate].
    + destruct (x =? c) eqn:Ex.
      * apply Z.eqb_eq in Ex. subst x.
        replace (c =? 0) with false by (symmetry; apply Z.eqb_neq; lia).
        rewrite IH. split; intros [rest H]; exists rest.
        -- cbn. now rewrite H.
        -- cbn in H. now injection H.
      * apply Z.eqb_neq in Ex. split; [discriminate |].
        intros [rest H]. destruct (x =? 0); [discriminate |].
        cbn in H. injection H as H _. contradiction.
Qed.

(** X8.  The two cursor helpers of the parsers only move forward over what
    they are meant to skip: sb_skip_whitespace passes blanks and tabs and
    stops at the first character that is neither; sb_next_line passes the
    characters of the line and stops just after its newline, or at the NUL
    when the line has none. *)
Theorem X8_line_cursors p :
  (exists ws,
     p = ws ++ sb_skip_whitespace p
     /\ Forall (fun c => c = 32 \/ c = 9) ws
     /\ deref (sb_skip_whitespace p) <> 32
     /\ deref (sb_skip_whitespace p) <> 9)
  /\ (exists line,
        Forall (fun c => c <> 0 /\ c <> 10) line
        /\ (p = line ++ 10 :: sb_next_line p
            \/ (p = line ++ sb_next_line p /\ deref (sb_next_line p) = 0))).
Proof.
  split.
  - induction p as [| c p (ws & E & Hws & H1 & H2)]; cbn [sb_skip_whitespace].
    + exists []. cbn. repeat split; try constructor; lia.
    + destruct ((c =? 32) || (c =? 9)) eqn:Ec.
      * exists (c :: ws). split; [cbn; now rewrite <- E |].
        split; [| split; assumption]. constructor; [| assumption].
        apply orb_true_iff in Ec as [Ec | Ec]; apply Z.eqb_eq in Ec; auto.
      * apply orb_false_iff in Ec as [E1 E2].
        apply Z.eqb_neq in E1, E2. exists [].
        split; [reflexivity |]. split; [constructor |]. cbn. auto.
  - induction p as [| c p (line & Hline & H)]; cbn [sb_next_line].
    + exists []. split; [constructor |]. right. split; reflexivity.
    + destruct (c =? 0) eqn:E0.
      * apply Z.eqb_eq in E0. exists []. split; [constructor |]. right.
        split; [reflexivity | exact E0].
      * apply Z.eqb_neq in E0. destruct (c =? 10) eqn:E10.
        -- apply Z.eqb_eq in E10. subst c. exists [].
           split; [constructor |]. left. reflexivity.
        -- apply Z.eqb_neq in E10. exists (c :: line).
           split; [constructor; auto |].
           destruct H as [H | [H H0]]; [left | right; split; [| exact H0]];
             cbn; now rewrite <- H.
Qed.

End Strings.

(** ** config/limine.c *)

Section LimineMore.
Import Limine.

Lemma strcpy_loop_length f src i max :
  Z.of_nat (length (Util.strcpy_loop f src i max)) <= Z.max 0 (max - 1 - i).
Proof. rewrite strcpy_loop_take, length_map, length_take. lia. Qed.

Lemma limine_path_length src max :
  Z.of_nat (length (limine_path_to_uefi src max)) <= Z.max 0 (max - 1).
Proof.
  unfold limine_path_to_uefi.
  set (q := match Util.sb_strstr8 src (Util.str "):") with
            | Some colon => skipn 2 colon
            | None => src
            end).
  destruct (0 + 1 <? max) eqn:Em.
  - apply Z.ltb_lt in Em.
    destruct (negb (Util.deref q =? 47) && negb (Util.deref q =? 92)).
    + cbn [andb app length].
      pose proof (strcpy_loop_length (fun ch => if ch =? 47 then 92 else ch)
                    q 1 max). lia.
    + cbn [andb app].
      pose proof (strcpy_loop_length (fun ch => if ch =? 47 then 92 else ch)
                    q 0 max). lia.
  - rewrite andb_false_r. cbn [app].
    pose proof (strcpy_loop_length (fun ch => if ch =? 47 then 92 else ch)
                  q 0 max). lia.
Qed.

(** X9.  limine_path_to_uefi never writes more than [max - 1] characters
    before the NUL; what it writes holds no NUL and no forward slash, and
    begins with a backslash whenever the destination has room for one. *)
Theorem X9_limine_path_to_uefi src max :
  let dst := limine_path_to_uefi src max in
  Z.of_nat (length dst) <= Z.max 0 (max - 1)
  /\ Forall (fun ch => ch <> 0 /\ ch <> 47) dst
  /\ (2 <= max -> Util.deref dst = 92).
Proof.
  cbv zeta. split; [apply limine_path_length |].
  unfold limine_path_to_uefi.
  set (q := match Util.sb_strstr8 src (Util.str "):") with
            | Some colon => skipn 2 colon
            | None => src
            end).
  set (f := fun ch => if ch =? 47 then 92 else ch).
  assert (Hf : forall i, Forall (fun ch => ch <> 0 /\ ch <> 47)
                           (Util.strcpy_loop f q i max)).
  { intros i. rewrite strcpy_loop_take. apply Forall_map.
    eapply Forall_impl; [apply Forall_take, chars_no_nul |].
    intros ch Hch. cbn beta in Hch. unfold f.
    destruct (Z.eqb_spec ch 47); lia. }
  split.
  - destruct (negb (Util.deref q =? 47) && negb (Util.deref q =? 92)
              && (0 + 1 <? max)).
    + cbn [app]. constructor; [lia | apply Hf].
    + apply Hf.
  - intros Hmax.
    replace (0 + 1 <? max) with true by (symmetry; apply Z.ltb_lt; lia).
    rewrite andb_true_r.
    destruct (negb (Util.deref q =? 47) && negb (Util.deref q =? 92)) eqn:E;
      [reflexivity |].
    cbn [app]. destruct q as [| ch q']; [discriminate |].
    cbn [Util.deref] in E. cbn [Util.strcpy_loop].
    replace (0 + 1 <? max) with true by (symmetry; apply Z.ltb_lt; lia).
    apply andb_false_iff in E.
    destruct E as [E | E]; apply negb_false_iff, Z.eqb_eq in E; subst ch;
      reflexivity.
Qed.

Section MoreBody.
Variables (device : Z) (config_path_ : list Z) (max : Z).

(** What one pass of the parsing loop does to the entries: nothing; or it
    opens a section in the next free slot; or it closes the open section,
    counting it when it is acceptable; or it stores one key of the open
    section. *)
Lemma limine_body_cases st :
  let st' := snd (limine_body device config_path_ max st) in
  (out st' = out st /\ cur st' = cur st /\ in_section st' = in_section st)
  \/ (count st < max /\ out st' = out st /\ in_section st' = true
      /\ exists title_,
           cur st' = Some (set_title (fresh_target device config_path_ (count st))
                                     (Util.sb_str8to16 title_ SB_MAX_TITLE)))
  \/ (exists t, cur st = Some t /\ cur st' = None /\ in_section st' = false
      /\ out st' = if accepted t then out st ++ [t] else out st)
  \/ (exists t key value, cur st = Some t /\ out st' = out st
      /\ in_section st' = true /\ cur st' = Some (set_key t key value)).
Proof.
  cbv zeta. unfold limine_body.
  set (q := Util.sb_skip_whitespace (p st)).
  destruct (Util.deref q =? 10); [left; cbn; auto |].
  destruct (Util.deref q =? 35); [left; cbn; auto |].
  destruct (Util.deref q =? 47); cbn [andb].
  - destruct (in_section st) eqn:Hin; cbn [negb].
    + destruct (cur st) as [t |] eqn:Ht.
      * right; right; left. exists t. cbn. auto.
      * left. cbn. auto.
    + destruct (max <=? count st) eqn:Ec.
      * left. cbn. auto.
      * right; left. apply Z.leb_gt in Ec.
        destruct (scan (fun ch => ch =? 10) SB_MAX_TITLE (tl q) 0)
          as [title_ q1].
        cbn. split; [lia |]. split; [reflexivity |]. split; [reflexivity |].
        exists title_. reflexivity.
  - destruct (in_section st) eqn:Hin.
    + destruct (cur st) as [t |] eqn:Ht.
      * right; right; right. unfold key_value.
        destruct (scan _ 128 q 0) as [key q1].
        destruct (scan _ SB_MAX_CMDLINE _ 0) as [value q3].
        exists t, key, (trim_trailing value). cbn. auto.
      * left. cbn. auto.
    + left. cbn. auto.
Qed.

Lemma limine_loop_inv (I : pstate -> Prop) :
  (forall st, I st -> I (snd (limine_body device config_path_ max st))) ->
  forall fuel st st',
    I st -> limine_loop device config_path_ max fuel st = Some st' -> I st'.
Proof.
  intros Hstep. induction fuel as [| fuel IH]; intros st st' HI;
    cbn [limine_loop].
  - destruct (Util.deref (p st) =? 0); [intros [= <-]; exact HI | discriminate].
  - destruct (Util.deref (p st) =? 0); [intros [= <-]; exact HI |].
    pose proof (Hstep st HI) as HI'.
    destruct (limine_body device config_path_ max st) as [brk st1].
    cbn [snd] in HI'. destruct brk; [intros [= <-]; exact HI' |].
    apply IH. exact HI'.
Qed.

(** The parser always returns; what it returns is the last state of the
    loop with its open section closed, and every invariant of the loop
    holds of that state. *)
Lemma limine_parse_inv (I : pstate -> Prop) config_data :
  I (mkState config_data [] None false) ->
  (forall st, I st -> I (snd (limine_body device config_path_ max st))) ->
  exists st,
    I st
    /\ limine_parse device config_path_ max config_data
       = Some (EFI_SUCCESS, Z.of_nat (length (close_last st)), close_last st).
Proof.
  intros H0 Hstep. unfold limine_parse.
  destruct (limine_loop_spec device config_path_ max
              (2 * length config_data + 1) (mkState config_data [] None false))
    as (st & E & _).
  - unfold Limine.measure. cbn [p in_section]. lia.
  - split; [constructor | intros t H; discriminate].
  - exists st. split; [| now rewrite E].
    eapply limine_loop_inv; eauto.
Qed.

End MoreBody.

(** X10.  limine_parse never counts more entries than the [max] slots it
    was given. *)
Theorem X10_limine_capacity device cfg_path max config_data :
  exists targets,
    limine_parse device cfg_path max config_data
    = Some (EFI_SUCCESS, Z.of_nat (length targets), targets)
    /\ Z.of_nat (length targets) <= Z.max 0 max.
Proof.
  destruct (limine_parse_inv device cfg_path max
              (fun st => count st <= Z.max 0 max
                         /\ forall t, cur st = Some t -> count st < max)
              config_data) as (st & [Hout Hcur] & E).
  - unfold count. cbn. split; [lia | discriminate].
  - intros st [Hout Hcur].
    destruct (limine_body_cases device cfg_path max st)
      as [(Eo & Ec & _) | [(Hlt & Eo & _ & _) | [(t & Et & Ec & _ & Eo)
          | (t & key & value & Et & Eo & _ & Ec)]]];
      unfold count in *; rewrite ?Eo, ?Ec.
    + split; assumption.
    + split; [lia | intros; assumption].
    + split; [| discriminate]. specialize (Hcur t Et).
      destruct (accepted t); [rewrite length_app; cbn [length] |]; lia.
    + split; [assumption |]. intros _ _. exact (Hcur t Et).
  - exists (close_last st). split; [exact E |].
    unfold close_last, count in *. destruct (in_section st); [| assumption].
    destruct (cur st) as [t |]; [| assumption]. specialize (Hcur t eq_refl).
    destruct (accepted t); [rewrite length_app; cbn [length] |]; lia.
Qed.

Lemma set_key_stamped device cfg_path i t key value :
  stamped device cfg_path i t ->
  stamped device cfg_path i (set_key t key value).
Proof.
  unfold stamped, set_key. intros H.
  repeat match goal with
  | |- context [if ?b then _ else _] => destruct b
  end; cbn; exact H.
Qed.

(** X11.  Every entry that limine_parse returns carries the device handle
    and the configuration path it was called with, the Limine type, no
    default mark, and as its index its own position in the output. *)
Theorem X11_limine_origin device cfg_path max config_data :
  exists targets,
    limine_parse device cfg_path max config_data
    = Some (EFI_SUCCESS, Z.of_nat (length targets), targets)
    /\ forall i e, targets !! i = Some e ->
         config_type e = CONFIG_TYPE_LIMINE
         /\ device_handle e = device
         /\ config_path e = wide cfg_path
         /\ index e = wrap32 (Z.of_nat i)
         /\ is_default e = false.
Proof.
  assert (Hsnoc : forall (l : list BootTarget) t,
    (forall i e, l !! i = Some e -> stamped device cfg_path (Z.of_nat i) e) ->
    stamped device cfg_path (Z.of_nat (length l)) t ->
    forall i e, (l ++ [t]) !! i = Some e ->
      stamped device cfg_path (Z.of_nat i) e).
  { intros l t Hl Ht i e H. apply lookup_app_Some in H as [H | [Hi H]].
    - exact (Hl i e H).
    - destruct (i - length l)%nat eqn:Ei; [| destruct n; discriminate].
      cbn in H. injection H as <-. replace i with (length l) by lia.
      exact Ht. }
  destruct (limine_parse_inv device cfg_path max
              (fun st =>
                 (forall i e, out st !! i = Some e ->
                    stamped device cfg_path (Z.of_nat i) e)
                 /\ forall t, cur st = Some t ->
                      stamped device cfg_path (count st) t)
              config_data) as (st & [Hout Hcur] & E).
  - cbn. split; [intros i e H; destruct i; discriminate | discriminate].
  - intros st [Hout Hcur].
    destruct (limine_body_cases device cfg_path max st)
      as [(Eo & Ec & _) | [(Hlt & Eo & _ & title_ & Ec)
          | [(t & Et & Ec & _ & Eo) | (t & key & value & Et & Eo & _ & Ec)]]];
      unfold count in *; rewrite ?Eo, ?Ec.
    + split; assumption.
    + split; [assumption |]. intros t [= <-]. repeat split.
    + split; [| discriminate]. specialize (Hcur t Et).
      destruct (accepted t); [| assumption]. now apply Hsnoc.
    + split; [assumption |]. intros t' [= <-].
      apply set_key_stamped. exact (Hcur t Et).
  - exists (close_last st). split; [exact E |].
    unfold close_last, count in *. destruct (in_section st); [| exact Hout].
    destruct (cur st) as [t |]; [| exact Hout]. specialize (Hcur t eq_refl).
    destruct (accepted t); [| exact Hout]. now apply Hsnoc.
Qed.

Lemma set_key_fits t key value : fits t -> fits (set_key t key value).
Proof.
  intros (Ht & Hk & He & Hc & Hn & Hi).
  pose proof (limine_path_length value SB_MAX_PATH) as Hp.
  assert (Hcp : Z.of_nat (length (Util.sb_strcpy8 value SB_MAX_CMDLINE))
                < SB_MAX_CMDLINE).
  { unfold Util.sb_strcpy8.
    pose proof (strcpy_loop_length (fun c => c) value 0 SB_MAX_CMDLINE).
    unfold SB_MAX_CMDLINE in *. lia. }
  unfold SB_MAX_PATH in Hp. unfold fits, set_key in *.
  repeat match goal with
  | |- context [if ?b then _ else _] => destruct b
  end; cbn;
    repeat split; try assumption; try (unfold SB_MAX_PATH; lia).
  - now rewrite length_insert.
  - apply Forall_insert; [assumption |]. unfold SB_MAX_PATH. lia.
Qed.

(** X12.  Every string of every entry that limine_parse returns fits its
    array in BootTarget with room for the NUL: the title has fewer than
    256 characters, the kernel path, the EFI path and each of the eight
    initrd paths fewer than 512, the command line fewer than 4096. *)
Theorem X12_limine_fields_fit device cfg_path max config_data :
  exists targets,
    limine_parse device cfg_path max config_data
    = Some (EFI_SUCCESS, Z.of_nat (length targets), targets)
    /\ Forall (fun e =>
         Z.of_nat (length (title e)) < SB_MAX_TITLE
         /\ Z.of_nat (length (kernel_path e)) < SB_MAX_PATH
         /\ Z.of_nat (length (efi_path e)) < SB_MAX_PATH
         /\ Z.of_nat (length (cmdline e)) < SB_MAX_CMDLINE
         /\ length (initrd_paths e) = Z.to_nat SB_MAX_INITRDS
         /\ Forall (fun path => Z.of_nat (length path) < SB_MAX_PATH)
                   (initrd_paths e)) targets.
Proof.
  destruct (limine_parse_inv device cfg_path max
              (fun st => Forall fits (out st)
                         /\ forall t, cur st = Some t -> fits t)
              config_data) as (st & [Hout Hcur] & E).
  - cbn. split; [constructor | discriminate].
  - intros st [Hout Hcur].
    destruct (limine_body_cases device cfg_path max st)
      as [(Eo & Ec & _) | [(Hlt & Eo & _ & title_ & Ec)
          | [(t & Et & Ec & _ & Eo) | (t & key & value & Et & Eo & _ & Ec)]]];
      rewrite ?Eo, ?Ec.
    + split; assumption.
    + split; [assumption |]. intros t [= <-]. unfold fits. cbn.
      pose proof (strcpy_loop_length (fun c => wrap8 c) title_ 0 SB_MAX_TITLE)
        as Ht.
      unfold Util.sb_str8to16, SB_MAX_TITLE, SB_MAX_PATH, SB_MAX_CMDLINE in *.
      repeat split; try lia. repeat constructor.
    + split; [| discriminate]. specialize (Hcur t Et).
      destruct (accepted t); [| assumption].
      apply Forall_app. split; [assumption |].
      constructor; [assumption | constructor].
    + split; [assumption |]. intros t' [= <-].
      apply set_key_fits. exact (Hcur t Et).
  - exists (close_last st). split; [exact E |].
    unfold close_last. destruct (in_section st); [| exact Hout].
    destruct (cur st) as [t |]; [| exact Hout]. specialize (Hcur t eq_refl).
    destruct (accepted t); [| exact Hout].
    apply Forall_app. split; [assumption |].
      constructor; [assumption | constructor].
Qed.

End LimineMore.

(** ** boot/linux.c: the E820 conversion *)

Section E820More.
Import E820.

(** The conversion returns for every positive stride, and returns what the
    coalescing of the visited descriptors gives. *)
Lemma memmap_to_e820_refines mmap mmap_size desc_size e820 max_entries :
  0 < desc_size ->
  exists count e820',
    sb_efi_memmap_to_e820 mmap mmap_size desc_size e820 max_entries
    = Some (count, e820')
    /\ prefix e820' count
       = coalesce_spec max_entries (stride_descs mmap mmap_size desc_size) []
    /\ 0 <= count <= Z.max 0 max_entries.
Proof.
  intros Hd.
  destruct (e820_loop_refines mmap mmap_size desc_size max_entries Hd
              (visited_count mmap_size desc_size) 0
              (Z.to_nat mmap_size + Z.to_nat max_entries) 0 e820)
    as (c' & e' & H1 & H2 & H3).
  - reflexivity.
  - pose proof (visited_le_size mmap_size desc_size Hd). lia.
  - lia.
  - exists c', e'. unfold sb_efi_memmap_to_e820, stride_descs.
    change (Z.of_nat 0 * desc_size) with 0 in H1.
    rewrite H1, H2, (prefix_nonpos e820 0) by lia.
    repeat split; lia.
Qed.

(** Whatever every pass of the loop keeps holds of what the loop returns. *)
Lemma e820_loop_invariant mmap mmap_size desc_size max_entries
    (I : Z -> (Z -> E820Entry) -> Prop) :
  (forall p count e820,
     I count e820 -> count < max_entries ->
     let '(_, count', e820') := e820_body mmap desc_size (p, count, e820) in
     I count' e820') ->
  forall fuel p count e820 count' e820',
    I count e820 ->
    e820_loop fuel mmap mmap_size desc_size max_entries (p, count, e820)
    = Some (count', e820') ->
    I count' e820'.
Proof.
  intros Hstep. induction fuel as [| fuel IH];
    intros p count e820 count' e820' HI; cbn [e820_loop].
  - destruct ((p <? mmap_size) && (count <? max_entries));
      [discriminate | intros [= <- <-]; exact HI].
  - destruct ((p <? mmap_size) && (count <? max_entries)) eqn:G;
      [| intros [= <- <-]; exact HI].
    apply andb_true_iff in G as [_ G]. apply Z.ltb_lt in G.
    pose proof (Hstep p count e820 HI G) as HI'.
    destruct (e820_body mmap desc_size (p, count, e820)) as [[p1 c1] e1].
    apply IH. exact HI'.
Qed.

(** X13.  The conversion writes the output array only in the cells it
    counts: it returns a count between 0 and [max_entries], and every cell
    from the count on is as the caller left it. *)
Theorem X13_e820_writes_within mmap mmap_size desc_size e820 max_entries :
  0 < desc_size ->
  exists count e820',
    sb_efi_memmap_to_e820 mmap mmap_size desc_size e820 max_entries
    = Some (count, e820')
    /\ 0 <= count <= Z.max 0 max_entries
    /\ forall i, i < 0 \/ count <= i -> e820' i = e820 i.
Proof.
  intros Hd.
  destruct (memmap_to_e820_refines mmap mmap_size desc_size e820 max_entries Hd)
    as (count & e820' & E & _ & Hc).
  exists count, e820'. split; [exact E |]. split; [exact Hc |].
  unfold sb_efi_memmap_to_e820 in E.
  refine (proj2 (e820_loop_invariant mmap mmap_size desc_size max_entries
            (fun c e => 0 <= c /\ forall i, i < 0 \/ c <= i -> e i = e820 i)
            _ _ _ _ _ _ _ _ E)).
  - intros p c e [Hc0 Hfr] Hlt. unfold e820_body.
    destruct (merges e c _ _) eqn:Hm.
    + split; [lia |]. intros i Hi. unfold upd.
      apply merges_iff in Hm. destruct (Z.eqb_spec i (c - 1)); [lia |].
      apply Hfr. exact Hi.
    + split; [lia |]. intros i Hi. unfold upd.
      destruct (Z.eqb_spec i c); [lia |]. apply Hfr. lia.
  - split; [lia | reflexivity].
Qed.

Lemma X13_e820_writes_within_witness :
  exists count e820',
    sb_efi_memmap_to_e820 scenario6_map 120 40 (fun _ => mkE820 7 7 7) 128
    = Some (count, e820')
    /\ 0 <= count <= Z.max 0 128
    /\ forall i, i < 0 \/ count <= i -> e820' i = mkE820 7 7 7.
Proof.
  apply (X13_e820_writes_within scenario6_map 120 40 (fun _ => mkE820 7 7 7) 128).
  lia.
Defined.

(** X14.  The output is coalesced: no entry that the conversion returns
    could have been merged into the entry before it (same type, and
    starting where that entry ends). *)
Theorem X14_e820_no_mergeable_neighbours mmap mmap_size desc_size e820
    max_entries :
  0 < desc_size ->
  exists count e820',
    sb_efi_memmap_to_e820 mmap mmap_size desc_size e820 max_entries
    = Some (count, e820')
    /\ forall i, 0 < i < count ->
         ~ (type (e820' (i - 1)) = type (e820' i)
            /\ wrap64 (addr (e820' (i - 1)) + size (e820' (i - 1)))
               = addr (e820' i)).
Proof.
  intros Hd.
  destruct (memmap_to_e820_refines mmap mmap_size desc_size e820 max_entries Hd)
    as (count & e820' & E & _ & Hc).
  exists count, e820'. split; [exact E |].
  unfold sb_efi_memmap_to_e820 in E.
  refine (proj2 (e820_loop_invariant mmap mmap_size desc_size max_entries
            (fun c e => 0 <= c /\ forall i, 0 < i < c ->
               ~ (type (e (i - 1)) = type (e i)
                  /\ wrap64 (addr (e (i - 1)) + size (e (i - 1))) = addr (e i)))
            _ _ _ _ _ _ _ _ E)).
  - intros p c e [Hc0 Hinv] Hlt. unfold e820_body.
    destruct (merges e c _ _) eqn:Hm.
    + split; [lia |]. intros i Hi. unfold upd.
      apply merges_iff in Hm. specialize (Hinv i Hi).
      destruct (Z.eqb_spec (i - 1) (c - 1)); [lia |].
      destruct (Z.eqb_spec i (c - 1)); [subst i; cbn [type addr] |];
        exact Hinv.
    + split; [lia |]. intros i Hi. unfold upd.
      destruct (Z.eqb_spec (i - 1) c); [lia |].
      destruct (Z.eqb_spec i c) as [-> | Hne].
      * cbn [type addr]. intros [Ht Ha].
        assert (Hm' : merges e c
                  (efi_mem_to_e820_type (Type_ (mmap p)))
                  (PhysicalStart (mmap p)) = true).
        { apply merges_iff. repeat split; [lia | exact Ht | exact Ha]. }
        congruence.
      * apply Hinv. lia.
  - split; [lia |]. intros i Hi. lia.
Qed.

Lemma X14_e820_no_mergeable_neighbours_witness :
  exists count e820',
    sb_efi_memmap_to_e820 scenario6_map 120 40 (fun _ => mkE820 0 0 0) 128
    = Some (count, e820')
    /\ forall i, 0 < i < count ->
         ~ (type (e820' (i - 1)) = type (e820' i)
            /\ wrap64 (addr (e820' (i - 1)) + size (e820' (i - 1)))
               = addr (e820' i)).
Proof.
  apply (X14_e820_no_mergeable_neighbours scenario6_map 120 40
           (fun _ => mkE820 0 0 0) 128).
  lia.
Defined.

Lemma sizes_snoc (l : list E820Entry) x :
  fold_right Z.add 0 (map size (l ++ [x]))
  = fold_right Z.add 0 (map size l) + size x.
Proof. induction l as [| a l IH]; cbn; [lia |]. cbn in IH. rewrite IH. lia. Qed.

Lemma coalesce_spec_sizes cap : forall ds out,
  Z.of_nat (length (coalesce_spec cap ds out)) < cap ->
  wrap64 (fold_right Z.add 0 (map size (coalesce_spec cap ds out)))
  = wrap64 (fold_right Z.add 0 (map size out)
            + fold_right Z.add 0
                (map (fun d => NumberOfPages d * 4096) ds)).
Proof.
  induction ds as [| d ds IH]; intros out Hlen; cbn [coalesce_spec] in *.
  - cbn. now rewrite Z.add_0_r.
  - destruct (Z.of_nat (length out) <? cap) eqn:Hcap.
    2:{ apply Z.ltb_ge in Hcap. lia. }
    cbn [map fold_right].
    assert (Happ : forall x,
      wrap64 (fold_right Z.add 0 (map size (out ++ [x]))
              + fold_right Z.add 0 (map (fun d => NumberOfPages d * 4096) ds))
      = wrap64 (fold_right Z.add 0 (map size out) + size x
                + fold_right Z.add 0 (map (fun d => NumberOfPages d * 4096) ds))).
    { intros x. now rewrite sizes_snoc. }
    assert (Hnew : forall k,
      wrap64 (fold_right Z.add 0 (map size out)
              + size (mkE820 (PhysicalStart d)
                        (wrap64 (NumberOfPages d * 4096)) k)
              + fold_right Z.add 0 (map (fun d => NumberOfPages d * 4096) ds))
      = wrap64 (fold_right Z.add 0 (map size out)
                + (NumberOfPages d * 4096
                   + fold_right Z.add 0
                       (map (fun d => NumberOfPages d * 4096) ds)))).
    { intros k. cbn [size].
      set (S0 := fold_right Z.add 0 (map size out)).
      set (R := fold_right Z.add 0 (map (fun d => NumberOfPages d * 4096) ds)).
      replace (S0 + wrap64 (NumberOfPages d * 4096) + R)
        with (wrap64 (NumberOfPages d * 4096) + (S0 + R)) by lia.
      rewrite wrap64_add_l. f_equal. lia. }
    destruct (last out) as [prev |] eqn:Hlast.
    + destruct ((type prev =? efi_mem_to_e820_type (Type_ d))
                && (wrap64 (addr prev + size prev) =? PhysicalStart d)).
      * rewrite IH by exact Hlen.
        apply last_Some in Hlast as [l' ->].
        rewrite removelast_last, !sizes_snoc. cbn [size].
        set (S0 := fold_right Z.add 0 (map size l')).
        set (R := fold_right Z.add 0 (map (fun d => NumberOfPages d * 4096) ds)).
        set (P := NumberOfPages d * 4096).
        replace (S0 + wrap64 (size prev + wrap64 P) + R)
          with (wrap64 (size prev + wrap64 P) + (S0 + R)) by lia.
        rewrite wrap64_add_l.
        replace (size prev + wrap64 P + (S0 + R))
          with (wrap64 P + (size prev + S0 + R)) by lia.
        rewrite wrap64_add_l. f_equal. lia.
      * rewrite IH by exact Hlen. rewrite Happ. apply Hnew.
    + rewrite IH by exact Hlen. rewrite Happ. apply Hnew.
Qed.

(** X15.  Unless the output array filled up, no memory is lost or made up:
    the sizes of the returned entries add up (in 64-bit arithmetic) to the
    sizes of the descriptors of the map, 4096 bytes for each page. *)
Theorem X15_e820_sizes_conserved mmap mmap_size desc_size e820 max_entries :
  0 < desc_size ->
  exists count e820',
    sb_efi_memmap_to_e820 mmap mmap_size desc_size e820 max_entries
    = Some (count, e820')
    /\ (count < max_entries ->
        wrap64 (fold_right Z.add 0 (map size (prefix e820' count)))
        = wrap64 (fold_right Z.add 0
                    (map (fun d => NumberOfPages d * 4096)
                         (stride_descs mmap mmap_size desc_size)))).
Proof.
  intros Hd.
  destruct (memmap_to_e820_refines mmap mmap_size desc_size e820 max_entries Hd)
    as (count & e820' & E & Hspec & Hc).
  exists count, e820'. split; [exact E |]. intros Hlt.
  rewrite Hspec. rewrite coalesce_spec_sizes.
  - reflexivity.
  - rewrite <- Hspec, prefix_length. lia.
Qed.

Lemma X15_e820_sizes_conserved_witness :
  exists count e820',
    sb_efi_memmap_to_e820 scenario6_map 120 40 (fun _ => mkE820 0 0 0) 128
    = Some (count, e820')
    /\ (count < 128 ->
        wrap64 (fold_right Z.add 0 (map size (prefix e820' count)))
        = wrap64 (fold_right Z.add 0
                    (map (fun d => NumberOfPages d * 4096)
                         (stride_descs scenario6_map 120 40)))).
Proof.
  apply (X15_e820_sizes_conserved scenario6_map 120 40
           (fun _ => mkE820 0 0 0) 128).
  lia.
Defined.

End E820More.

(** ** fs/ext4.c *)

Section Ext4More.
Import Ext4.

Lemma deliver_error buf at_ size r :
  EFI_ERROR (fst r) = true -> deliver buf at_ size r = buf.
Proof. unfold deliver. now intros ->. Qed.

Lemma deliver_ok buf at_ size r j :
  EFI_ERROR (fst r) = false ->
  deliver buf at_ size r j
  = if (at_ <=? j) && (j <? at_ + size) then wrap8 (snd r (j - at_)) else buf j.
Proof. unfold deliver. now intros ->. Qed.

(** X16.  ext4_read_bytes reads the byte range it is asked for and nothing
    else, whichever protocol the device offers: when it succeeds the
    buffer holds bytes [offset .. offset + size) of the device and is
    unchanged past them, and when it fails the buffer is untouched.  The
    Block I/O fallback reads the blocks that cover the range and copies
    the range out of them. *)
Theorem X16_ext4_read_bytes_range pool img c offset size buf :
  shows img (block_io c) (disk_io c) ->
  0 < BlockSize (block_io c) ->
  0 <= offset -> 0 <= size ->
  offset + size + BlockSize (block_io c) < 2 ^ 64 ->
  let r := ext4_read_bytes pool c offset size buf in
  (EFI_ERROR (fst r) = true -> snd r = buf)
  /\ (EFI_ERROR (fst r) = false ->
      forall j, snd r j = if (0 <=? j) && (j <? size)
                          then wrap8 (img (offset + j)) else buf j).
Proof.
  intros [Hb Hd] Hbs Hoff Hsize Hmax. cbv zeta. unfold ext4_read_bytes.
  destruct (disk_io c) as [d |].
  - cbn [fst snd]. split; [apply deliver_error |].
    intros Hok j. rewrite deliver_ok by exact Hok. rewrite Z.add_0_l.
    destruct ((0 <=? j) && (j <? size)) eqn:Hj; [| reflexivity].
    apply andb_true_iff in Hj as [H1 H2]. apply Z.leb_le in H1.
    apply Z.ltb_lt in H2. rewrite Z.sub_0_r.
    apply (Hd d eq_refl); [exact Hok | lia].
  - set (bs := BlockSize (block_io c)) in *.
    pose proof (Z.div_mod offset bs ltac:(lia)) as E1.
    pose proof (Z.mod_pos_bound offset bs Hbs) as B1.
    pose proof (Z.div_mod (offset + size + bs - 1) bs ltac:(lia)) as E2.
    pose proof (Z.mod_pos_bound (offset + size + bs - 1) bs Hbs) as B2.
    assert (W1 : wrap64 (offset + size + bs - 1) = offset + size + bs - 1).
    { unfold wrap64. apply Z.mod_small. lia. }
    rewrite W1.
    set (s0 := offset / bs) in *.
    set (e0 := (offset + size + bs - 1) / bs) in *.
    assert (Hse : s0 <= e0) by nia.
    assert (Hs0 : 0 <= s0) by nia.
    assert (W2 : wrap64 (e0 - s0) = e0 - s0).
    { unfold wrap64. apply Z.mod_small. nia. }
    assert (W3 : wrap64 ((e0 - s0) * bs) = (e0 - s0) * bs).
    { unfold wrap64. apply Z.mod_small. nia. }
    rewrite W2, W3.
    destruct (pool_ok pool ((e0 - s0) * bs)); cbn [negb fst snd];
      [| split; [reflexivity | intros H; discriminate]].
    set (r := ReadBlocks (block_io c) s0 ((e0 - s0) * bs)).
    split; [intros ->; reflexivity |].
    intros Hok j. rewrite Hok. unfold CopyMem. rewrite Z.add_0_l.
    destruct ((0 <=? j) && (j <? size)) eqn:Hj; [| reflexivity].
    apply andb_true_iff in Hj as [H1 H2]. apply Z.leb_le in H1.
    apply Z.ltb_lt in H2. rewrite Z.sub_0_r.
    rewrite deliver_ok by exact Hok. rewrite Z.add_0_l, Z.sub_0_r.
    replace ((0 <=? offset mod bs + j)
             && (offset mod bs + j <? (e0 - s0) * bs)) with true.
    + rewrite wrap8_idem. unfold r.
      rewrite Hb; [do 2 f_equal; fold bs; lia | exact Hok | nia].
    + symmetry. apply andb_true_iff. split; [apply Z.leb_le | apply Z.ltb_lt]; nia.
Qed.

Lemma image_shows img capacity bs dio :
  dio = None \/ dio = Some (image_disk_io img capacity) ->
  shows img (image_block_io img capacity bs) dio.
Proof.
  intros H. split.
  - intros lba size j. cbn [ReadBlocks image_block_io BlockSize].
    unfold image_read.
    destruct ((0 <=? lba * bs) && (0 <=? size) && (lba * bs + size <=? capacity));
      cbn [fst snd]; [reflexivity |].
    intros Hc. vm_compute in Hc. discriminate.
  - intros d Hd. destruct H as [H | H]; rewrite H in Hd; [discriminate |].
    injection Hd as <-. intros offset size j.
    cbn [ReadDisk image_disk_io]. unfold image_read.
    destruct ((0 <=? offset) && (0 <=? size) && (offset + size <=? capacity));
      cbn [fst snd]; [reflexivity |].
    intros Hc. vm_compute in Hc. discriminate.
Qed.

Lemma X16_ext4_read_bytes_range_witness :
  let c := mkCtx fs_block_io None (fun _ => 0) 1024 256 32 in
  let r := ext4_read_bytes sample_pool c 1080 2 (fun _ => 0) in
  (EFI_ERROR (fst r) = true -> snd r = (fun _ => 0))
  /\ (EFI_ERROR (fst r) = false ->
      forall j, snd r j = if (0 <=? j) && (j <? 2)
                          then wrap8 (image_fs (1080 + j)) else 0).
Proof.
  apply (X16_ext4_read_bytes_range sample_pool image_fs
           (mkCtx fs_block_io None (fun _ => 0) 1024 256 32) 1080 2
           (fun _ => 0)).
  - apply image_shows. left. reflexivity.
  - reflexivity.
  - lia.
  - lia.
  - reflexivity.
Defined.

Lemma load_le_shift n (m : memory) d : forall off,
  load_le n (fun j => m (d + j)) off = load_le n m (d + off).
Proof.
  induction n as [| n IH]; intros off; cbn [load_le]; [reflexivity |].
  rewrite IH. now rewrite Z.add_assoc.
Qed.

(** What ext4_probe has in its local superblock after a read that
    succeeded: the bytes of the device from offset 1024 on. *)
Lemma probe_superblock_shows pool img bio dio status sb_ :
  shows img bio dio -> 0 < BlockSize bio ->
  probe_superblock pool bio dio = Some (status, sb_) ->
  EFI_ERROR status = false ->
  forall j, 0 <= j < sizeof Ext4Superblock ->
    wrap8 (sb_ j) = wrap8 (img (EXT4_SUPERBLOCK_OFFSET + j)).
Proof.
  intros [Hb Hd] Hbs E Hok j Hj. unfold probe_superblock in E.
  assert (HS : sizeof Ext4Superblock = 204) by reflexivity.
  remember (sizeof Ext4Superblock) as S eqn:HS' in *. clear HS'.
  assert (Hin : (0 <=? j) && (j <? 0 + S) = true).
  { apply andb_true_iff; split; [apply Z.leb_le | apply Z.ltb_lt]; lia. }
  destruct dio as [d |].
  - injection E as <- <-. rewrite deliver_ok by exact Hok.
    rewrite Hin, wrap8_idem, Z.sub_0_r. apply (Hd d eq_refl); assumption.
  - set (bs := BlockSize bio) in *.
    set (sz := if bs <? 2048 then 2048 else bs) in *.
    destruct (pool_ok pool sz); cbn [negb] in E; [| discriminate].
    injection E as <- <-. rewrite Hok. unfold CopyMem.
    rewrite Hin, wrap8_idem, Z.sub_0_r. rewrite deliver_ok by exact Hok.
    pose proof (Z.div_mod EXT4_SUPERBLOCK_OFFSET bs ltac:(lia)) as E1.
    pose proof (Z.mod_pos_bound EXT4_SUPERBLOCK_OFFSET bs Hbs) as B1.
    assert (Hsz : EXT4_SUPERBLOCK_OFFSET mod bs + j < sz).
    { assert (EXT4_SUPERBLOCK_OFFSET mod bs <= 1024).
      { apply Z.mod_le; [unfold EXT4_SUPERBLOCK_OFFSET |]; lia. }
      subst sz. destruct (Z.ltb_spec bs 2048); [lia |].
      rewrite Z.mod_small in * by (unfold EXT4_SUPERBLOCK_OFFSET; lia).
      unfold EXT4_SUPERBLOCK_OFFSET. lia. }
    replace ((0 <=? EXT4_SUPERBLOCK_OFFSET mod bs + j)
             && (EXT4_SUPERBLOCK_OFFSET mod bs + j <? 0 + sz)) with true
      by (symmetry; apply andb_true_iff; split;
          [apply Z.leb_le | apply Z.ltb_lt]; lia).
    rewrite wrap8_idem, Z.sub_0_r.
    rewrite Hb; [do 2 f_equal; fold bs; lia | exact Hok | lia].
Qed.

(** X17.  ext4_probe decides by the 16-bit magic at byte 1080 of the
    device, whichever protocol it reads with: it returns the error of the
    read (or out-of-resources when the sector buffer of the Block I/O
    fallback cannot be allocated), and otherwise success exactly when
    those two bytes are 0x53 0xEF, not-found when they are not. *)
Theorem X17_ext4_probe_magic pool img bio dio :
  shows img bio dio -> 0 < BlockSize bio ->
  let magic :=
    load16 img (EXT4_SUPERBLOCK_OFFSET + offsetof "s_magic" Ext4Superblock) in
  match probe_superblock pool bio dio with
  | None => dio = None /\ ext4_probe pool bio dio = EFI_OUT_OF_RESOURCES
  | Some (status, _) =>
      if EFI_ERROR status then ext4_probe pool bio dio = status
      else (magic = EXT4_SUPER_MAGIC -> ext4_probe pool bio dio = EFI_SUCCESS)
           /\ (magic <> EXT4_SUPER_MAGIC ->
               ext4_probe pool bio dio = EFI_NOT_FOUND)
  end.
Proof.
  intros Hs Hbs. cbv zeta. unfold ext4_probe.
  destruct (probe_superblock pool bio dio) as [[status sb_] |] eqn:E.
  - destruct (EFI_ERROR status) eqn:Hok; [reflexivity |].
    assert (Hm : member Ext4Superblock sb_ 0 "s_magic"
                 = load16 img (EXT4_SUPERBLOCK_OFFSET
                               + offsetof "s_magic" Ext4Superblock)).
    { unfold member, load16.
      change (Z.to_nat (member_size "s_magic" Ext4Superblock)) with 2%nat.
      rewrite <- (load_le_shift 2 img EXT4_SUPERBLOCK_OFFSET), Z.add_0_l.
      apply load_le_ext. intros j Hj.
      apply (probe_superblock_shows pool img bio dio status sb_); try assumption.
      change (offsetof "s_magic" Ext4Superblock) with 56 in Hj.
      change (sizeof Ext4Superblock) with 204. lia. }
    rewrite Hm. split; intros H.
    + apply Z.eqb_eq in H. now rewrite H.
    + apply Z.eqb_neq in H. now rewrite H.
  - split; [| reflexivity]. unfold probe_superblock in E.
    destruct dio; [discriminate | reflexivity].
Qed.

Lemma X17_ext4_probe_magic_witness :
  let magic :=
    load16 image_fs
      (EXT4_SUPERBLOCK_OFFSET + offsetof "s_magic" Ext4Superblock) in
  match probe_superblock sample_pool fs_block_io None with
  | None => @None EFI_DISK_IO_PROTOCOL = None
            /\ ext4_probe sample_pool fs_block_io None = EFI_OUT_OF_RESOURCES
  | Some (status, _) =>
      if EFI_ERROR status
      then ext4_probe sample_pool fs_block_io None = status
      else (magic = EXT4_SUPER_MAGIC ->
            ext4_probe sample_pool fs_block_io None = EFI_SUCCESS)
           /\ (magic <> EXT4_SUPER_MAGIC ->
               ext4_probe sample_pool fs_block_io None = EFI_NOT_FOUND)
  end.
Proof.
  apply (X17_ext4_probe_magic sample_pool image_fs fs_block_io None).
  - apply image_shows. left. reflexivity.
  - reflexivity.
Defined.

Lemma dir_walk_found dir_data dir_size name name_len : forall fuel p ino,
  dir_walk fuel dir_data dir_size name name_len p = Some ino ->
  ino <> 0 -> 0 <= p ->
  exists q, p <= q /\ q + 8 < dir_size
            /\ dir_entry_step dir_data name name_len q = WalkFound ino.
Proof.
  induction fuel as [| fuel IH]; intros p ino; cbn [dir_walk];
    destruct (Z.ltb_spec (p + 8) dir_size) as [Hg | Hg];
    try discriminate; try (intros [= <-] H; contradiction).
  pose proof (dir_entry_step_cases dir_data name name_len p) as Hc.
  cbv zeta in Hc.
  destruct (dir_entry_step dir_data name name_len p) as [| i | p'] eqn:Es.
  - intros [= <-] H; contradiction.
  - intros [= <-] _ Hp. exists p. repeat split; try lia. exact Es.
  - intros H Hne Hp. destruct (IH p' ino H Hne ltac:(lia)) as (q & Hq & Hr).
    exists q. split; [lia | exact Hr].
Qed.

Lemma strncmp8_agree a b n :
  Util.sb_strncmp8 a b n = 0 ->
  (forall i, 0 <= i < n -> b i <> 0) ->
  forall i, 0 <= i < n -> a i = b i.
Proof.
  intros H Hb. unfold Util.sb_strncmp8 in H.
  rewrite strncmp_from_zero_iff in H.
  assert (G : forall i, 0 <= i -> forall j, 0 <= j <= i -> j < n -> a j = b j).
  { intros i Hi. pattern i. apply natlike_ind; [| | exact Hi]; clear i Hi.
    - intros j Hj Hn. replace j with 0 by lia. apply H; [lia |].
      intros k Hk. lia.
    - intros i Hi IH j Hj Hn.
      destruct (Z.eq_dec j (Z.succ i)) as [-> | Hne]; [| apply IH; lia].
      apply H; [lia |]. intros k Hk. rewrite IH by lia. apply Hb. lia. }
  intros i Hi. apply (G i); lia.
Qed.

Lemma strlen8_before a : forall i, 0 <= i < Util.sb_strlen8 a -> Util.at_ a i <> 0.
Proof.
  induction a as [| c a IH]; cbn [Util.sb_strlen8]; intros i Hi; [lia |].
  destruct (c =? 0) eqn:E; [lia |]. apply Z.eqb_neq in E.
  destruct (Z.eq_dec i 0) as [-> | Hne]; [exact E |].
  replace i with (i - 1 + 1) by lia. rewrite at_cons by lia. apply IH. lia.
Qed.

(** X18.  A nonzero result of ext4_dir_lookup is always the inode field
    of a record that lies in the directory data read from the device, is
    in use, and whose name has the length and the characters of the name
    searched for. *)
Theorem X18_dir_lookup_sound pool c dir name ino :
  ext4_dir_lookup pool c dir name = Some ino -> ino <> 0 ->
  let dir_size :=
    Z.lor (Z.shiftl (member Ext4Inode dir 0 "i_size_high") 32)
          (member Ext4Inode dir 0 "i_size_lo") in
  let r := ext4_read_file_data c dir (uninit pool) dir_size in
  EFI_ERROR (fst r) = false
  /\ exists q,
       0 <= q /\ q + 8 < dir_size
       /\ member Ext4DirEntry2 (snd r) q "inode" = ino
       /\ member Ext4DirEntry2 (snd r) q "rec_len" <> 0
       /\ member Ext4DirEntry2 (snd r) q "name_len" = Util.sb_strlen8 name
       /\ forall i, 0 <= i < Util.sb_strlen8 name ->
            wrap8 (snd r (q + 8 + i)) = Util.at_ name i.
Proof.
  cbv zeta. unfold ext4_dir_lookup.
  set (dir_size := Z.lor _ _).
  destruct (pool_ok pool dir_size); cbn [negb];
    [| intros [= <-] H; contradiction].
  destruct (ext4_read_file_data c dir (uninit pool) dir_size)
    as [s dir_data].
  cbn [fst snd]. destruct (EFI_ERROR s); [intros [= <-] H; contradiction |].
  intros H Hne. split; [reflexivity |].
  destruct (dir_walk_found _ _ _ _ _ _ _ H Hne ltac:(lia)) as (q & Hq & Hlt & Es).
  pose proof (dir_entry_step_cases dir_data name (Util.sb_strlen8 name) q) as Hc.
  cbv zeta in Hc. rewrite Es in Hc. destruct Hc as (Hr & Hi & _ & Hl & Hcmp).
  exists q. split; [lia |]. split; [exact Hlt |]. split; [congruence |].
  split; [exact Hr |]. split; [exact Hl |].
  intros i Hi'.
  apply (strncmp8_agree _ _ _ Hcmp); [| exact Hi'].
  intros k Hk. now apply strlen8_before.
Qed.

Lemma X18_dir_lookup_sound_witness :
  let c := mkCtx fs_block_io (Some fs_disk_io) (fun j => image_fs (1024 + j))
                 1024 256 32 in
  let dir := match ext4_read_inode sample_pool c 2 (uninit sample_pool) with
             | Some r => snd r
             | None => uninit sample_pool
             end in
  let name := Util.str "a" in
  let dir_size :=
    Z.lor (Z.shiftl (member Ext4Inode dir 0 "i_size_high") 32)
          (member Ext4Inode dir 0 "i_size_lo") in
  let r := ext4_read_file_data c dir (uninit sample_pool) dir_size in
  EFI_ERROR (fst r) = false
  /\ exists q,
       0 <= q /\ q + 8 < dir_size
       /\ member Ext4DirEntry2 (snd r) q "inode" = 12
       /\ member Ext4DirEntry2 (snd r) q "rec_len" <> 0
       /\ member Ext4DirEntry2 (snd r) q "name_len" = Util.sb_strlen8 name
       /\ forall i, 0 <= i < Util.sb_strlen8 name ->
            wrap8 (snd r (q + 8 + i)) = Util.at_ name i.
Proof.
  apply (X18_dir_lookup_sound sample_pool
           (mkCtx fs_block_io (Some fs_disk_io) (fun j => image_fs (1024 + j))
                  1024 256 32)
           (match ext4_read_inode sample_pool
                    (mkCtx fs_block_io (Some fs_disk_io)
                           (fun j => image_fs (1024 + j)) 1024 256 32)
                    2 (uninit sample_pool) with
            | Some r => snd r
            | None => uninit sample_pool
            end)
           (Util.str "a") 12).
  - vm_compute. reflexivity.
  - lia.
Defined.

Lemma read_file_data_refused c inode buf file_size :
  Z.land (member Ext4Inode inode 0 "i_flags") EXT4_EXTENTS_FL = 0
  \/ member Ext4ExtentHeader inode (offsetof "i_block" Ext4Inode) "eh_magic"
     <> 0xF30A
  \/ member Ext4ExtentHeader inode (offsetof "i_block" Ext4Inode) "eh_depth"
     <> 0 ->
  EFI_ERROR (fst (ext4_read_file_data c inode buf file_size)) = true.
Proof.
  unfold ext4_read_file_data. intros H.
  destruct (Z.eqb_spec (Z.land (member Ext4Inode inode 0 "i_flags")
                               EXT4_EXTENTS_FL) 0) as [| Hf];
    [reflexivity |].
  destruct (Z.eqb_spec (member Ext4ExtentHeader inode
                          (offsetof "i_block" Ext4Inode) "eh_magic") 0xF30A)
    as [| Hm]; cbn [negb]; [| reflexivity].
  destruct (Z.eqb_spec (member Ext4ExtentHeader inode
                          (offsetof "i_block" Ext4Inode) "eh_depth") 0)
    as [| Hd]; cbn [negb]; [| reflexivity].
  destruct H as [H | [H | H]]; contradiction.
Qed.

(** X19.  Only extent-mapped directories with a leaf-only extent tree can
    be searched.  Let the read of the root directory's inode return (it
    does when [s_inodes_per_group] is not zero).  When that read fails, or
    the inode lacks the extents flag (an ext2 or ext3 directory), has a
    bad extent magic or an extent tree with index nodes, every path that
    names at least one component resolves to inode 0, reading it reports
    not-found and leaves the caller's buffer and size alone. *)
Theorem X19_unsearchable_root pool c path buffer0 size0 :
  match ext4_read_inode pool c EXT4_ROOT_INO (uninit pool) with
  | None => False
  | Some root =>
      EFI_ERROR (fst root) = true
      \/ Z.land (member Ext4Inode (snd root) 0 "i_flags") EXT4_EXTENTS_FL = 0
      \/ member Ext4ExtentHeader (snd root) (offsetof "i_block" Ext4Inode)
           "eh_magic" <> 0xF30A
      \/ member Ext4ExtentHeader (snd root) (offsetof "i_block" Ext4Inode)
           "eh_depth" <> 0
  end ->
  path_components path <> [] ->
  ext4_resolve_path pool c path = Some 0
  /\ ext4_read_file pool c path buffer0 size0
     = Some (EFI_NOT_FOUND, buffer0, size0)
  /\ ext4_dir_exists pool c path = Some EFI_NOT_FOUND.
Proof.
  intros Hroot Hpath.
  assert (E : ext4_resolve_path pool c path = Some 0).
  { rewrite ext4_resolve_path_walk.
    destruct (path_components path) as [| comp rest]; [contradiction |].
    cbn [walk].
    destruct (ext4_read_inode pool c EXT4_ROOT_INO (uninit pool))
      as [[s dir] |]; [| contradiction].
    cbn [fst snd] in Hroot.
    destruct (EFI_ERROR s) eqn:Hs; [reflexivity |].
    destruct Hroot as [Hroot | Hroot]; [discriminate |].
    unfold ext4_dir_lookup.
    destruct (pool_ok pool _); cbn [negb]; [| reflexivity].
    pose proof (read_file_data_refused c dir (uninit pool)
                  (Z.lor (Z.shiftl (member Ext4Inode dir 0 "i_size_high") 32)
                         (member Ext4Inode dir 0 "i_size_lo")) Hroot) as Hr.
    destruct (ext4_read_file_data c dir (uninit pool) _) as [s' data].
    cbn [fst] in Hr. rewrite Hr. reflexivity. }
  split; [exact E |]. unfold ext4_read_file, ext4_dir_exists. rewrite E.
  split; reflexivity.
Qed.

Lemma X19_unsearchable_root_witness :
  ext4_resolve_path sample_pool
    (mkCtx (image_block_io image_4k 65536 512)
           (Some (image_disk_io image_4k 65536))
           (fun j => image_4k (1024 + j)) 4096 256 32)
    (wstr "\boot\vmlinuz") = Some 0
  /\ ext4_read_file sample_pool
       (mkCtx (image_block_io image_4k 65536 512)
              (Some (image_disk_io image_4k 65536))
              (fun j => image_4k (1024 + j)) 4096 256 32)
       (wstr "\boot\vmlinuz") None 0
     = Some (EFI_NOT_FOUND, None, 0)
  /\ ext4_dir_exists sample_pool
       (mkCtx (image_block_io image_4k 65536 512)
              (Some (image_disk_io image_4k 65536))
              (fun j => image_4k (1024 + j)) 4096 256 32)
       (wstr "\boot\vmlinuz") = Some EFI_NOT_FOUND.
Proof.
  apply (X19_unsearchable_root sample_pool
           (mkCtx (image_block_io image_4k 65536 512)
                  (Some (image_disk_io image_4k 65536))
                  (fun j => image_4k (1024 + j)) 4096 256 32)
           (wstr "\boot\vmlinuz") None 0).
  - vm_compute. right. left. reflexivity.
  - vm_compute. discriminate.
Defined.

Lemma read_block_form c block buf dst :
  exists r, ext4_read_block c block buf dst
            = (fst r, deliver buf dst (block_size c) r).
Proof. unfold ext4_read_block. destruct (disk_io c); eauto. Qed.

(** The cursor and the bytes left add up to the file size, and no byte
    before the buffer or from [file_size + block_size - 1] on is written:
    the invariant of both loops of ext4_read_file_data. *)
Lemma extent_blocks_bound c phys_block F (buf0 : memory) :
  0 <= block_size c ->
  forall n b st,
    0 <= fst (fst st) -> fst (fst st) + snd (fst st) = F ->
    (forall j, j < 0 \/ F + block_size c - 1 <= j -> snd st j = buf0 j) ->
    let st' := snd (extent_blocks n c phys_block b st) in
    0 <= fst (fst st') /\ fst (fst st') + snd (fst st') = F
    /\ (forall j, j < 0 \/ F + block_size c - 1 <= j -> snd st' j = buf0 j).
Proof.
  intros Hbs. induction n as [| n IH]; intros b [[dst remaining] buf];
    cbn [fst snd]; intros Hd Hsum Hfr; cbn [extent_blocks].
  - cbn [fst snd]. auto.
  - destruct (Z.ltb_spec 0 remaining) as [Hrem | Hrem]; [| cbn [fst snd]; auto].
    destruct (read_block_form c (wrap64 (phys_block + b)) buf dst) as [r Er].
    rewrite Er. cbv beta iota zeta.
    assert (Hbuf : forall j, j < 0 \/ F + block_size c - 1 <= j ->
              deliver buf dst (block_size c) r j = buf0 j).
    { intros j Hj. unfold deliver. destruct (EFI_ERROR (fst r)); [auto |].
      replace ((dst <=? j) && (j <? dst + block_size c)) with false; [auto |].
      symmetry. apply andb_false_iff.
      destruct Hj; [left; apply Z.leb_gt | right; apply Z.ltb_ge]; lia. }
    destruct (EFI_ERROR (fst r)); [cbn [fst snd]; auto |].
    apply IH; cbn [fst snd]; [| lia | exact Hbuf].
    destruct (remaining <? block_size c); lia.
Qed.

Lemma extents_bound c inode F (buf0 : memory) :
  0 <= block_size c ->
  forall n i st,
    0 <= fst (fst st) -> fst (fst st) + snd (fst st) = F ->
    (forall j, j < 0 \/ F + block_size c - 1 <= j -> snd st j = buf0 j) ->
    let st' := snd (extents n c inode i st) in
    0 <= fst (fst st') /\ fst (fst st') + snd (fst st') = F
    /\ (forall j, j < 0 \/ F + block_size c - 1 <= j -> snd st' j = buf0 j).
Proof.
  intros Hbs. induction n as [| n IH]; intros i [[dst remaining] buf];
    cbn [fst snd]; intros Hd Hsum Hfr; cbn [extents].
  - cbn [fst snd]. auto.
  - destruct (0 <? remaining); [| cbn [fst snd]; auto].
    match goal with
    | |- context [extent_blocks ?n c ?ph 0 ?s] =>
        pose proof (extent_blocks_bound c ph F buf0 Hbs n 0 s Hd Hsum Hfr) as Hb;
        destruct (extent_blocks n c ph 0 s) as [[s' |] st1]
    end; cbn [snd] in Hb.
    + cbn [snd]. exact Hb.
    + destruct Hb as (H1 & H2 & H3). apply IH; assumption.
Qed.

(** X20.  ext4_read_file_data reads whole blocks: it may write past the
    [file_size] bytes asked for, but never before the buffer and never at
    or beyond [file_size + block_size - 1]. *)
Theorem X20_read_file_data_write_bound c inode buf file_size :
  0 <= block_size c ->
  forall j, j < 0 \/ file_size + block_size c - 1 <= j ->
    snd (ext4_read_file_data c inode buf file_size) j = buf j.
Proof.
  intros Hbs j Hj. unfold ext4_read_file_data.
  destruct (_ =? 0); [reflexivity |].
  destruct (negb _); [reflexivity |].
  destruct (negb _); [reflexivity |].
  match goal with
  | |- context [extents ?n c inode 0 ?s] =>
      pose proof (extents_bound c inode file_size buf Hbs n 0 s) as Hb;
      cbn [fst snd] in Hb;
      specialize (Hb ltac:(lia) ltac:(lia) (fun _ _ => eq_refl));
      destruct (extents n c inode 0 s) as [[s' |] [[d' r'] buf']]
  end; cbn [snd fst] in *; apply Hb; exact Hj.
Qed.

Lemma X20_read_file_data_write_bound_witness :
  snd (ext4_read_file_data
         (mkCtx fs_block_io (Some fs_disk_io) (fun j => image_fs (1024 + j))
                1024 256 32)
         (fun j => image_fs (5 * 1024 + 256 + j)) (fun _ => 0) 1024) 2047 = 0.
Proof.
  apply (X20_read_file_data_write_bound
           (mkCtx fs_block_io (Some fs_disk_io) (fun j => image_fs (1024 + j))
                  1024 256 32)
           (fun j => image_fs (5 * 1024 + 256 + j)) (fun _ => 0) 1024).
  - cbn. lia.
  - right. cbn. lia.
Defined.

(** X21.  A file no longer than one block is read with a single read of a
    whole block into the caller's buffer: [block_size] bytes are written
    there however small [file_size] is. *)
Theorem X21_short_file_whole_block c inode buf file_size :
  let eh := offsetof "i_block" Ext4Inode in
  let ext := eh + sizeof Ext4ExtentHeader in
  let phys_block :=
    Z.lor (Z.shiftl (member Ext4Extent inode ext "ee_start_hi") 32)
          (member Ext4Extent inode ext "ee_start_lo") in
  Z.land (member Ext4Inode inode 0 "i_flags") EXT4_EXTENTS_FL <> 0 ->
  member Ext4ExtentHeader inode eh "eh_magic" = 0xF30A ->
  member Ext4ExtentHeader inode eh "eh_depth" = 0 ->
  1 <= member Ext4ExtentHeader inode eh "eh_entries" ->
  1 <= member Ext4Extent inode ext "ee_len" <= 32768 ->
  0 < file_size <= block_size c ->
  let r := ext4_read_block c (wrap64 (phys_block + 0)) buf 0 in
  ext4_read_file_data c inode buf file_size
  = (if EFI_ERROR (fst r) then fst r else EFI_SUCCESS, snd r).
Proof.
  cbv zeta. intros Hf Hm Hd He Hl Hs. unfold ext4_read_file_data.
  apply Z.eqb_neq in Hf. rewrite Hf, Hm, Hd. cbn [negb Z.eqb Pos.eqb].
  change (0xF30A =? 0xF30A) with true. cbn [negb].
  destruct (Z.to_nat (member Ext4ExtentHeader inode
                        (offsetof "i_block" Ext4Inode) "eh_entries"))
    as [| n] eqn:En; [lia |].
  cbn [extents].
  replace (0 <? file_size) with true by (symmetry; apply Z.ltb_lt; lia).
  rewrite Z.mul_0_l, Z.add_0_r.
  set (len := member Ext4Extent inode
                (offsetof "i_block" Ext4Inode + sizeof Ext4ExtentHeader)
                "ee_len") in *.
  replace (32768 <? len) with false by (symmetry; apply Z.ltb_ge; lia).
  destruct (Z.to_nat len) as [| m] eqn:Em; [lia |].
  cbn [extent_blocks].
  replace (0 <? file_size) with true by (symmetry; apply Z.ltb_lt; lia).
  destruct (ext4_read_block c _ buf 0) as [s buf'] eqn:Er.
  cbn [fst snd]. destruct (EFI_ERROR s); [reflexivity |].
  assert (Ez : file_size - (if file_size <? block_size c
                            then file_size else block_size c) = 0).
  { destruct (Z.ltb_spec file_size (block_size c)); lia. }
  rewrite Ez.
  assert (E1 : forall d, extent_blocks m c
                 (Z.lor (Z.shiftl (member Ext4Extent inode
                    (offsetof "i_block" Ext4Inode + sizeof Ext4ExtentHeader)
                    "ee_start_hi") 32)
                    (member Ext4Extent inode
                    (offsetof "i_block" Ext4Inode + sizeof Ext4ExtentHeader)
                    "ee_start_lo")) (0 + 1) (d, 0, buf')
               = (None, (d, 0, buf'))).
  { intros d. destruct m; reflexivity. }
  rewrite E1.
  assert (E2 : forall d, extents n c inode (0 + 1) (d, 0, buf')
                         = (None, (d, 0, buf'))).
  { intros d. destruct n; reflexivity. }
  rewrite E2. reflexivity.
Qed.

Lemma X21_short_file_whole_block_witness :
  let c := mkCtx fs_block_io (Some fs_disk_io) (fun j => image_fs (1024 + j))
                 1024 256 32 in
  let inode := fun j => image_fs (5 * 1024 + 256 + j) in
  let r := ext4_read_block c (wrap64 (20 + 0)) (fun _ => 0) 0 in
  ext4_read_file_data c inode (fun _ => 0) 40
  = (if EFI_ERROR (fst r) then fst r else EFI_SUCCESS, snd r).
Proof.
  apply (X21_short_file_whole_block
           (mkCtx fs_block_io (Some fs_disk_io) (fun j => image_fs (1024 + j))
                  1024 256 32)
           (fun j => image_fs (5 * 1024 + 256 + j)) (fun _ => 0) 40).
  - vm_compute. discriminate.
  - vm_compute. reflexivity.
  - vm_compute. reflexivity.
  - vm_compute. discriminate.
  - vm_compute. split; discriminate.
  - cbn. lia.
Defined.

End Ext4More.

(** ** fs/vfs.c *)

Section VfsMore.
Import Vfs.
Variable gBS : BootServices.
Variable pool : Ext4.Pool.

Lemma ext4_mount_context bio dio s ctx :
  Ext4.ext4_mount pool bio dio = (s, ctx) ->
  EFI_ERROR s = false -> s = EFI_SUCCESS /\ exists c, ctx = Some c.
Proof.
  unfold Ext4.ext4_mount.
  destruct (negb (Ext4.pool_ok pool Ext4.sizeof_Ext4Context)).
  { intros [= <- <-] H. vm_compute in H. discriminate. }
  destruct (EFI_ERROR (Ext4.ext4_probe pool bio dio)) eqn:Ep.
  { intros [= <- <-] H. congruence. }
  intros [= <- <-] _. eauto.
Qed.

(** The built-in drivers in turn: only ext4 can take the slot, since the
    mount of every other driver reports that it is unsupported. *)
Lemma try_builtin_cases bio dio dev slot st :
  (exists s, EFI_ERROR s = true
     /\ try_drivers (builtin_drivers pool) bio dio dev slot st = (s, st))
  \/ (exists c,
        try_drivers (builtin_drivers pool) bio dio dev slot st
        = (EFI_SUCCESS,
           mkTable (<[slot := mkMount dev false (Some (sb_vfs_ext4 pool))
                                      (Some c)]> (mounts st))
                   (mount_count st + 1))).
Proof.
  unfold builtin_drivers. cbn [try_drivers].
  assert (Hrest : exists s, EFI_ERROR s = true
            /\ try_drivers [sb_vfs_btrfs pool; sb_vfs_xfs pool; sb_vfs_ntfs pool]
                 bio dio dev slot st = (s, st)).
  { exists EFI_UNSUPPORTED. split; [reflexivity |]. cbn [try_drivers].
    cbn [mount sb_vfs_btrfs sb_vfs_xfs sb_vfs_ntfs Stubs.stub_mount].
    change (negb (EFI_ERROR EFI_UNSUPPORTED)) with false.
    destruct (negb (EFI_ERROR (probe (sb_vfs_btrfs pool) bio dio)));
      destruct (negb (EFI_ERROR (probe (sb_vfs_xfs pool) bio dio)));
      destruct (negb (EFI_ERROR (probe (sb_vfs_ntfs pool) bio dio)));
      reflexivity. }
  destruct (negb (EFI_ERROR (probe (sb_vfs_ext4 pool) bio dio)));
    [| left; exact Hrest].
  cbn [mount sb_vfs_ext4].
  destruct (Ext4.ext4_mount pool bio dio) as [status ctx] eqn:Em.
  destruct (EFI_ERROR status) eqn:Es; cbn [negb]; [left; exact Hrest |].
  destruct (ext4_mount_context _ _ _ _ Em Es) as [_ [c ->]].
  right. exists c. reflexivity.
Qed.

(** What opening a device does to the table: nothing when the device is
    mounted already or cannot be mounted; else one entry for the device
    is appended, a native one or one of the ext4 driver with its context. *)
Lemma open_device_cases dev st :
  length (mounts st) = 64%nat -> 0 <= mount_count st ->
  let r := sb_vfs_open_device gBS pool dev st in
  (exists m, find_mount st dev = Some m /\ r = (EFI_SUCCESS, st))
  \/ (find_mount st dev = None /\ EFI_ERROR (fst r) = true
      /\ live (snd r) = live st /\ mount_count (snd r) = mount_count st
      /\ length (mounts (snd r)) = 64%nat)
  \/ (find_mount st dev = None /\ mount_count st < VFS_MAX_MOUNTS
      /\ fst r = EFI_SUCCESS
      /\ mount_count (snd r) = mount_count st + 1
      /\ length (mounts (snd r)) = 64%nat
      /\ exists m,
           live (snd r) = live st ++ [m]
           /\ (m = mkMount dev true None None
               \/ exists c, m = mkMount dev false (Some (sb_vfs_ext4 pool))
                                        (Some c))).
Proof.
  intros Hlen Hmc. cbv zeta. unfold sb_vfs_open_device.
  destruct (find_mount st dev) as [m |] eqn:Hfind; [left; eauto |].
  right.
  destruct (Z.leb_spec VFS_MAX_MOUNTS (mount_count st)) as [Hfull | Hfree].
  { left. cbn [fst snd]. repeat split; auto. }
  assert (Hslot : (Z.to_nat (mount_count st) < length (mounts st))%nat)
    by (unfold VFS_MAX_MOUNTS in Hfree; lia).
  assert (Hfail : forall s, EFI_ERROR s = true ->
            EFI_ERROR (fst (s, clear_slot dev st)) = true
            /\ live (snd (s, clear_slot dev st)) = live st
            /\ mount_count (snd (s, clear_slot dev st)) = mount_count st
            /\ length (mounts (snd (s, clear_slot dev st))) = 64%nat).
  { intros s Hs. cbn [fst snd]. split; [exact Hs |].
    split; [apply live_clear_slot |]. split; [reflexivity |].
    unfold clear_slot. cbn [mounts]. now rewrite length_insert. }
  assert (Hfill : forall m,
            mount_count (mkTable (<[Z.to_nat (mount_count st) := m]>
                                    (mounts (clear_slot dev st)))
                                 (mount_count st + 1)) = mount_count st + 1
            /\ length (mounts (mkTable (<[Z.to_nat (mount_count st) := m]>
                                          (mounts (clear_slot dev st)))
                                       (mount_count st + 1))) = 64%nat
            /\ live (mkTable (<[Z.to_nat (mount_count st) := m]>
                                (mounts (clear_slot dev st)))
                             (mount_count st + 1)) = live st ++ [m]).
  { intros m. split; [reflexivity |]. split.
    - cbn [mounts clear_slot]. now rewrite !length_insert.
    - now apply live_fill. }
  unfold mount_into_slot. cbn [mount_count clear_slot].
  fold (clear_slot dev st).
  destruct (negb (EFI_ERROR (SimpleFileSystem gBS dev))).
  { right. cbn [fst snd]. destruct (Hfill (mkMount dev true None None))
      as (H1 & H2 & H3).
    repeat split; try assumption; try reflexivity.
    eexists. split; [exact H3 | left; reflexivity]. }
  destruct (BlockIo gBS dev) as [status bio].
  destruct (EFI_ERROR status) eqn:E.
  { left. split; [reflexivity |]. now apply Hfail. }
  destruct (DiskIo gBS dev) as [status' d].
  destruct (try_builtin_cases bio (if EFI_ERROR status' then None else Some d)
              dev (Z.to_nat (mount_count st)) (clear_slot dev st))
    as [(s & Hs & ->) | (c & ->)].
  - left. split; [reflexivity |]. now apply Hfail.
  - right. cbn [fst snd].
    destruct (Hfill (mkMount dev false (Some (sb_vfs_ext4 pool)) (Some c)))
      as (H1 & H2 & H3).
    repeat split; try assumption; try reflexivity.
    eexists. split; [exact H3 | right; eauto].
Qed.

End VfsMore.

(** X22.  Opening a device only ever appends to the mount table: the
    entries in use stay as they are and in place, at most one entry, for
    the device opened, is added behind them, a failed open adds none, and
    the count never passes the 64 slots of the table. *)
Theorem X22_open_appends gBS pool dev st :
  length (Vfs.mounts st) = 64%nat ->
  0 <= Vfs.mount_count st <= Vfs.VFS_MAX_MOUNTS ->
  let r := Vfs.sb_vfs_open_device gBS pool dev st in
  (exists added,
     Vfs.live (snd r) = Vfs.live st ++ added
     /\ (added = []
         \/ exists m, added = [m] /\ Vfs.device m = dev
                      /\ Vfs.find_mount st dev = None
                      /\ fst r = EFI_SUCCESS))
  /\ (EFI_ERROR (fst r) = true -> Vfs.live (snd r) = Vfs.live st)
  /\ 0 <= Vfs.mount_count (snd r) <= Vfs.VFS_MAX_MOUNTS
  /\ length (Vfs.mounts (snd r)) = 64%nat.
Proof.
  intros Hlen Hmc. cbv zeta.
  destruct (open_device_cases gBS pool dev st Hlen ltac:(lia))
    as [(m & Hf & ->) | [(Hf & He & Hl & Hc & Hn)
        | (Hf & Hfree & Hs & Hc & Hn & m & Hl & Hm)]]; cbn [fst snd].
  - split; [exists []; rewrite app_nil_r; auto |].
    split; [reflexivity |]. split; [lia | exact Hlen].
  - split; [exists []; rewrite app_nil_r; auto |].
    split; [intros _; exact Hl |]. split; [lia | exact Hn].
  - split.
    + exists [m]. split; [exact Hl |]. right. exists m.
      repeat split; try assumption.
      destruct Hm as [-> | [c ->]]; reflexivity.
    + split; [rewrite Hs; intros H; vm_compute in H; discriminate |].
      split; [lia | exact Hn].
Qed.

Lemma X22_open_appends_witness :
  let r := Vfs.sb_vfs_open_device Vfs.gBS_ext4 Ext4.sample_pool 5
             Vfs.empty_table in
  (exists added,
     Vfs.live (snd r) = Vfs.live Vfs.empty_table ++ added
     /\ (added = []
         \/ exists m, added = [m] /\ Vfs.device m = 5
                      /\ Vfs.find_mount Vfs.empty_table 5 = None
                      /\ fst r = EFI_SUCCESS))
  /\ (EFI_ERROR (fst r) = true -> Vfs.live (snd r) = Vfs.live Vfs.empty_table)
  /\ 0 <= Vfs.mount_count (snd r) <= Vfs.VFS_MAX_MOUNTS
  /\ length (Vfs.mounts (snd r)) = 64%nat.
Proof.
  apply (X22_open_appends Vfs.gBS_ext4 Ext4.sample_pool 5 Vfs.empty_table).
  - reflexivity.
  - vm_compute. split; discriminate.
Defined.

Lemma find_mount_device st dev m :
  Vfs.find_mount st dev = Some m -> Vfs.device m = dev.
Proof.
  unfold Vfs.find_mount. intros H. apply find_some in H as [_ H].
  now apply Z.eqb_eq in H.
Qed.

Lemma find_mount_snoc st st' dev m dev' :
  Vfs.live st' = Vfs.live st ++ [m] -> Vfs.device m = dev ->
  Vfs.find_mount st' dev'
  = match Vfs.find_mount st dev' with
    | Some y => Some y
    | None => if dev =? dev' then Some m else None
    end.
Proof.
  intros Hl Hm. unfold Vfs.find_mount. rewrite Hl, find_snoc, Hm. reflexivity.
Qed.


(** X23.  After an open that succeeds the device is found in the table,
    under its own handle; and no open changes what is found for any other
    device. *)
Theorem X23_open_then_find gBS pool dev st :
  length (Vfs.mounts st) = 64%nat -> 0 <= Vfs.mount_count st ->
  let r := Vfs.sb_vfs_open_device gBS pool dev st in
  (EFI_ERROR (fst r) = false ->
   exists m, Vfs.find_mount (snd r) dev = Some m /\ Vfs.device m = dev)
  /\ (forall dev', dev' <> dev ->
        Vfs.find_mount (snd r) dev' = Vfs.find_mount st dev').
Proof.
  intros Hlen Hmc. cbv zeta.
  destruct (open_device_cases gBS pool dev st Hlen Hmc)
    as [(m & Hf & ->) | [(Hf & He & Hl & Hc & Hn)
        | (Hf & Hfree & Hs & Hc & Hn & m & Hl & Hm)]]; cbn [fst snd].
  - split; [| reflexivity]. intros _. exists m. split; [exact Hf |].
    exact (find_mount_device _ _ _ Hf).
  - split; [congruence |]. intros dev' _. unfold Vfs.find_mount. now rewrite Hl.
  - assert (Hd : Vfs.device m = dev) by (destruct Hm as [-> | [c ->]]; reflexivity).
    split.
    + intros _. exists m. split; [| exact Hd].
      rewrite (find_mount_snoc st _ dev m dev Hl Hd), Hf, Z.eqb_refl.
      reflexivity.
    + intros dev' Hne. rewrite (find_mount_snoc st _ dev m dev' Hl Hd).
      destruct (Vfs.find_mount st dev'); [reflexivity |].
      destruct (Z.eqb_spec dev dev'); [congruence | reflexivity].
Qed.

Lemma X23_open_then_find_witness :
  let r := Vfs.sb_vfs_open_device Vfs.gBS_ext4 Ext4.sample_pool 5
             Vfs.empty_table in
  (EFI_ERROR (fst r) = false ->
   exists m, Vfs.find_mount (snd r) 5 = Some m /\ Vfs.device m = 5)
  /\ (forall dev', dev' <> 5 ->
        Vfs.find_mount (snd r) dev' = Vfs.find_mount Vfs.empty_table dev').
Proof.
  apply (X23_open_then_find Vfs.gBS_ext4 Ext4.sample_pool 5 Vfs.empty_table).
  - reflexivity.
  - vm_compute. discriminate.
Defined.

Lemma try_stubs pool bio dio dev slot st :
  Vfs.try_drivers [Vfs.sb_vfs_btrfs pool; Vfs.sb_vfs_xfs pool;
                   Vfs.sb_vfs_ntfs pool] bio dio dev slot st
  = (EFI_UNSUPPORTED, st).
Proof.
  cbn [Vfs.try_drivers].
  cbn [Vfs.mount Vfs.sb_vfs_btrfs Vfs.sb_vfs_xfs Vfs.sb_vfs_ntfs
       Stubs.stub_mount].
  change (negb (EFI_ERROR EFI_UNSUPPORTED)) with false.
  destruct (negb (EFI_ERROR (Vfs.probe (Vfs.sb_vfs_btrfs pool) bio dio)));
    destruct (negb (EFI_ERROR (Vfs.probe (Vfs.sb_vfs_xfs pool) bio dio)));
    destruct (negb (EFI_ERROR (Vfs.probe (Vfs.sb_vfs_ntfs pool) bio dio)));
    reflexivity.
Qed.

(** X24.  Only two kinds of mounts exist.  The entry that an open adds is
    either native (the firmware has a SimpleFileSystem on the handle) or
    an ext4 mount with its context; a partition without SimpleFileSystem
    that ext4 does not claim or cannot mount is refused as unsupported,
    whatever the btrfs, xfs and ntfs probes answer, and the table is left
    with the same entries in use. *)
Theorem X24_native_or_ext4 gBS pool dev st :
  length (Vfs.mounts st) = 64%nat ->
  0 <= Vfs.mount_count st < Vfs.VFS_MAX_MOUNTS ->
  Vfs.find_mount st dev = None ->
  let r := Vfs.sb_vfs_open_device gBS pool dev st in
  let bio := snd (Vfs.BlockIo gBS dev) in
  let dio := if EFI_ERROR (fst (Vfs.DiskIo gBS dev)) then None
             else Some (snd (Vfs.DiskIo gBS dev)) in
  (EFI_ERROR (fst r) = false ->
   exists m, Vfs.find_mount (snd r) dev = Some m
     /\ (m = Vfs.mkMount dev true None None
         \/ exists c, m = Vfs.mkMount dev false (Some (Vfs.sb_vfs_ext4 pool))
                                      (Some c)))
  /\ (EFI_ERROR (Vfs.SimpleFileSystem gBS dev) = true ->
      EFI_ERROR (fst (Vfs.BlockIo gBS dev)) = false ->
      EFI_ERROR (Ext4.ext4_probe pool bio dio) = true
      \/ EFI_ERROR (fst (Ext4.ext4_mount pool bio dio)) = true ->
      fst r = EFI_UNSUPPORTED /\ Vfs.live (snd r) = Vfs.live st).
Proof.
  intros Hlen Hmc Hfind. cbv zeta. split.
  - destruct (open_device_cases gBS pool dev st Hlen ltac:(lia))
      as [(m & Hf & _) | [(_ & He & _) | (_ & _ & _ & _ & _ & m & Hl & Hm)]].
    + congruence.
    + congruence.
    + intros _. exists m. split; [| exact Hm].
      assert (Hd : Vfs.device m = dev)
        by (destruct Hm as [-> | [c ->]]; reflexivity).
      rewrite (find_mount_snoc st _ dev m dev Hl Hd), Hfind, Z.eqb_refl.
      reflexivity.
  - intros Hsfs Hbio Hext. unfold Vfs.sb_vfs_open_device. rewrite Hfind.
    destruct (Z.leb_spec Vfs.VFS_MAX_MOUNTS (Vfs.mount_count st)); [lia |].
    unfold Vfs.mount_into_slot. rewrite Hsfs. cbn [negb].
    destruct (Vfs.BlockIo gBS dev) as [status bio]. cbn [fst snd] in *.
    rewrite Hbio.
    destruct (Vfs.DiskIo gBS dev) as [status' d]. cbn [fst snd] in *.
    unfold Vfs.builtin_drivers. cbn [Vfs.try_drivers].
    cbn [Vfs.probe Vfs.mount Vfs.sb_vfs_ext4].
    assert (Hrest : forall slot,
      fst (Vfs.try_drivers [Vfs.sb_vfs_btrfs pool; Vfs.sb_vfs_xfs pool;
                            Vfs.sb_vfs_ntfs pool] bio
             (if EFI_ERROR status' then None else Some d) dev slot
             (Vfs.clear_slot dev st)) = EFI_UNSUPPORTED
      /\ Vfs.live (snd (Vfs.try_drivers
             [Vfs.sb_vfs_btrfs pool; Vfs.sb_vfs_xfs pool; Vfs.sb_vfs_ntfs pool]
             bio (if EFI_ERROR status' then None else Some d) dev slot
             (Vfs.clear_slot dev st))) = Vfs.live st).
    { intros slot. rewrite try_stubs. cbn [fst snd].
      split; [reflexivity | apply live_clear_slot]. }
    destruct (EFI_ERROR (Ext4.ext4_probe pool bio
                (if EFI_ERROR status' then None else Some d))) eqn:Ep;
      cbn [negb]; [apply Hrest |].
    destruct Hext as [Hext | Hext]; [discriminate |].
    destruct (Ext4.ext4_mount pool bio
                (if EFI_ERROR status' then None else Some d)) as [ms ctx].
    cbn [fst] in Hext. rewrite Hext. cbn [negb]. apply Hrest.
Qed.

Lemma X24_native_or_ext4_witness :
  let r := Vfs.sb_vfs_open_device Vfs.gBS_ext4 Ext4.sample_pool 5
             Vfs.empty_table in
  let bio := snd (Vfs.BlockIo Vfs.gBS_ext4 5) in
  let dio := if EFI_ERROR (fst (Vfs.DiskIo Vfs.gBS_ext4 5)) then None
             else Some (snd (Vfs.DiskIo Vfs.gBS_ext4 5)) in
  (EFI_ERROR (fst r) = false ->
   exists m, Vfs.find_mount (snd r) 5 = Some m
     /\ (m = Vfs.mkMount 5 true None None
         \/ exists c, m = Vfs.mkMount 5 false
                            (Some (Vfs.sb_vfs_ext4 Ext4.sample_pool))
                            (Some c)))
  /\ (EFI_ERROR (Vfs.SimpleFileSystem Vfs.gBS_ext4 5) = true ->
      EFI_ERROR (fst (Vfs.BlockIo Vfs.gBS_ext4 5)) = false ->
      EFI_ERROR (Ext4.ext4_probe Ext4.sample_pool bio dio) = true
      \/ EFI_ERROR (fst (Ext4.ext4_mount Ext4.sample_pool bio dio)) = true ->
      fst r = EFI_UNSUPPORTED
      /\ Vfs.live (snd r) = Vfs.live Vfs.empty_table).
Proof.
  apply (X24_native_or_ext4 Vfs.gBS_ext4 Ext4.sample_pool 5 Vfs.empty_table).
  - reflexivity.
  - vm_compute. split; [discriminate | reflexivity].
  - reflexivity.
Defined.

Lemma store_nul buf size : store_le 1 buf size 0 size = 0.
Proof.
  unfold store_le.
  replace ((size <=? size) && (size <? size + 1)) with true
    by (symmetry; apply andb_true_iff; split;
        [apply Z.leb_le | apply Z.ltb_lt]; lia).
  now rewrite Z.sub_diag.
Qed.

Lemma ext4_read_file_nul pool c path buffer0 size0 :
  match Ext4.ext4_read_file pool c path buffer0 size0 with
  | Some (s, buffer, size) =>
      EFI_ERROR s = false -> exists buf, buffer = Some buf /\ buf size = 0
  | None => True
  end.
Proof.
  unfold Ext4.ext4_read_file.
  destruct (Ext4.ext4_resolve_path pool c path) as [ino |]; [| exact I].
  destruct (ino =? 0); [intros H; vm_compute in H; discriminate |].
  destruct (Ext4.ext4_read_inode pool c ino (Ext4.uninit pool))
    as [[s inode] |]; [| exact I].
  destruct (EFI_ERROR s) eqn:Es; [congruence |].
  destruct (negb (Ext4.pool_ok pool _));
    [intros H; vm_compute in H; discriminate |].
  destruct (Ext4.ext4_read_file_data c inode (Ext4.uninit pool) _)
    as [s' buf].
  destruct (EFI_ERROR s') eqn:Es'; [congruence |].
  intros _. eexists. split; [reflexivity | apply store_nul].
Qed.

Lemma read_mounted_nul gBS files pool m dev path buffer0 size0 :
  match Vfs.read_mounted gBS files pool m dev path buffer0 size0 with
  | Some (s, buffer, size) =>
      EFI_ERROR s = false -> exists buf, buffer = Some buf /\ buf size = 0
  | None => True
  end.
Proof.
  unfold Vfs.read_mounted. destruct (Vfs.is_native m).
  - destruct (EFI_ERROR (Vfs.SimpleFileSystem gBS dev)) eqn:E1; [congruence |].
    destruct (EFI_ERROR (Vfs.fp_OpenVolume files dev)) eqn:E2; [congruence |].
    destruct (EFI_ERROR (Vfs.fp_Open files dev path)) eqn:E3; [congruence |].
    destruct (Vfs.fp_GetInfo files dev path) as [status file_size].
    destruct (EFI_ERROR status) eqn:E4; [congruence |].
    destruct (negb (Ext4.pool_ok pool _));
      [intros H; vm_compute in H; discriminate |].
    destruct (Vfs.fp_Read files dev path _ _) as [[status' size] buf].
    intros _. eexists. split; [reflexivity | apply store_nul].
  - destruct (Vfs.driver m) as [drv |];
      [| intros H; vm_compute in H; discriminate].
    unfold Vfs.driver_read_file.
    destruct (String.eqb (Vfs.name drv) "ext4");
      [| intros H; vm_compute in H; discriminate].
    destruct (Vfs.fs_context m) as [c |]; [| exact I].
    apply ext4_read_file_nul.
Qed.

(** X25.  A file that sb_vfs_read_file reports as read is handed over in a
    buffer that is not NULL and holds a NUL right after its [size] bytes,
    on a native mount as on an ext4 mount; the text parsers rely on it. *)
Theorem X25_read_file_nul_terminated gBS files pool dev path buffer0 size0 st :
  match fst (Vfs.sb_vfs_read_file gBS files pool dev path buffer0 size0 st) with
  | Some (s, buffer, size) =>
      EFI_ERROR s = false -> exists buf, buffer = Some buf /\ buf size = 0
  | None => True
  end.
Proof.
  unfold Vfs.sb_vfs_read_file.
  destruct (Vfs.find_mount st dev) as [m |].
  { cbn [fst]. apply read_mounted_nul. }
  destruct (Vfs.sb_vfs_open_device gBS pool dev st) as [s st'].
  destruct (EFI_ERROR s) eqn:Es; [cbn [fst]; congruence |].
  destruct (Vfs.find_mount st' dev) as [m |]; cbn [fst].
  - apply read_mounted_nul.
  - intros H. vm_compute in H. discriminate.
Qed.

(** X26.  sb_vfs_read_file mounts on first access: it leaves the table
    that opening the device leaves, returns the error of the open, with
    the caller's buffer and size untouched, when the device cannot be
    opened, and otherwise does what it does on the opened table: the
    not-found exit after the mount is never taken. *)
Theorem X26_read_file_mounts gBS files pool dev path buffer0 size0 st :
  length (Vfs.mounts st) = 64%nat -> 0 <= Vfs.mount_count st ->
  let opened := Vfs.sb_vfs_open_device gBS pool dev st in
  let r := Vfs.sb_vfs_read_file gBS files pool dev path buffer0 size0 st in
  snd r = snd opened
  /\ (EFI_ERROR (fst opened) = true ->
      fst r = Some (fst opened, buffer0, size0))
  /\ (EFI_ERROR (fst opened) = false ->
      exists m, Vfs.find_mount (snd opened) dev = Some m
        /\ r = Vfs.sb_vfs_read_file gBS files pool dev path buffer0 size0
                 (snd opened)
        /\ fst r = Vfs.read_mounted gBS files pool m dev path buffer0 size0).
Proof.
  intros Hlen Hmc. cbv zeta.
  pose proof (open_device_cases gBS pool dev st Hlen Hmc) as Hcases.
  cbv zeta in Hcases.
  destruct (Vfs.sb_vfs_open_device gBS pool dev st) as [s st'] eqn:Eo.
  cbn [fst snd] in *.
  assert (Emounted : forall t m, Vfs.find_mount t dev = Some m ->
            Vfs.sb_vfs_read_file gBS files pool dev path buffer0 size0 t
            = (Vfs.read_mounted gBS files pool m dev path buffer0 size0, t)).
  { intros t m H. unfold Vfs.sb_vfs_read_file. now rewrite H. }
  destruct Hcases as [(m & Hf & E) | [(Hf & He & _)
                      | (Hf & _ & Hs & _ & _ & m' & Hl & Hm)]].
  - injection E as -> ->. rewrite (Emounted _ _ Hf). cbn [fst snd].
    split; [reflexivity |].
    split; [intros H; vm_compute in H; discriminate |].
    intros _. exists m. repeat split; auto.
  - assert (Er : Vfs.sb_vfs_read_file gBS files pool dev path buffer0 size0 st
                 = (Some (s, buffer0, size0), st')).
    { unfold Vfs.sb_vfs_read_file. rewrite Hf, Eo, He. reflexivity. }
    rewrite Er. cbn [fst snd]. split; [reflexivity |].
    split; [reflexivity | congruence].
  - subst s.
    assert (Hd : Vfs.device m' = dev)
      by (destruct Hm as [-> | [c ->]]; reflexivity).
    assert (Hf' : Vfs.find_mount st' dev = Some m').
    { rewrite (find_mount_snoc st _ dev m' dev Hl Hd), Hf, Z.eqb_refl.
      reflexivity. }
    assert (Er : Vfs.sb_vfs_read_file gBS files pool dev path buffer0 size0 st
                 = (Vfs.read_mounted gBS files pool m' dev path buffer0 size0,
                    st')).
    { unfold Vfs.sb_vfs_read_file. rewrite Hf, Eo.
      change (EFI_ERROR EFI_SUCCESS) with false. cbv iota. now rewrite Hf'. }
    rewrite Er, (Emounted _ _ Hf'). cbn [fst snd]. split; [reflexivity |].
    split; [discriminate |]. intros _. exists m'. auto.
Qed.

Lemma X26_read_file_mounts_witness :
  let files := Vfs.mkFiles (fun _ => EFI_UNSUPPORTED)
                 (fun _ _ => EFI_UNSUPPORTED)
                 (fun _ _ => (EFI_UNSUPPORTED, 0))
                 (fun _ _ _ buf => (EFI_UNSUPPORTED, 0, buf)) in
  let opened := Vfs.sb_vfs_open_device Vfs.gBS_ext4 Ext4.sample_pool 5
                  Vfs.empty_table in
  let r := Vfs.sb_vfs_read_file Vfs.gBS_ext4 files Ext4.sample_pool 5
             (Ext4.wstr "\a") None 0 Vfs.empty_table in
  snd r = snd opened
  /\ (EFI_ERROR (fst opened) = true -> fst r = Some (fst opened, None, 0))
  /\ (EFI_ERROR (fst opened) = false ->
      exists m, Vfs.find_mount (snd opened) 5 = Some m
        /\ r = Vfs.sb_vfs_read_file Vfs.gBS_ext4 files Ext4.sample_pool 5
                 (Ext4.wstr "\a") None 0 (snd opened)
        /\ fst r = Vfs.read_mounted Vfs.gBS_ext4 files Ext4.sample_pool m 5
                     (Ext4.wstr "\a") None 0).
Proof.
  apply (X26_read_file_mounts Vfs.gBS_ext4
           (Vfs.mkFiles (fun _ => EFI_UNSUPPORTED)
              (fun _ _ => EFI_UNSUPPORTED)
              (fun _ _ => (EFI_UNSUPPORTED, 0))
              (fun _ _ _ buf => (EFI_UNSUPPORTED, 0, buf)))
           Ext4.sample_pool 5 (Ext4.wstr "\a") None 0 Vfs.empty_table).
  - reflexivity.
  - vm_compute. discriminate.
Defined.

(** X27.  sb_vfs_file_exists mounts like an open does, leaving the table
    that opening the device leaves; it answers FALSE for a device that
    cannot be opened; and on an ext4 mount it answers by reading the
    whole file: TRUE exactly when sb_vfs_read_file on the opened table
    reports no error. *)
Theorem X27_file_exists gBS files pool dev path st :
  length (Vfs.mounts st) = 64%nat -> 0 <= Vfs.mount_count st ->
  let opened := Vfs.sb_vfs_open_device gBS pool dev st in
  let r := Vfs.sb_vfs_file_exists gBS files pool dev path st in
  snd r = snd opened
  /\ (EFI_ERROR (fst opened) = true -> fst r = Some false)
  /\ (forall m, Vfs.find_mount (snd opened) dev = Some m ->
        Vfs.is_native m = false ->
        fst r = option_map (fun x => negb (EFI_ERROR (fst (fst x))))
                  (fst (Vfs.sb_vfs_read_file gBS files pool dev path None 0
                          (snd opened)))).
Proof.
  intros Hlen Hmc. cbv zeta.
  pose proof (open_device_cases gBS pool dev st Hlen Hmc) as Hcases.
  cbv zeta in Hcases.
  assert (Emounted : forall t m, Vfs.find_mount t dev = Some m ->
            Vfs.sb_vfs_read_file gBS files pool dev path None 0 t
            = (Vfs.read_mounted gBS files pool m dev path None 0, t)).
  { intros t m H. unfold Vfs.sb_vfs_read_file. now rewrite H. }
  assert (Eexists : forall t m, Vfs.find_mount t dev = Some m ->
            (let st1 := t in
             match Vfs.find_mount st1 dev with
             | None => (Some false, st1)
             | Some m =>
                 if Vfs.is_native m then
                   (Some (if EFI_ERROR (Vfs.SimpleFileSystem gBS dev) then false
                          else if EFI_ERROR (Vfs.fp_OpenVolume files dev)
                               then false
                          else if EFI_ERROR (Vfs.fp_Open files dev path)
                               then false
                          else true), st1)
                 else
                   let '(r, st2) :=
                     Vfs.sb_vfs_read_file gBS files pool dev path None 0 st1 in
                   (option_map (fun r => negb (EFI_ERROR (fst (fst r)))) r, st2)
             end)
            = (if Vfs.is_native m then
                 Some (if EFI_ERROR (Vfs.SimpleFileSystem gBS dev) then false
                       else if EFI_ERROR (Vfs.fp_OpenVolume files dev) then false
                       else if EFI_ERROR (Vfs.fp_Open files dev path) then false
                       else true)
               else option_map (fun r => negb (EFI_ERROR (fst (fst r))))
                      (Vfs.read_mounted gBS files pool m dev path None 0), t)).
  { intros t m H. cbv zeta. rewrite H, (Emounted _ _ H).
    destruct (Vfs.is_native m); reflexivity. }
  unfold Vfs.sb_vfs_file_exists.
  destruct (Vfs.sb_vfs_open_device gBS pool dev st) as [s st'] eqn:Eo.
  cbn [fst snd] in *.
  destruct Hcases as [(m & Hf & E) | [(Hf & He & Hl & _)
                      | (Hf & _ & Hs & _ & _ & m' & Hl & Hm)]].
  - injection E as -> ->. rewrite Hf. rewrite (Eexists _ _ Hf). cbn [fst snd].
    split; [reflexivity |].
    split; [intros H; vm_compute in H; discriminate |].
    intros m0 Hm0 Hn. assert (m0 = m) by congruence. subst m0.
    rewrite Hn, (Emounted _ _ Hf). reflexivity.
  - rewrite Hf.
    assert (Hf' : Vfs.find_mount st' dev = None).
    { unfold Vfs.find_mount in *. now rewrite Hl. }
    rewrite Hf'. cbn [fst snd]. split; [reflexivity |].
    split; [reflexivity |]. intros m0 Hm0. congruence.
  - rewrite Hf. subst s.
    assert (Hd : Vfs.device m' = dev)
      by (destruct Hm as [-> | [c ->]]; reflexivity).
    assert (Hf' : Vfs.find_mount st' dev = Some m').
    { rewrite (find_mount_snoc st _ dev m' dev Hl Hd), Hf, Z.eqb_refl.
      reflexivity. }
    rewrite (Eexists _ _ Hf'). cbn [fst snd]. split; [reflexivity |].
    split; [intros H; vm_compute in H; discriminate |].
    intros m0 Hm0 Hn. assert (m0 = m') by congruence. subst m0.
    rewrite Hn, (Emounted _ _ Hf'). reflexivity.
Qed.

Lemma X27_file_exists_witness :
  let files := Vfs.mkFiles (fun _ => EFI_UNSUPPORTED)
                 (fun _ _ => EFI_UNSUPPORTED)
                 (fun _ _ => (EFI_UNSUPPORTED, 0))
                 (fun _ _ _ buf => (EFI_UNSUPPORTED, 0, buf)) in
  let opened := Vfs.sb_vfs_open_device Vfs.gBS_ext4 Ext4.sample_pool 5
                  Vfs.empty_table in
  let r := Vfs.sb_vfs_file_exists Vfs.gBS_ext4 files Ext4.sample_pool 5
             (Ext4.wstr "\a") Vfs.empty_table in
  snd r = snd opened
  /\ (EFI_ERROR (fst opened) = true -> fst r = Some false)
  /\ (forall m, Vfs.find_mount (snd opened) 5 = Some m ->
        Vfs.is_native m = false ->
        fst r = option_map (fun x => negb (EFI_ERROR (fst (fst x))))
                  (fst (Vfs.sb_vfs_read_file Vfs.gBS_ext4 files
                          Ext4.sample_pool 5 (Ext4.wstr "\a") None 0
                          (snd opened)))).
Proof.
  apply (X27_file_exists Vfs.gBS_ext4
           (Vfs.mkFiles (fun _ => EFI_UNSUPPORTED)
              (fun _ _ => EFI_UNSUPPORTED)
              (fun _ _ => (EFI_UNSUPPORTED, 0))
              (fun _ _ _ buf => (EFI_UNSUPPORTED, 0, buf)))
           Ext4.sample_pool 5 (Ext4.wstr "\a") Vfs.empty_table).
  - reflexivity.
  - vm_compute. discriminate.
Defined.

(** ** boot/linux.c: the initrds and the public entry *)

Section BootMore.
Import Linux.

Lemma prefix_nth {A} (a : Z -> A) n k d :
  (k < Z.to_nat n)%nat -> nth k (prefix a n) d = a (Z.of_nat k).
Proof.
  intros H. unfold prefix.
  rewrite (nth_indep _ d (a (Z.of_nat 0))) by (now rewrite length_map, length_seq).
  rewrite (map_nth (fun i => a (Z.of_nat i))), seq_nth by exact H.
  reflexivity.
Qed.

Lemma read_initrds_total gBS files pool dev : forall paths acc st,
  acc = wrap64 acc ->
  match Boot.read_initrds gBS files pool dev paths acc st with
  | None => True
  | Some (slots, total, _) =>
      length slots = length paths
      /\ total = wrap64 (acc + fold_right Z.add 0
                    (map (fun slot => if EFI_ERROR (fst (fst slot)) then 0
                                      else snd slot) slots))
  end.
Proof.
  induction paths as [| path rest IH]; intros acc st Hacc;
    cbn [Boot.read_initrds].
  - cbn. split; [reflexivity |]. now rewrite Z.add_0_r.
  - destruct (Vfs.sb_vfs_read_file gBS files pool dev path None 0 st)
      as [[[[s buf] size] |] st1]; [| exact I].
    set (acc1 := if EFI_ERROR s then acc else wrap64 (acc + size)).
    assert (Hacc1 : acc1 = wrap64 acc1).
    { subst acc1. destruct (EFI_ERROR s); [exact Hacc |].
      unfold wrap64. now rewrite Z.mod_mod by lia. }
    specialize (IH acc1 st1 Hacc1).
    destruct (Boot.read_initrds gBS files pool dev rest acc1 st1)
      as [[[slots total] st2] |]; [| exact I].
    destruct IH as [Hlen Htot]. split; [cbn; now rewrite Hlen |].
    rewrite Htot. cbn [map fold_right fst snd]. subst acc1.
    destruct (EFI_ERROR s); [f_equal; lia |].
    rewrite wrap64_add_l. f_equal. lia.
Qed.

Lemma copy_initrds_spec : forall slots region dest,
  Forall (fun slot => 0 <= snd slot) slots ->
  let r := Boot.copy_initrds slots region dest in
  snd r = dest + Z.of_nat (length (Boot.copied slots))
  /\ (forall j, dest <= j < snd r ->
        fst r j = nth (Z.to_nat (j - dest)) (Boot.copied slots) 0)
  /\ (forall j, j < dest \/ snd r <= j -> fst r j = region j).
Proof.
  induction slots as [| [[s buf] size] rest IH]; intros region dest Hs;
    cbn [Boot.copy_initrds Boot.copied].
  - cbn. split; [lia |]. split; [intros j Hj; lia | reflexivity].
  - apply Forall_cons in Hs as [Hsize Hs]. cbn [snd] in Hsize.
    destruct buf as [buf |].
    + specialize (IH (CopyMem region dest buf 0 size) (dest + size) Hs).
      cbv zeta in IH. destruct IH as (H1 & H2 & H3).
      rewrite length_app, prefix_length. split; [lia |]. split.
      * intros j Hj. destruct (Z.lt_ge_cases j (dest + size)) as [Hin | Hout].
        -- rewrite H3 by lia. unfold CopyMem.
           replace ((dest <=? j) && (j <? dest + size)) with true
             by (symmetry; apply andb_true_iff; split;
                 [apply Z.leb_le | apply Z.ltb_lt]; lia).
           rewrite app_nth1 by (rewrite prefix_length; lia).
           rewrite prefix_nth by lia. do 2 f_equal. lia.
        -- rewrite H2 by lia.
           rewrite app_nth2 by (rewrite prefix_length; lia).
           rewrite prefix_length. f_equal. lia.
      * intros j Hj. rewrite H3 by lia. unfold CopyMem.
        replace ((dest <=? j) && (j <? dest + size)) with false;
          [reflexivity |].
        symmetry. apply andb_false_iff.
        destruct Hj; [left; apply Z.leb_gt | right; apply Z.ltb_ge]; lia.
    + apply IH. exact Hs.
Qed.

Lemma copied_length_sum : forall slots,
  Forall (fun slot => 0 <= snd slot
                      /\ (EFI_ERROR (fst (fst slot)) = true
                          <-> snd (fst slot) = None)) slots ->
  Z.of_nat (length (Boot.copied slots))
  = fold_right Z.add 0
      (map (fun slot => if EFI_ERROR (fst (fst slot)) then 0 else snd slot)
           slots).
Proof.
  induction 1 as [| [[s buf] size] rest [Hsize Hnull] _ IH];
    cbn [Boot.copied map fold_right fst snd] in *; [reflexivity |].
  destruct buf as [buf |].
  - destruct (EFI_ERROR s); [destruct Hnull as [Hn _]; now specialize (Hn eq_refl) |].
    rewrite length_app, prefix_length. lia.
  - destruct (EFI_ERROR s); [lia |].
    destruct Hnull as [_ Hn]. now specialize (Hn eq_refl).
Qed.

End BootMore.

(** X28.  load_initrds puts the images one after the other.  It reports
    either nothing loaded (address and total 0: no initrd, nothing read,
    or no pages to be had) or the total of the sizes of the reads that
    succeeded, with a region into which the copying loop has written,
    from its start and in the order of the paths, the buffer of every
    read that left one, and nothing else.  When each failed read left no
    buffer, as the ext4 driver does, what is written is exactly the total
    reported; a failed native read leaves its buffer, and that one is
    copied as well. *)
Theorem X28_initrds_concatenated fw gBS files pool target fresh st t :
  let paths := take (Z.to_nat (Limine.initrd_count target))
                    (Limine.initrd_paths target) in
  let out := Boot.load_initrds fw gBS files pool target fresh st t in
  match Boot.read_initrds gBS files pool (Limine.device_handle target)
          paths 0 st with
  | None => snd out = (None, st)
  | Some (slots, total, st') =>
      length slots = length paths
      /\ total = wrap64 (fold_right Z.add 0
                   (map (fun slot => if EFI_ERROR (fst (fst slot)) then 0
                                     else snd slot) slots))
      /\ (exists status addr size region,
            snd out = (Some (status, addr, size, region), st')
            /\ ((addr = 0 /\ size = 0 /\ region = fresh)
                \/ (EFI_ERROR status = false /\ size = total
                    /\ region = fst (Boot.copy_initrds slots fresh 0))))
      /\ (Forall (fun slot => 0 <= snd slot) slots ->
          let r := Boot.copy_initrds slots fresh 0 in
          snd r = Z.of_nat (length (Boot.copied slots))
          /\ (forall j, 0 <= j < snd r ->
                fst r j = nth (Z.to_nat j) (Boot.copied slots) 0)
          /\ (forall j, j < 0 \/ snd r <= j -> fst r j = fresh j)
          /\ (Forall (fun slot => EFI_ERROR (fst (fst slot)) = true
                                  <-> snd (fst slot) = None) slots ->
              wrap64 (snd r) = total))
  end.
Proof.
  cbv zeta.
  pose proof (read_initrds_total gBS files pool (Limine.device_handle target)
                (take (Z.to_nat (Limine.initrd_count target))
                      (Limine.initrd_paths target)) 0 st eq_refl) as H.
  unfold Boot.load_initrds.
  destruct (Z.eqb_spec (Limine.initrd_count target) 0) as [E0 | E0].
  { rewrite E0 in *. cbn [Z.to_nat take Boot.read_initrds] in *.
    destruct H as [Hlen Htot]. split; [exact Hlen |]. split; [exact Htot |].
    split.
    - exists EFI_SUCCESS, 0, 0, fresh. split; [reflexivity |]. left. auto.
    - intros _. cbn. repeat split; try reflexivity; intros; lia. }
  destruct (Boot.read_initrds gBS files pool (Limine.device_handle target) _ 0 st)
    as [[[slots total] st'] |]; [| reflexivity].
  destruct H as [Hlen Htot]. split; [exact Hlen |]. split; [exact Htot |].
  split.
  - destruct (total =? 0).
    { exists EFI_SUCCESS, 0, 0, fresh. split; [reflexivity |]. left. auto. }
    unfold bind, AllocatePages, ret.
    set (r1 := fw_AllocatePages fw t AllocateMaxAddress _ _).
    destruct (EFI_ERROR (fst r1)) eqn:E1; cbv beta iota zeta.
    + set (r2 := fw_AllocatePages fw _ AllocateAnyPages _ _).
      destruct (EFI_ERROR (fst r2)) eqn:E2; cbn [fst snd];
        do 4 eexists; (split; [reflexivity |]); [left | right]; auto.
    + rewrite E1. cbn [fst snd].
      do 4 eexists. split; [reflexivity |]. right. auto.
  - intros Hs. cbv zeta.
    destruct (copy_initrds_spec slots fresh 0 Hs) as (H1 & H2 & H3).
    rewrite Z.add_0_l in H1. split; [exact H1 |]. split.
    + intros j Hj. rewrite H2 by exact Hj. now rewrite Z.sub_0_r.
    + split; [exact H3 |]. intros Hnull. rewrite H1, Htot.
      rewrite copied_length_sum; [reflexivity |].
      apply Forall_and. split; assumption.
Qed.

Lemma load_initrds_trace fw gBS files pool target fresh st t :
  exists new,
    fst (Boot.load_initrds fw gBS files pool target fresh st t) = t ++ new
    /\ Forall (fun e => Boot.leaves_boot_services e = false) new.
Proof.
  unfold Boot.load_initrds.
  assert (Hnil : forall x : option (EFI_STATUS * Z * Z * memory)
                             * Vfs.MountTable,
            exists new, fst (Linux.ret x t) = t ++ new
              /\ Forall (fun e => Boot.leaves_boot_services e = false) new).
  { intros x. exists []. split; [cbn; now rewrite app_nil_r | constructor]. }
  destruct (Limine.initrd_count target =? 0); [apply Hnil |].
  destruct (Boot.read_initrds gBS files pool _ _ 0 st)
    as [[[slots total] st'] |]; [| apply Hnil].
  destruct (total =? 0); [apply Hnil |].
  unfold Linux.bind, Linux.AllocatePages, Linux.ret.
  set (r1 := Linux.fw_AllocatePages fw t Linux.AllocateMaxAddress _ _).
  destruct (EFI_ERROR (fst r1)) eqn:E1; cbv beta iota zeta.
  - set (r2 := Linux.fw_AllocatePages fw _ Linux.AllocateAnyPages _ _).
    eexists. split.
    + destruct (EFI_ERROR (fst r2)); cbn [fst]; rewrite <- app_assoc;
        reflexivity.
    + repeat constructor.
  - rewrite E1. cbn [fst]. eexists. split; [reflexivity |].
    repeat constructor.
Qed.

Lemma handover_trace fw kernel kernel_buf kernel_size cmdline initrd_addr
    initrd_size t :
  Loader.hdr_field kernel "handover_offset" <> 0 ->
  let out := Linux.boot_efi_handover fw kernel kernel_buf kernel_size cmdline
               initrd_addr initrd_size t in
  exists new,
    fst out = t ++ new
    /\ Forall (fun e => Boot.leaves_boot_services e = false) new
    /\ (snd out = EFI_OUT_OF_RESOURCES
        \/ (snd out = EFI_LOAD_ERROR
            /\ exists entry bp, last new = Some (Linux.EvHandover entry bp))).
Proof.
  intros Hh. cbv zeta. unfold Linux.boot_efi_handover.
  apply Z.eqb_neq in Hh. rewrite Hh.
  unfold Linux.bind, Linux.AllocateZeroPool, Linux.AllocatePool, Linux.emit,
    Linux.ret.
  destruct (Linux.fw_AllocateZeroPool fw t _) as [bp_ptr |]; cbn [fst snd].
  - eexists. split; [rewrite <- !app_assoc; reflexivity |].
    split; [repeat constructor |]. right. split; [reflexivity |].
    cbn. eauto.
  - eexists. split; [reflexivity |]. split; [repeat constructor |].
    left. reflexivity.
Qed.

(** X29.  sb_boot_linux never mixes the two hand-off paths.  For a kernel
    with the HdrS magic, of protocol 2.11 or later and with a handover
    offset, the EFI handover path is the only one taken: no event that
    the call adds to the trace exits the boot services or enters the
    legacy 64-bit entry, and the call ends out of resources, or with the
    load error after the handover call, which is then the last event (or
    without a status, when a read of an initrd does not return).  Before
    that choice the image is checked: a failed read of the kernel is
    returned as it is, an image shorter than 0x260 bytes or without the
    HdrS magic is refused as an invalid parameter, and on these returns
    the trace has no new event: nothing was allocated for the initrds or
    the boot parameters, and no hand-off was started. *)
Theorem X29_boot_linux_paths fw gBS files pool target kernel_buf fresh
    e820_stack st t :
  let out := Boot.sb_boot_linux fw gBS files pool target kernel_buf fresh
               e820_stack st t in
  let rd := Vfs.sb_vfs_read_file gBS files pool (Limine.device_handle target)
              (Limine.kernel_path target) None 0 st in
  match fst rd with
  | None => out = (t, (None, snd rd))
  | Some (status, buffer, kernel_size) =>
      (EFI_ERROR status = true -> out = (t, (Some status, snd rd)))
      /\ (EFI_ERROR status = false -> kernel_size < 0x260 ->
          out = (t, (Some EFI_INVALID_PARAMETER, snd rd)))
      /\ (forall kernel,
            EFI_ERROR status = false -> 0x260 <= kernel_size ->
            buffer = Some kernel ->
            (Loader.hdr_field kernel "header" <> Loader.LINUX_BOOT_HDR_MAGIC ->
             out = (t, (Some EFI_INVALID_PARAMETER, snd rd)))
            /\ (Loader.hdr_field kernel "header" = Loader.LINUX_BOOT_HDR_MAGIC ->
                0x020B <= Loader.hdr_field kernel "version" ->
                Loader.hdr_field kernel "handover_offset" <> 0 ->
                exists new,
                  fst out = t ++ new
                  /\ Forall (fun e => Boot.leaves_boot_services e = false) new
                  /\ (fst (snd out) = None
                      \/ fst (snd out) = Some EFI_OUT_OF_RESOURCES
                      \/ (fst (snd out) = Some EFI_LOAD_ERROR
                          /\ exists entry bp,
                               last new = Some (Linux.EvHandover entry bp)))))
  end.
Proof.
  cbv zeta. unfold Boot.sb_boot_linux.
  destruct (Vfs.sb_vfs_read_file gBS files pool _ _ None 0 st)
    as [[[[status buffer] kernel_size] |] st1]; cbn [fst snd];
    [| reflexivity].
  split; [intros ->; reflexivity |]. split.
  { intros -> Hlt. apply Z.ltb_lt in Hlt. now rewrite Hlt. }
  intros kernel -> Hge ->. apply Z.ltb_ge in Hge. rewrite Hge. split.
  { intros Hm. apply Z.eqb_neq in Hm. now rewrite Hm. }
  intros Hm Hv Hh. apply Z.eqb_eq in Hm. rewrite Hm. cbn [negb].
  unfold Linux.bind.
  destruct (load_initrds_trace fw gBS files pool target fresh st1 t)
    as (new1 & E1 & F1).
  destruct (Boot.load_initrds fw gBS files pool target fresh st1 t)
    as [t1 [[[[[s0 initrd_addr] initrd_size] region] |] st2]];
    cbn [fst] in E1; subst t1.
  2:{ exists new1. cbn [fst snd Linux.ret].
      split; [reflexivity |]. split; [exact F1 |]. left. reflexivity. }
  apply Z.leb_le in Hv. rewrite Hv.
  pose proof Hh as Hh'. apply Z.eqb_neq in Hh'. rewrite Hh'. cbn [negb andb].
  destruct (handover_trace fw kernel kernel_buf kernel_size
              (Limine.cmdline target) initrd_addr initrd_size (t ++ new1) Hh)
    as (new2 & E2 & F2 & Hs).
  destruct (Linux.boot_efi_handover fw kernel kernel_buf kernel_size
              (Limine.cmdline target) initrd_addr initrd_size (t ++ new1))
    as [t2 s2]; cbn [fst snd] in *. subst t2.
  assert (Hne : negb (s2 =? EFI_UNSUPPORTED) = true).
  { destruct Hs as [-> | [-> _]]; reflexivity. }
  rewrite Hne. cbn [Linux.ret fst snd].
  exists (new1 ++ new2). split; [now rewrite app_assoc |].
  split; [apply Forall_app; auto |].
  destruct Hs as [-> | [-> (entry & bp & Hl)]]; [right; left; reflexivity |].
  right. right. split; [reflexivity |]. exists entry, bp.
  destruct new2 as [| e new2] using rev_ind; [discriminate |].
  rewrite last_snoc in Hl. rewrite app_assoc, last_snoc. exact Hl.
Qed.

(* --------------------------------------------------------------------- *)
(** ** fs/btrfs.c, fs/xfs.c, fs/ntfs.c: the probes                         *)
(* --------------------------------------------------------------------- *)

Section StubsMore.

Import Ext4 Stubs.

Lemma probe_read_shows pool img bio dio offset n lba read_size status buf :
  shows img bio dio ->
  (dio = None -> n <= read_size /\ lba * BlockSize bio = offset) ->
  probe_read pool bio dio offset n lba read_size = Some (status, buf) ->
  EFI_ERROR status = false ->
  forall j, 0 <= j < n -> wrap8 (buf j) = wrap8 (img (offset + j)).
Proof.
  intros [Hb Hd] Hn E Hok j Hj. unfold probe_read in E.
  assert (Hin : (0 <=? j) && (j <? 0 + n) = true).
  { apply andb_true_iff; split; [apply Z.leb_le | apply Z.ltb_lt]; lia. }
  destruct dio as [d |].
  - injection E as <- <-. rewrite deliver_ok by exact Hok.
    rewrite Hin, wrap8_idem, Z.sub_0_r. apply (Hd d eq_refl); assumption.
  - destruct (Hn eq_refl) as [Hle Hl].
    destruct (pool_ok pool read_size); cbn [negb] in E; [| discriminate].
    injection E as <- <-. rewrite Hok. unfold CopyMem.
    rewrite Hin, wrap8_idem, Z.sub_0_r, Z.add_0_l.
    rewrite deliver_ok by exact Hok.
    replace ((0 <=? j) && (j <? 0 + read_size)) with true
      by (symmetry; apply andb_true_iff; split;
          [apply Z.leb_le | apply Z.ltb_lt]; lia).
    rewrite wrap8_idem, Z.sub_0_r.
    rewrite Hb; [now rewrite Hl | exact Hok | lia].
Qed.

Lemma land_mask x k :
  0 <= k -> Z.land x (255 * 2 ^ k) = ((x / 2 ^ k) mod 256) * 2 ^ k.
Proof.
  intros Hk. apply Z.bits_inj'. intros n Hn.
  rewrite Z.land_spec, !Z.mul_pow2_bits by lia.
  change 256 with (2 ^ 8). rewrite <- Z.land_ones by lia.
  rewrite Z.land_spec, <- Z.shiftr_div_pow2 by lia.
  destruct (Z.ltb_spec n k) as [H | H].
  - rewrite !(Z.testbit_neg_r _ (n - k)) by lia. now rewrite andb_false_r.
  - rewrite Z.shiftr_spec by lia. replace (n - k + k) with n by lia.
    reflexivity.
Qed.

Lemma lor_add a b k :
  0 <= k -> 0 <= a < 2 ^ k -> Z.lor a (b * 2 ^ k) = a + b * 2 ^ k.
Proof.
  intros Hk Ha.
  assert (H0 : Z.land a (b * 2 ^ k) = 0).
  { apply Z.bits_inj'. intros n Hn. rewrite Z.land_spec, Z.bits_0.
    destruct (Z.ltb_spec n k) as [H | H].
    - now rewrite Z.mul_pow2_bits_low, andb_false_r.
    - rewrite <- (Z.mod_small a (2 ^ k)) by exact Ha.
      now rewrite Z.mod_pow2_bits_high by lia. }
  now rewrite <- Z.lxor_lor, Z.add_nocarry_lxor.
Qed.

(** The byte swap of xfs_probe, on a 32-bit value given by its bytes. *)
Lemma bswap32_bytes b0 b1 b2 b3 :
  0 <= b0 < 256 -> 0 <= b1 < 256 -> 0 <= b2 < 256 -> 0 <= b3 < 256 ->
  let m := b0 + 256 * (b1 + 256 * (b2 + 256 * (b3 + 256 * 0))) in
  Z.lor (Z.lor (Z.lor (Z.land (Z.shiftr m 24) 0xFF)
                      (Z.land (Z.shiftr m 8) 0xFF00))
               (Z.land (wrap32 (Z.shiftl m 8)) 0xFF0000))
        (Z.land (wrap32 (Z.shiftl m 24)) 0xFF000000)
  = b3 + 256 * b2 + 65536 * b1 + 16777216 * b0.
Proof.
  intros H0 H1 H2 H3 m.
  assert (E0 : Z.land (Z.shiftr m 24) 0xFF = b3).
  { change 0xFF with (Z.ones 8). rewrite Z.land_ones, Z.shiftr_div_pow2 by lia.
    change (2 ^ 24) with 16777216. change (2 ^ 8) with 256. subst m.
    Z.div_mod_to_equations. lia. }
  assert (E1 : Z.land (Z.shiftr m 8) 0xFF00 = b2 * 2 ^ 8).
  { change 0xFF00 with (255 * 2 ^ 8). rewrite land_mask by lia. f_equal.
    rewrite Z.shiftr_div_pow2 by lia. change (2 ^ 8) with 256. subst m.
    Z.div_mod_to_equations. lia. }
  assert (E2 : Z.land (wrap32 (Z.shiftl m 8)) 0xFF0000 = b1 * 2 ^ 16).
  { change 0xFF0000 with (255 * 2 ^ 16). rewrite land_mask by lia. f_equal.
    unfold wrap32. rewrite Z.shiftl_mul_pow2 by lia.
    change (2 ^ 8) with 256. change (2 ^ 16) with 65536.
    change (2 ^ 32) with 4294967296. subst m.
    Z.div_mod_to_equations. lia. }
  assert (E3 : Z.land (wrap32 (Z.shiftl m 24)) 0xFF000000 = b0 * 2 ^ 24).
  { change 0xFF000000 with (255 * 2 ^ 24). rewrite land_mask by lia. f_equal.
    unfold wrap32. rewrite Z.shiftl_mul_pow2 by lia.
    change (2 ^ 24) with 16777216. change (2 ^ 32) with 4294967296. subst m.
    Z.div_mod_to_equations. lia. }
  rewrite E0, E1, E2, E3.
  rewrite (lor_add b3 b2 8) by (change (2 ^ 8) with 256; lia).
  rewrite (lor_add _ b1 16)
    by (change (2 ^ 8) with 256; change (2 ^ 16) with 65536; lia).
  rewrite (lor_add _ b0 24)
    by (change (2 ^ 8) with 256; change (2 ^ 16) with 65536;
        change (2 ^ 24) with 16777216; lia).
  change (2 ^ 8) with 256. change (2 ^ 16) with 65536.
  change (2 ^ 24) with 16777216. lia.
Qed.

Lemma wrap8_bound z : 0 <= wrap8 z < 256.
Proof. unfold wrap8. change (2 ^ 8) with 256. apply Z.mod_pos_bound. lia. Qed.

(** X30.  The probes of the three stub drivers decide by the signature
    bytes of the device, whichever protocol they read with (for the Block
    I/O fallback: blocks of at least 512 bytes whose size divides 0x10000).
    Each returns the error of its read, or out-of-resources when the
    fallback buffer cannot be allocated; otherwise xfs_probe answers
    success exactly when bytes 0..3 are XFSB, btrfs_probe when bytes
    0x10040..0x10047 are _BHRfS_M, ntfs_probe when bytes 3..10 are NTFS
    followed by four spaces, and each answers not-found when they are
    not. *)
Theorem X30_stub_probe_signatures pool img bio dio :
  shows img bio dio ->
  (dio = None ->
   512 <= BlockSize bio /\ BTRFS_SUPERBLOCK_OFFSET mod BlockSize bio = 0) ->
  let bytes off n := prefix (fun j => wrap8 (img (off + j))) n in
  let decides (result : EFI_STATUS) (read : option (EFI_STATUS * memory))
              (found : Prop) :=
    match read with
    | None => dio = None /\ result = EFI_OUT_OF_RESOURCES
    | Some (status, _) =>
        if EFI_ERROR status then result = status
        else (found -> result = EFI_SUCCESS)
             /\ (~ found -> result = EFI_NOT_FOUND)
    end in
  decides (xfs_probe pool bio dio)
          (probe_read pool bio dio 0 (sizeof XfsSuperblock) 0 (BlockSize bio))
          (bytes 0 4 = Util.str "XFSB")
  /\ decides (btrfs_probe pool bio dio)
          (probe_read pool bio dio BTRFS_SUPERBLOCK_OFFSET
             (sizeof BtrfsSuperblock)
             (BTRFS_SUPERBLOCK_OFFSET / BlockSize bio)
             (if sizeof BtrfsSuperblock <? BlockSize bio
              then BlockSize bio else sizeof BtrfsSuperblock))
          (bytes 0x10040 8 = Util.str "_BHRfS_M")
  /\ decides (ntfs_probe pool bio dio)
          (probe_read pool bio dio 0 512 0 (BlockSize bio))
          (bytes 3 8 = Util.str "NTFS    ").
Proof.
  intros Hs Hbs. cbv zeta.
  assert (Hnone : forall offset n lba read_size,
            probe_read pool bio dio offset n lba read_size = None ->
            dio = None).
  { intros offset n lba read_size E. unfold probe_read in E.
    destruct dio; [discriminate | reflexivity]. }
  split; [| split].
  - unfold xfs_probe.
    destruct (probe_read pool bio dio 0 (sizeof XfsSuperblock) 0 (BlockSize bio))
      as [[status sb_] |] eqn:E;
      [| split; [exact (Hnone _ _ _ _ E) | reflexivity]].
    destruct (EFI_ERROR status) eqn:Hok; [reflexivity |].
    assert (Hb : forall j, 0 <= j < 4 -> wrap8 (sb_ j) = wrap8 (img (0 + j))).
    { intros j Hj.
      apply (probe_read_shows pool img bio dio 0 (sizeof XfsSuperblock) 0
               (BlockSize bio) status sb_); try assumption.
      - intros Hd. destruct (Hbs Hd) as [H _].
        change (sizeof XfsSuperblock) with 48. lia.
      - change (sizeof XfsSuperblock) with 48. lia. }
    cbv zeta. unfold member.
    change (Z.to_nat (member_size "sb_magicnum" XfsSuperblock)) with 4%nat.
    change (0 + offsetof "sb_magicnum" XfsSuperblock) with 0.
    cbn [load_le].
    change (0 + 1) with 1. change (1 + 1) with 2. change (2 + 1) with 3.
    rewrite bswap32_bytes by apply wrap8_bound.
    rewrite !Hb by lia.
    change (prefix (fun j => wrap8 (img (0 + j))) 4)
      with [wrap8 (img (0 + 0)); wrap8 (img (0 + 1)); wrap8 (img (0 + 2));
            wrap8 (img (0 + 3))].
    change (Util.str "XFSB") with [0x58; 0x46; 0x53; 0x42].
    pose proof (wrap8_bound (img (0 + 0))). pose proof (wrap8_bound (img (0 + 1))).
    pose proof (wrap8_bound (img (0 + 2))). pose proof (wrap8_bound (img (0 + 3))).
    unfold XFS_SUPER_MAGIC. split; intros Hf.
    + injection Hf as -> -> -> ->. reflexivity.
    + destruct (Z.eqb_spec
                  (wrap8 (img (0 + 3)) + 256 * wrap8 (img (0 + 2))
                   + 65536 * wrap8 (img (0 + 1)) + 16777216 * wrap8 (img (0 + 0)))
                  0x58465342) as [Eq | _]; [| reflexivity].
      exfalso. apply Hf. repeat f_equal; lia.
  - unfold btrfs_probe. cbv zeta.
    destruct (probe_read pool bio dio BTRFS_SUPERBLOCK_OFFSET
                (sizeof BtrfsSuperblock)
                (BTRFS_SUPERBLOCK_OFFSET / BlockSize bio)
                (if sizeof BtrfsSuperblock <? BlockSize bio
                 then BlockSize bio else sizeof BtrfsSuperblock))
      as [[status sb_] |] eqn:E;
      [| split; [exact (Hnone _ _ _ _ E) | reflexivity]].
    destruct (EFI_ERROR status) eqn:Hok; [reflexivity |].
    assert (Hb : forall j, 0 <= j < 104 ->
                   wrap8 (sb_ j) = wrap8 (img (BTRFS_SUPERBLOCK_OFFSET + j))).
    { intros j Hj.
      apply (probe_read_shows pool img bio dio BTRFS_SUPERBLOCK_OFFSET
               (sizeof BtrfsSuperblock)
               (BTRFS_SUPERBLOCK_OFFSET / BlockSize bio)
               (if sizeof BtrfsSuperblock <? BlockSize bio
                then BlockSize bio else sizeof BtrfsSuperblock)
               status sb_); try assumption.
      intros Hd. destruct (Hbs Hd) as [H512 Hmod].
        change (sizeof BtrfsSuperblock) with 104.
        destruct (Z.ltb_spec 104 (BlockSize bio)); [| lia]. split; [lia |].
        pose proof (Z.div_mod BTRFS_SUPERBLOCK_OFFSET (BlockSize bio)
                      ltac:(lia)) as Hdm.
        rewrite Hmod in Hdm. lia. }
    unfold member.
    change (Z.to_nat (member_size "magic" BtrfsSuperblock)) with 8%nat.
    change (0 + offsetof "magic" BtrfsSuperblock) with 64.
    cbn [load_le].
    change (64 + 1) with 65. change (65 + 1) with 66. change (66 + 1) with 67.
    change (67 + 1) with 68. change (68 + 1) with 69. change (69 + 1) with 70.
    change (70 + 1) with 71.
    rewrite !Hb by lia. unfold BTRFS_SUPERBLOCK_OFFSET.
    change (prefix (fun j => wrap8 (img (65600 + j))) 8)
      with [wrap8 (img (65600 + 0)); wrap8 (img (65600 + 1));
            wrap8 (img (65600 + 2)); wrap8 (img (65600 + 3));
            wrap8 (img (65600 + 4)); wrap8 (img (65600 + 5));
            wrap8 (img (65600 + 6)); wrap8 (img (65600 + 7))].
    change (Util.str "_BHRfS_M")
      with [0x5F; 0x42; 0x48; 0x52; 0x66; 0x53; 0x5F; 0x4D].
    change (65536 + 64) with (65600 + 0). change (65536 + 65) with (65600 + 1).
    change (65536 + 66) with (65600 + 2). change (65536 + 67) with (65600 + 3).
    change (65536 + 68) with (65600 + 4). change (65536 + 69) with (65600 + 5).
    change (65536 + 70) with (65600 + 6). change (65536 + 71) with (65600 + 7).
    pose proof (wrap8_bound (img (65600 + 0))).
    pose proof (wrap8_bound (img (65600 + 1))).
    pose proof (wrap8_bound (img (65600 + 2))).
    pose proof (wrap8_bound (img (65600 + 3))).
    pose proof (wrap8_bound (img (65600 + 4))).
    pose proof (wrap8_bound (img (65600 + 5))).
    pose proof (wrap8_bound (img (65600 + 6))).
    pose proof (wrap8_bound (img (65600 + 7))).
    unfold BTRFS_SUPER_MAGIC. split; intros Hf.
    + injection Hf as -> -> -> -> -> -> -> ->. reflexivity.
    + match goal with |- (if ?a =? ?b then _ else _) = _ =>
        destruct (Z.eqb_spec a b) as [Eq | _]; [| reflexivity] end.
      exfalso. apply Hf. repeat f_equal; lia.
  - unfold ntfs_probe.
    destruct (probe_read pool bio dio 0 512 0 (BlockSize bio))
      as [[status sector] |] eqn:E;
      [| split; [exact (Hnone _ _ _ _ E) | reflexivity]].
    destruct (EFI_ERROR status) eqn:Hok; [reflexivity |].
    assert (Hb : forall j, 0 <= j < 512 ->
                   wrap8 (sector j) = wrap8 (img (0 + j))).
    { intros j Hj.
      apply (probe_read_shows pool img bio dio 0 512 0 (BlockSize bio)
               status sector); try assumption.
      intros Hd. destruct (Hbs Hd) as [H _]. lia. }
    change (prefix (fun j => wrap8 (img (3 + j))) 8)
      with [wrap8 (img (3 + 0)); wrap8 (img (3 + 1)); wrap8 (img (3 + 2));
            wrap8 (img (3 + 3)); wrap8 (img (3 + 4)); wrap8 (img (3 + 5));
            wrap8 (img (3 + 6)); wrap8 (img (3 + 7))].
    change (Util.str "NTFS    ") with [78; 84; 70; 83; 32; 32; 32; 32].
    assert (Hsec : forall i, 0 <= i < 8 ->
                     wrap8 (sector (3 + i)) = wrap8 (img (3 + i))).
    { intros i Hi. rewrite Hb by lia. reflexivity. }
    split; intros Hf.
    + assert (Hz : Util.sb_strncmp8 (fun i => wrap8 (sector (3 + i)))
                     (Util.at_ [78; 84; 70; 83; 32; 32; 32; 32]) 8 = 0).
      { unfold Util.sb_strncmp8. apply strncmp_from_zero_iff.
        intros i Hi _. cbn beta. rewrite Hsec by lia.
        injection Hf as H0 H1 H2 H3 H4 H5 H6 H7.
        assert (Hc : i = 0 \/ i = 1 \/ i = 2 \/ i = 3 \/ i = 4 \/ i = 5
                     \/ i = 6 \/ i = 7) by lia.
        destruct Hc as [-> | [-> | [-> | [-> | [-> | [-> | [-> | ->]]]]]]];
          assumption. }
      now rewrite Hz.
    + match goal with |- (if ?a =? 0 then _ else _) = _ =>
        destruct (Z.eqb_spec a 0) as [Eq | _]; [| reflexivity] end.
      exfalso. apply Hf.
      pose proof (strncmp8_agree _ _ _ Eq) as Ha. cbn beta in Ha.
      assert (Hnz : forall i, 0 <= i < 8 ->
                Util.at_ [78; 84; 70; 83; 32; 32; 32; 32] i <> 0).
      { intros i Hi.
        assert (Hc : i = 0 \/ i = 1 \/ i = 2 \/ i = 3 \/ i = 4 \/ i = 5
                     \/ i = 6 \/ i = 7) by lia.
        destruct Hc as [-> | [-> | [-> | [-> | [-> | [-> | [-> | ->]]]]]]];
          discriminate. }
      specialize (Ha Hnz).
      rewrite <- !Hsec by lia.
      rewrite (Ha 0), (Ha 1), (Ha 2), (Ha 3), (Ha 4), (Ha 5), (Ha 6), (Ha 7)
        by lia.
      reflexivity.
Qed.

Lemma X30_stub_probe_signatures_witness :
  let pool := sample_pool in
  let img := image_fs in
  let bio := fs_block_io in
  let dio := @None EFI_DISK_IO_PROTOCOL in
  let bytes off n := prefix (fun j => wrap8 (img (off + j))) n in
  let decides (result : EFI_STATUS) (read : option (EFI_STATUS * memory))
              (found : Prop) :=
    match read with
    | None => dio = None /\ result = EFI_OUT_OF_RESOURCES
    | Some (status, _) =>
        if EFI_ERROR status then result = status
        else (found -> result = EFI_SUCCESS)
             /\ (~ found -> result = EFI_NOT_FOUND)
    end in
  decides (xfs_probe pool bio dio)
          (probe_read pool bio dio 0 (sizeof XfsSuperblock) 0 (BlockSize bio))
          (bytes 0 4 = Util.str "XFSB")
  /\ decides (btrfs_probe pool bio dio)
          (probe_read pool bio dio BTRFS_SUPERBLOCK_OFFSET
             (sizeof BtrfsSuperblock)
             (BTRFS_SUPERBLOCK_OFFSET / BlockSize bio)
             (if sizeof BtrfsSuperblock <? BlockSize bio
              then BlockSize bio else sizeof BtrfsSuperblock))
          (bytes 0x10040 8 = Util.str "_BHRfS_M")
  /\ decides (ntfs_probe pool bio dio)
          (probe_read pool bio dio 0 512 0 (BlockSize bio))
          (bytes 3 8 = Util.str "NTFS    ").
Proof.
  apply (X30_stub_probe_signatures sample_pool image_fs fs_block_io None).
  - apply image_shows. left. reflexivity.
  - intros _. split; [vm_compute; discriminate | reflexivity].
Defined.

End StubsMore.
